(** * The Trainer of omnivault.transformer.core.trainer

    A shallow embedding of [Trainer]: the callback registry
    ([add_callback], [set_callback], [remove_callback],
    [trigger_callbacks]), the batch executors ([_train_one_batch],
    [_valid_one_batch]), the epoch drivers ([train_one_epoch],
    [valid_one_epoch]) and [fit].

    The trainer is a mutable Python object; its methods are modelled in a
    state-and-exception monad over a record of its attributes.  A raised
    exception keeps the mutations made before it, as in Python.

    The model, criterion, optimizer, scheduler, logger and data loaders are
    opaque collaborators.  Each call the trainer makes to one of them is
    appended to a [trace]; the only value the trainer reads back is
    [loss.item()], which is given by an oracle over the calls made so far.

    The vocabularies of omnivault.transformer.core.vocabulary follow the
    trainer: [from_tokens], the adder's [tokenize], [encode] and [decode],
    and [from_corpus], as functions over finite maps. *)

From Stdlib Require Import ZArith Lia PrimFloat Uint63.
From stdpp Require Import base list strings gmap sorting.

Local Open Scope string_scope.
Local Open Scope list_scope.
Local Open Scope Z_scope.

(** ** Python values and exceptions *)

(** Values passed as positional or keyword context to callbacks. *)
Inductive pyval : Type :=
  | PyNone
  | PyStr (s : string)
  | PyInt (z : Z).

(** [ValueError] is what [list.remove] raises for an absent element,
    [ZeroDivisionError] what [/] and [%] raise for a zero divisor and
    [StopIteration] what [next] raises on an exhausted iterator;
    [Exception] stands for any other exception, by an opaque tag. *)
Inductive exn : Type :=
  | ValueError
  | ZeroDivisionError
  | StopIteration
  | Exception (tag : nat).

Inductive result (A : Type) : Type :=
  | Ok (a : A)
  | Raise (e : exn).
Arguments Ok {A} a.
Arguments Raise {A} e.

(** A callback is a Python callable, compared by identity. *)
Definition TrainerCallback : Type := nat.

(** [**kwargs]: keyword names with their values, in call order. *)
Definition kwargs_t : Type := list (string * pyval).

(** ** TrainerEvent and TrainerPhase *)

Module TrainerEvent.
Definition ON_TRAIN_EPOCH_START := "on_train_epoch_start".
Definition ON_TRAIN_EPOCH_END := "on_train_epoch_end".
Definition ON_VALID_EPOCH_START := "on_valid_epoch_start".
Definition ON_VALID_EPOCH_END := "on_valid_epoch_end".
Definition ON_TRAIN_BATCH_START := "on_train_batch_start".
Definition ON_TRAIN_BATCH_END := "on_train_batch_end".
Definition ON_VALID_BATCH_START := "on_valid_batch_start".
Definition ON_VALID_BATCH_END := "on_valid_batch_end".
Definition ON_FIT_START := "on_fit_start".
Definition ON_FIT_END := "on_fit_end".
End TrainerEvent.

Module TrainerPhase.
Definition TRAIN := "train".
Definition VALID := "valid".
Definition TEST := "test".
End TrainerPhase.

(** The callbacks imported from omnivault.transformer.core.callbacks; only
    their identity matters to the trainer. *)
Definition save_state : TrainerCallback := 0%nat.
Definition update_state : TrainerCallback := 1%nat.
Definition log_on_fit_start : TrainerCallback := 2%nat.
Definition log_on_train_epoch_start : TrainerCallback := 3%nat.
Definition log_on_epoch_end : TrainerCallback := 4%nat.
Definition log_on_fit_start_model_summary : TrainerCallback := 5%nat.

(** ** Collaborator data *)

(** A batch [(inputs, targets, target_padding_masks, future_masks)].  The
    trainer reads [inputs.size(0)] only; the tensors are opaque. *)
Record DatasetYield : Type := {
  tensors : nat;
  size0 : Z;
}.

(** A [DataLoader]: an object with an identity that yields the same finite
    sequence of batches each time it is iterated. *)
Record DataLoader : Type := {
  loader_id : nat;
  batches : list DatasetYield;
}.

(** [len(dataloader)]. *)
Definition len (dataloader : DataLoader) : Z := Z.of_nat (length (batches dataloader)).

(** Truth value of an optional loader in [if valid_loader:].  [DataLoader]
    defines [__len__] and no [__bool__], so a loader of length 0 is false. *)
Definition loader_truthy (loader : option DataLoader) : bool :=
  match loader with
  | None => false
  | Some dataloader => negb (len dataloader =? 0)
  end.

(** Modelled from the spec: the State class (omnivault.transformer.core.state)
    is not among the sources.  The trainer reads its model, criterion,
    optimizer and optional scheduler handles; [parameters] holds the dtypes
    of [state.model.parameters()], in order, of which [__init__] reads the
    first; [attrs] holds what callbacks such as [update_state] store in
    it. *)
Record State : Type := {
  model : nat;
  parameters : list string;
  criterion : nat;
  optimizer : nat;
  state_scheduler : option nat;
  attrs : list (string * pyval);
}.

(** The attributes [__init__] copies from [composer.trainer].  The trainer
    never reassigns them. *)
Record TrainerConfig : Type := {
  cfg_device : string;
  max_epochs : Z;
  log_every_n_steps : Z;
  eval_every_n_steps : Z;
  step_scheduler_on_batch_or_epoch : string;
  clip_grad_norm : option kwargs_t;
  apply_weight_decay_to_different_param_groups : bool;
  save_dir : string;
  save_every_epoch : bool;
  save_best_only : bool;
  mode : string;
  monitor : string;
}.

(** Truth value of [self.clip_grad_norm] ([None] or a dict). *)
Definition clip_truthy (c : option kwargs_t) : bool :=
  match c with
  | None | Some [] => false
  | Some (_ :: _) => true
  end.

(** ** Floating point *)

(** Python floats enter the trainer through four operations only.  They are
    kept abstract: every statement below holds for any arithmetic, IEEE
    binary64 included. *)
Class PyFloat (F : Type) : Type := {
  fzero : F;              (* the literal 0.0 *)
  fadd : F → F → F;       (* float + float *)
  fmul_int : F → Z → F;   (* float * int *)
  fdiv_int : F → Z → F;   (* float / int, for a non-zero int *)
}.

Section Trainer.
Context {F : Type} {fops : PyFloat F}.

(** ** The trace of collaborator calls *)

Inductive action : Type :=
  | Dispatch (event : string)
  | Invoke (callback : TrainerCallback) (args : list pyval) (kwargs : kwargs_t)
  | ModelTo
  | ModelTrain
  | ModelEval
  | Iterate (dataloader : DataLoader)
  | MoveToDevice (batch : DatasetYield)
  | NoGradEnter
  | NoGradExit
  | Forward
  | Criterion
  | ZeroGrad
  | Backward
  | LossItem (loss : F)
  | ClipGradNorm
  | OptimizerStep
  | SchedulerStep
  | GetLastLr
  | LoggerInfo (epoch step : Z) (total_batch_loss avg_batch_loss : F).

(** ** The trainer object *)

Record Trainer : Type := {
  state : State;
  cfg : TrainerConfig;
  scheduler : option nat;
  device : string;
  best_monitored_score : option F;
  metrics_dict : gmap string F;
  epoch_index : Z;
  batch_index : Z;
  callbacks : gmap string (list TrainerCallback);
  train_dataloader : option DataLoader;
  valid_dataloader : option DataLoader;
  test_dataloader : option DataLoader;
  train_loss : option F;
  valid_loss : option F;
  test_loss : option F;
  trace : list action;
}.

Definition set_state (v : State) (t : Trainer) : Trainer :=
  {| state := v; cfg := cfg t; scheduler := scheduler t; device := device t;
     best_monitored_score := best_monitored_score t; metrics_dict := metrics_dict t;
     epoch_index := epoch_index t; batch_index := batch_index t; callbacks := callbacks t;
     train_dataloader := train_dataloader t; valid_dataloader := valid_dataloader t;
     test_dataloader := test_dataloader t; train_loss := train_loss t;
     valid_loss := valid_loss t; test_loss := test_loss t; trace := trace t |}.

Definition set_best_monitored_score (v : option F) (t : Trainer) : Trainer :=
  {| state := state t; cfg := cfg t; scheduler := scheduler t; device := device t;
     best_monitored_score := v; metrics_dict := metrics_dict t;
     epoch_index := epoch_index t; batch_index := batch_index t; callbacks := callbacks t;
     train_dataloader := train_dataloader t; valid_dataloader := valid_dataloader t;
     test_dataloader := test_dataloader t; train_loss := train_loss t;
     valid_loss := valid_loss t; test_loss := test_loss t; trace := trace t |}.

Definition set_metrics_dict (v : gmap string F) (t : Trainer) : Trainer :=
  {| state := state t; cfg := cfg t; scheduler := scheduler t; device := device t;
     best_monitored_score := best_monitored_score t; metrics_dict := v;
     epoch_index := epoch_index t; batch_index := batch_index t; callbacks := callbacks t;
     train_dataloader := train_dataloader t; valid_dataloader := valid_dataloader t;
     test_dataloader := test_dataloader t; train_loss := train_loss t;
     valid_loss := valid_loss t; test_loss := test_loss t; trace := trace t |}.

Definition set_epoch_index (v : Z) (t : Trainer) : Trainer :=
  {| state := state t; cfg := cfg t; scheduler := scheduler t; device := device t;
     best_monitored_score := best_monitored_score t; metrics_dict := metrics_dict t;
     epoch_index := v; batch_index := batch_index t; callbacks := callbacks t;
     train_dataloader := train_dataloader t; valid_dataloader := valid_dataloader t;
     test_dataloader := test_dataloader t; train_loss := train_loss t;
     valid_loss := valid_loss t; test_loss := test_loss t; trace := trace t |}.

Definition set_batch_index (v : Z) (t : Trainer) : Trainer :=
  {| state := state t; cfg := cfg t; scheduler := scheduler t; device := device t;
     best_monitored_score := best_monitored_score t; metrics_dict := metrics_dict t;
     epoch_index := epoch_index t; batch_index := v; callbacks := callbacks t;
     train_dataloader := train_dataloader t; valid_dataloader := valid_dataloader t;
     test_dataloader := test_dataloader t; train_loss := train_loss t;
     valid_loss := valid_loss t; test_loss := test_loss t; trace := trace t |}.

Definition set_callbacks (v : gmap string (list TrainerCallback)) (t : Trainer) : Trainer :=
  {| state := state t; cfg := cfg t; scheduler := scheduler t; device := device t;
     best_monitored_score := best_monitored_score t; metrics_dict := metrics_dict t;
     epoch_index := epoch_index t; batch_index := batch_index t; callbacks := v;
     train_dataloader := train_dataloader t; valid_dataloader := valid_dataloader t;
     test_dataloader := test_dataloader t; train_loss := train_loss t;
     valid_loss := valid_loss t; test_loss := test_loss t; trace := trace t |}.

Definition set_dataloaders (tr va te : option DataLoader) (t : Trainer) : Trainer :=
  {| state := state t; cfg := cfg t; scheduler := scheduler t; device := device t;
     best_monitored_score := best_monitored_score t; metrics_dict := metrics_dict t;
     epoch_index := epoch_index t; batch_index := batch_index t; callbacks := callbacks t;
     train_dataloader := tr; valid_dataloader := va;
     test_dataloader := te; train_loss := train_loss t;
     valid_loss := valid_loss t; test_loss := test_loss t; trace := trace t |}.

Definition set_train_loss (v : option F) (t : Trainer) : Trainer :=
  {| state := state t; cfg := cfg t; scheduler := scheduler t; device := device t;
     best_monitored_score := best_monitored_score t; metrics_dict := metrics_dict t;
     epoch_index := epoch_index t; batch_index := batch_index t; callbacks := callbacks t;
     train_dataloader := train_dataloader t; valid_dataloader := valid_dataloader t;
     test_dataloader := test_dataloader t; train_loss := v;
     valid_loss := valid_loss t; test_loss := test_loss t; trace := trace t |}.

Definition set_valid_loss (v : option F) (t : Trainer) : Trainer :=
  {| state := state t; cfg := cfg t; scheduler := scheduler t; device := device t;
     best_monitored_score := best_monitored_score t; metrics_dict := metrics_dict t;
     epoch_index := epoch_index t; batch_index := batch_index t; callbacks := callbacks t;
     train_dataloader := train_dataloader t; valid_dataloader := valid_dataloader t;
     test_dataloader := test_dataloader t; train_loss := train_loss t;
     valid_loss := v; test_loss := test_loss t; trace := trace t |}.

Definition set_test_loss (v : option F) (t : Trainer) : Trainer :=
  {| state := state t; cfg := cfg t; scheduler := scheduler t; device := device t;
     best_monitored_score := best_monitored_score t; metrics_dict := metrics_dict t;
     epoch_index := epoch_index t; batch_index := batch_index t; callbacks := callbacks t;
     train_dataloader := train_dataloader t; valid_dataloader := valid_dataloader t;
     test_dataloader := test_dataloader t; train_loss := train_loss t;
     valid_loss := valid_loss t; test_loss := v; trace := trace t |}.

Definition set_trace (v : list action) (t : Trainer) : Trainer :=
  {| state := state t; cfg := cfg t; scheduler := scheduler t; device := device t;
     best_monitored_score := best_monitored_score t; metrics_dict := metrics_dict t;
     epoch_index := epoch_index t; batch_index := batch_index t; callbacks := callbacks t;
     train_dataloader := train_dataloader t; valid_dataloader := valid_dataloader t;
     test_dataloader := test_dataloader t; train_loss := train_loss t;
     valid_loss := valid_loss t; test_loss := test_loss t; trace := v |}.

(** ** Callbacks and the loss oracle *)

(** What a callback leaves behind: the exception it raised, if any, and
    the attributes callbacks may write (the state, the best score and the
    metrics).  Callbacks do not re-enter the registry or reassign the
    counters. *)
Record Outcome : Type := {
  raised : option exn;
  state_after : State;
  best_after : option F;
  metrics_after : gmap string F;
}.

Class Collaborators : Type := {
  (* the names in inspect.signature(callback).parameters *)
  signature_parameters : TrainerCallback → list string;
  (* callback(trainer, *args, **kwargs) *)
  call : TrainerCallback → list pyval → kwargs_t → Trainer → Outcome;
  (* loss.item() for a batch, after the calls made so far *)
  loss_item : list action → DatasetYield → F;
}.

Context {world : Collaborators}.

(** ** The monad *)

Definition M (A : Type) : Type := Trainer → Trainer * result A.

Definition ret {A} (a : A) : M A := λ t, (t, Ok a).
Definition raise {A} (e : exn) : M A := λ t, (t, Raise e).
Definition bind {A B} (m : M A) (k : A → M B) : M B :=
  λ t, match m t with
       | (t', Ok a) => k a t'
       | (t', Raise e) => (t', Raise e)
       end.
Definition gets {A} (f : Trainer → A) : M A := λ t, (t, Ok (f t)).
Definition modify (f : Trainer → Trainer) : M unit := λ t, (f t, Ok tt).

Notation "'let*' x ':=' m 'in' k" := (bind m (λ x, k))
  (at level 10, x pattern, m at level 100, k at level 200).
Notation "m ';;' k" := (bind m (λ _, k))
  (at level 100, k at level 200, right associativity).

(** A collaborator call. *)
Definition logged (a : action) (t : Trainer) : Trainer := set_trace (trace t ++ [a]) t.
Definition emit (a : action) : M unit := modify (logged a).

(** [for x in l: body(x)]. *)
Fixpoint for_each {A} (l : list A) (body : A → M unit) : M unit :=
  match l with
  | [] => ret tt
  | x :: l' => body x ;; for_each l' body
  end.

(** A [for] loop that updates local variables [s]. *)
Fixpoint for_fold {A S} (l : list A) (s : S) (body : S → A → M S) : M S :=
  match l with
  | [] => ret s
  | x :: l' => let* s' := body s x in for_fold l' s' body
  end.

(** [enumerate(l, start)]. *)
Fixpoint enumerate {A} (l : list A) (start : Z) : list (Z * A) :=
  match l with
  | [] => []
  | x :: l' => (start, x) :: enumerate l' (start + 1)
  end.

(** ** The callback registry *)

(** [self.callbacks[event]] on a [defaultdict(list)]: a missing key is
    inserted with an empty list. *)
Definition callbacks_getitem (event : string) : M (list TrainerCallback) :=
  λ t, match callbacks t !! event with
       | Some l => (t, Ok l)
       | None => (set_callbacks (<[event := []]> (callbacks t)) t, Ok [])
       end.

(** The handlers registered for an event, in order. *)
Definition handlers_for (event : string) (t : Trainer) : list TrainerCallback :=
  default [] (callbacks t !! event).

Definition add_callback (event : string) (callback : TrainerCallback) : M unit :=
  let* l := callbacks_getitem event in
  modify (λ t, set_callbacks (<[event := l ++ [callback]]> (callbacks t)) t).

Definition set_callback (event : string) (callback : TrainerCallback) : M unit :=
  modify (λ t, set_callbacks (<[event := [callback]]> (callbacks t)) t).

(** [list.remove(x)]: drop the first element equal to [x]; [None] stands
    for the [ValueError] of an absent element. *)
Fixpoint list_remove (x : TrainerCallback) (l : list TrainerCallback)
  : option (list TrainerCallback) :=
  match l with
  | [] => None
  | y :: l' => if decide (y = x) then Some l' else (y ::.) <$> list_remove x l'
  end.

Definition remove_callback (event : string) (callback : TrainerCallback) : M unit :=
  let* l := callbacks_getitem event in
  match list_remove callback l with
  | Some l' => modify (λ t, set_callbacks (<[event := l']> (callbacks t)) t)
  | None => raise ValueError
  end.

(** [callback(self, *args, **kwargs)]: the callback's writes are kept
    also when it raises. *)
Definition invoke (callback : TrainerCallback) (args : list pyval) (kwargs : kwargs_t)
  : M unit :=
  emit (Invoke callback args kwargs) ;;
  let* o := gets (call callback args kwargs) in
  modify (λ t, set_metrics_dict (metrics_after o)
                 (set_best_monitored_score (best_after o) (set_state (state_after o) t))) ;;
  match raised o with
  | Some e => raise e
  | None => ret tt
  end.

(** [all(param in params for param in kwargs)]. *)
Definition accepts (callback : TrainerCallback) (kwargs : kwargs_t) : bool :=
  forallb (λ param, bool_decide (param ∈ signature_parameters callback)) kwargs.*1.

Definition trigger_callbacks (event : string) (args : list pyval) (kwargs : kwargs_t)
  : M unit :=
  emit (Dispatch event) ;;
  let* registered := callbacks_getitem event in
  for_each registered (λ callback,
    if accepts callback kwargs
    then invoke callback args kwargs
    else invoke callback [] []).

Definition update_metrics (metric_name : string) (metric_value : F) : M unit :=
  modify (λ t, set_metrics_dict (<[metric_name := metric_value]> (metrics_dict t)) t).

(** ** Construction *)

(** The attributes assigned by [__init__] before it registers the default
    callbacks; [self.model.to(...)] is the one collaborator call.  The
    [device] argument overrides the composer's when given. *)
Definition fresh (st : State) (composer : TrainerConfig) (dev : option string) : Trainer :=
  {| state := st; cfg := composer; scheduler := state_scheduler st;
     device := default (cfg_device composer) dev;
     best_monitored_score := None; metrics_dict := ∅;
     epoch_index := 0; batch_index := 0; callbacks := ∅;
     train_dataloader := None; valid_dataloader := None; test_dataloader := None;
     train_loss := None; valid_loss := None; test_loss := None;
     trace := [ModelTo] |}.

(** The argument [dtype=next(state.model.parameters()).dtype] of
    [self.model.to] is evaluated before the call: for a model without
    parameters [next] raises [StopIteration], [model.to] is not called and
    nothing after it is assigned.  No trainer comes out of the constructor
    then; the record returned with the exception stands for the abandoned
    object. *)
Definition __init__ (st : State) (composer : TrainerConfig) (dev : option string)
  : Trainer * result unit :=
  match parameters st with
  | [] => raise StopIteration (set_trace [] (fresh st composer dev))
  | _dtype :: _ =>
      (add_callback TrainerEvent.ON_VALID_EPOCH_END save_state ;;
       add_callback TrainerEvent.ON_TRAIN_EPOCH_END update_state ;;
       add_callback TrainerEvent.ON_FIT_START log_on_fit_start ;;
       add_callback TrainerEvent.ON_TRAIN_EPOCH_START log_on_train_epoch_start ;;
       add_callback TrainerEvent.ON_VALID_EPOCH_START log_on_train_epoch_start ;;
       add_callback TrainerEvent.ON_TRAIN_EPOCH_END log_on_epoch_end ;;
       add_callback TrainerEvent.ON_VALID_EPOCH_END log_on_epoch_end ;;
       add_callback TrainerEvent.ON_FIT_START log_on_fit_start_model_summary)
        (fresh st composer dev)
  end.

(** ** One batch *)

(** [loss.item()]. *)
Definition item (batch : DatasetYield) : M F :=
  let* v := gets (λ t, loss_item (trace t) batch) in
  emit (LossItem v) ;;
  ret v.

(** [self.scheduler and self.step_scheduler_on_batch_or_epoch == granularity]. *)
Definition steps_scheduler_on (granularity : string) (t : Trainer) : bool :=
  match scheduler t with
  | Some _ => String.eqb (step_scheduler_on_batch_or_epoch (cfg t)) granularity
  | None => false
  end.

Definition _train_one_batch (batch : DatasetYield) : M (F * F) :=
  trigger_callbacks TrainerEvent.ON_TRAIN_BATCH_START [] [] ;;
  emit (MoveToDevice batch) ;;
  let batch_size := size0 batch in
  emit Forward ;;
  emit Criterion ;;
  emit ZeroGrad ;;
  emit Backward ;;
  let* this_batch_average_loss := item batch in
  let this_batch_total_loss := fmul_int this_batch_average_loss batch_size in
  let* clip := gets (λ t, clip_truthy (clip_grad_norm (cfg t))) in
  (if clip then emit ClipGradNorm else ret tt) ;;
  emit OptimizerStep ;;
  let* on_batch := gets (steps_scheduler_on "batch") in
  (if on_batch then emit SchedulerStep else ret tt) ;;
  modify (λ t, set_batch_index (batch_index t + 1) t) ;;
  trigger_callbacks TrainerEvent.ON_TRAIN_BATCH_END [] [] ;;
  ret (this_batch_average_loss, this_batch_total_loss).

(** [@torch.no_grad()]: the scope is left also when the body raises. *)
Definition no_grad {A} (m : M A) : M A :=
  λ t, let (t', r) := m (logged NoGradEnter t) in (logged NoGradExit t', r).

Definition _valid_one_batch (batch : DatasetYield) : M (F * F) :=
  no_grad (
    trigger_callbacks TrainerEvent.ON_VALID_BATCH_START [] [] ;;
    emit (MoveToDevice batch) ;;
    let batch_size := size0 batch in
    emit Forward ;;
    emit Criterion ;;
    let* this_batch_average_loss := item batch in
    let this_batch_total_loss := fmul_int this_batch_average_loss batch_size in
    trigger_callbacks TrainerEvent.ON_VALID_BATCH_END [] [] ;;
    ret (this_batch_average_loss, this_batch_total_loss)).

(** ** One epoch *)

(** [total / samples] for a float and an int. *)
Definition truediv (total : F) (samples : Z) : M F :=
  if samples =? 0 then raise ZeroDivisionError else ret (fdiv_int total samples).

(** [i % n == 0] for ints. *)
Definition divides (n i : Z) : M bool :=
  if n =? 0 then raise ZeroDivisionError else ret (i mod n =? 0).

(** The body of the loop of [train_one_epoch], over the local variables
    [total_samples] and [this_epoch_total_running_loss]. *)
Definition train_step : Z * F → Z * DatasetYield → M (Z * F) :=
  λ '(total_samples, this_epoch_total_running_loss) '(_batch_index, batch),
    let batch_size := size0 batch in
    let total_samples := total_samples + batch_size in
    let* losses := _train_one_batch batch in
    let '(this_batch_average_loss, this_batch_total_loss) := losses in
    let this_epoch_total_running_loss :=
      fadd this_epoch_total_running_loss this_batch_total_loss in
    let* n := gets (λ t, log_every_n_steps (cfg t)) in
    let* due := divides n _batch_index in
    (if due
     then
       let* has_scheduler := gets (λ t, bool_decide (is_Some (scheduler t))) in
       (if has_scheduler then emit GetLastLr else ret tt) ;;
       let* epoch := gets epoch_index in
       emit (LoggerInfo epoch _batch_index this_batch_total_loss this_batch_average_loss)
     else ret tt) ;;
    let* on_epoch := gets (steps_scheduler_on "epoch") in
    (if on_epoch then emit SchedulerStep else ret tt) ;;
    ret (total_samples, this_epoch_total_running_loss).

Definition train_one_epoch (dataloader : DataLoader) : M F :=
  trigger_callbacks TrainerEvent.ON_TRAIN_EPOCH_START []
    [("phase", PyStr TrainerPhase.TRAIN)] ;;
  emit ModelTrain ;;
  emit (Iterate dataloader) ;;
  let* acc := for_fold (enumerate (batches dataloader) 1) (0, fzero) train_step in
  let '(total_samples, this_epoch_total_running_loss) := acc in
  let* this_epoch_average_loss := truediv this_epoch_total_running_loss total_samples in
  update_metrics "train_this_epoch_average_loss" this_epoch_average_loss ;;
  trigger_callbacks TrainerEvent.ON_TRAIN_EPOCH_END []
    [("phase", PyStr TrainerPhase.TRAIN)] ;;
  ret this_epoch_average_loss.

(** The body of the loop of [valid_one_epoch]. *)
Definition valid_step : Z * F → Z * DatasetYield → M (Z * F) :=
  λ '(total_samples, this_epoch_total_running_loss) '(_batch_index, batch),
    let batch_size := size0 batch in
    let total_samples := total_samples + batch_size in
    let* losses := _valid_one_batch batch in
    let '(_this_batch_loss, this_batch_total_loss) := losses in
    let this_epoch_total_running_loss :=
      fadd this_epoch_total_running_loss this_batch_total_loss in
    ret (total_samples, this_epoch_total_running_loss).

Definition valid_one_epoch (dataloader : DataLoader) : M F :=
  trigger_callbacks TrainerEvent.ON_VALID_EPOCH_START []
    [("phase", PyStr TrainerPhase.VALID)] ;;
  emit ModelEval ;;
  emit (Iterate dataloader) ;;
  let* acc := for_fold (enumerate (batches dataloader) 1) (0, fzero) valid_step in
  let '(total_samples, this_epoch_total_running_loss) := acc in
  let* this_epoch_average_loss := truediv this_epoch_total_running_loss total_samples in
  update_metrics "valid_this_epoch_average_loss" this_epoch_average_loss ;;
  trigger_callbacks TrainerEvent.ON_VALID_EPOCH_END []
    [("phase", PyStr TrainerPhase.VALID)] ;;
  ret this_epoch_average_loss.

(** ** fit *)

(** The body of the loop over [range(1, self.max_epochs + 1)]. *)
Definition fit_epoch (train_loader : DataLoader) (valid_loader test_loader : option DataLoader)
  : M unit :=
  modify (λ t, set_epoch_index (epoch_index t + 1) t) ;;
  let* loss := train_one_epoch train_loader in
  modify (set_train_loss (Some loss)) ;;
  match valid_loader with
  | Some dataloader =>
      if loader_truthy valid_loader
      then let* loss := valid_one_epoch dataloader in modify (set_valid_loss (Some loss))
      else ret tt
  | None => ret tt
  end ;;
  match test_loader with
  | Some dataloader =>
      if loader_truthy test_loader
      then let* loss := valid_one_epoch dataloader in modify (set_test_loss (Some loss))
      else ret tt
  | None => ret tt
  end.

Definition fit (train_loader : DataLoader) (valid_loader test_loader : option DataLoader)
  : M State :=
  modify (set_dataloaders (Some train_loader) valid_loader test_loader) ;;
  trigger_callbacks TrainerEvent.ON_FIT_START [] [] ;;
  let* epochs := gets (λ t, max_epochs (cfg t)) in
  for_each (seqZ 1 epochs) (λ _, fit_epoch train_loader valid_loader test_loader) ;;
  trigger_callbacks TrainerEvent.ON_FIT_END [] [] ;;
  gets state.

(** ** What the claims observe *)

(** The handlers a dispatch passes the whole context to, and those it
    calls with the trainer alone. *)
Definition invocation (args : list pyval) (kwargs : kwargs_t) (callback : TrainerCallback)
  : action :=
  if accepts callback kwargs then Invoke callback args kwargs else Invoke callback [] [].

(** Following the spec's words: the part of the keyword context whose
    keys the handler declares. *)
Definition declared_subset (callback : TrainerCallback) (kwargs : kwargs_t) : kwargs_t :=
  filter (λ kv, kv.1 ∈ signature_parameters callback) kwargs.

(** The trainer without its registry: what is left to compare when two
    trainers differ in [callbacks] only. *)
Definition strip (t : Trainer) : Trainer := set_callbacks ∅ t.

(** No callback raises. *)
Definition quiet : Prop :=
  ∀ callback args kwargs t, raised (call callback args kwargs t) = None.

(** Callbacks do not look at the registry. *)
Definition registry_blind : Prop :=
  ∀ callback args kwargs t, call callback args kwargs t = call callback args kwargs (strip t).

(** Callbacks leave the metrics as they are. *)
Definition keeps_metrics : Prop :=
  ∀ callback args kwargs t, metrics_after (call callback args kwargs t) = metrics_dict t.


(** ** Relations every step of a method keeps *)

(** [m] takes every trainer to an [R]-related one, whether it returns or
    raises. *)
Definition preserves (R : relation Trainer) {A} (m : M A) : Prop :=
  ∀ t, R t (m t).1.

(** The attribute read by [f] is left as it was. *)
Definition untouched {X} (f : Trainer → X) : relation Trainer :=
  λ t t', f t' = f t.

(** The integer attribute read by [f] does not decrease. *)
Definition grows (f : Trainer → Z) : relation Trainer :=
  λ t t', f t ≤ f t'.


(** Attributes a dispatch cannot change: everything but the state, the
    best score, the metrics, the trace and the keys of the registry. *)
Definition dispatch_safe (R : relation Trainer) : Prop :=
  (∀ t v, R t (set_trace v t)) ∧ (∀ t v, R t (set_state v t))
  ∧ (∀ t v, R t (set_best_monitored_score v t)) ∧ (∀ t v, R t (set_metrics_dict v t))
  ∧ (∀ t ev, callbacks t !! ev = None → R t (set_callbacks (<[ev := []]> (callbacks t)) t)).


(** Relations that, besides, hold across every assignment of the drivers. *)
Definition fit_safe (R : relation Trainer) : Prop :=
  dispatch_safe R
  ∧ (∀ t, R t (set_batch_index (batch_index t + 1) t))
  ∧ (∀ t, R t (set_epoch_index (epoch_index t + 1) t))
  ∧ (∀ t v, R t (set_train_loss v t)) ∧ (∀ t v, R t (set_valid_loss v t))
  ∧ (∀ t v, R t (set_test_loss v t))
  ∧ (∀ t tr va te, R t (set_dataloaders tr va te t)).

(** ** Dispatch, step by step *)

(** The trainer as a callback finds it, and as it leaves it. *)
Definition shown (callback : TrainerCallback) (args : list pyval) (kwargs : kwargs_t)
    (t : Trainer) : Trainer :=
  logged (Invoke callback args kwargs) t.

Definition written (o : Outcome) (t : Trainer) : Trainer :=
  set_metrics_dict (metrics_after o)
    (set_best_monitored_score (best_after o) (set_state (state_after o) t)).

(** What a dispatch hands to a callback. *)
Definition sent (args : list pyval) (kwargs : kwargs_t) (callback : TrainerCallback)
  : list pyval * kwargs_t :=
  if accepts callback kwargs then (args, kwargs) else ([], []).

(** The trainer as a dispatch has it before the first handler is called:
    the dispatch is logged and the event's list is fetched. *)
Definition dispatched (event : string) (t : Trainer) : Trainer :=
  (callbacks_getitem event (logged (Dispatch event) t)).1.

(** The body of the loop of [trigger_callbacks]. *)
Definition deliver (args : list pyval) (kwargs : kwargs_t) (callback : TrainerCallback)
  : M unit :=
  if accepts callback kwargs then invoke callback args kwargs else invoke callback [] [].


(** The calls a dispatch makes when no callback raises. *)
Definition dispatch_events (event : string) (args : list pyval) (kwargs : kwargs_t)
    (t : Trainer) : list action :=
  Dispatch event :: map (invocation args kwargs) (handlers_for event t).


(** ** Reading a trace *)

(** The outline of a trace: its calls without those that depend on which
    callbacks are registered, on the losses or on the logging cadence. *)
Definition plain (a : action) : bool :=
  match a with
  | Invoke _ _ _ | LossItem _ | GetLastLr | LoggerInfo _ _ _ _ => false
  | _ => true
  end.

Definition outline (evs : list action) : list action := List.filter plain evs.

(** The course of a fit: the dispatches of the fit and epoch events, the
    switches of the model's mode and the loaders iterated. *)
Definition is_marker (a : action) : bool :=
  match a with
  | Dispatch event =>
      bool_decide (event ∈ [TrainerEvent.ON_FIT_START; TrainerEvent.ON_FIT_END;
                            TrainerEvent.ON_TRAIN_EPOCH_START; TrainerEvent.ON_TRAIN_EPOCH_END;
                            TrainerEvent.ON_VALID_EPOCH_START; TrainerEvent.ON_VALID_EPOCH_END])
  | ModelTrain | ModelEval | Iterate _ => true
  | _ => false
  end.

Definition markers (evs : list action) : list action := List.filter is_marker evs.

(** The number of calls of [scheduler.step()]. *)
Definition scheduler_steps (evs : list action) : nat :=
  length (List.filter (λ a, match a with SchedulerStep => true | _ => false end) evs).

(** The losses read and the epochs logged, in order. *)
Definition loss_items (evs : list action) : list F :=
  omap (λ a, match a with LossItem v => Some v | _ => None end) evs.

Definition logged_epochs (evs : list action) : list Z :=
  omap (λ a, match a with LoggerInfo epoch _ _ _ => Some epoch | _ => None end) evs.

(** ** The calls of a run in which no callback raises *)

Definition train_batch_events (t : Trainer) (batch : DatasetYield) (loss : F) : list action :=
  dispatch_events TrainerEvent.ON_TRAIN_BATCH_START [] [] t
  ++ [MoveToDevice batch; Forward; Criterion; ZeroGrad; Backward; LossItem loss]
  ++ (if clip_truthy (clip_grad_norm (cfg t)) then [ClipGradNorm] else [])
  ++ [OptimizerStep]
  ++ (if steps_scheduler_on "batch" t then [SchedulerStep] else [])
  ++ dispatch_events TrainerEvent.ON_TRAIN_BATCH_END [] [] t.

Definition valid_batch_events (t : Trainer) (batch : DatasetYield) (loss : F) : list action :=
  [NoGradEnter]
  ++ dispatch_events TrainerEvent.ON_VALID_BATCH_START [] [] t
  ++ [MoveToDevice batch; Forward; Criterion; LossItem loss]
  ++ dispatch_events TrainerEvent.ON_VALID_BATCH_END [] [] t
  ++ [NoGradExit].

(** The outline of one training batch followed by the rest of the loop
    body, of a training epoch, of an evaluation epoch and of a fit. *)
Definition train_step_outline (t : Trainer) (batch : DatasetYield) : list action :=
  [Dispatch TrainerEvent.ON_TRAIN_BATCH_START; MoveToDevice batch; Forward; Criterion;
   ZeroGrad; Backward]
  ++ (if clip_truthy (clip_grad_norm (cfg t)) then [ClipGradNorm] else [])
  ++ [OptimizerStep]
  ++ (if steps_scheduler_on "batch" t then [SchedulerStep] else [])
  ++ [Dispatch TrainerEvent.ON_TRAIN_BATCH_END]
  ++ (if steps_scheduler_on "epoch" t then [SchedulerStep] else []).

Definition train_epoch_outline (t : Trainer) (dataloader : DataLoader) : list action :=
  [Dispatch TrainerEvent.ON_TRAIN_EPOCH_START; ModelTrain; Iterate dataloader]
  ++ concat (map (train_step_outline t) (batches dataloader))
  ++ [Dispatch TrainerEvent.ON_TRAIN_EPOCH_END].

Definition valid_step_outline (batch : DatasetYield) : list action :=
  [NoGradEnter; Dispatch TrainerEvent.ON_VALID_BATCH_START; MoveToDevice batch; Forward;
   Criterion; Dispatch TrainerEvent.ON_VALID_BATCH_END; NoGradExit].

Definition valid_epoch_outline (dataloader : DataLoader) : list action :=
  [Dispatch TrainerEvent.ON_VALID_EPOCH_START; ModelEval; Iterate dataloader]
  ++ concat (map valid_step_outline (batches dataloader))
  ++ [Dispatch TrainerEvent.ON_VALID_EPOCH_END].

(** ** The weighted average *)

(** Following the spec's words: the sum over the batches of (batch average
    loss × batch size), the sum of the batch sizes, and their quotient.
    The sums run over the batches in order, from 0.0 and 0. *)
Definition total_loss_accumulated (batches : list (F * Z)) : F :=
  fold_left (λ acc '(average_loss, batch_size), fadd acc (fmul_int average_loss batch_size))
    batches fzero.

Definition total_samples (sizes : list Z) : Z := fold_left Z.add sizes 0.

Definition weighted_average (losses : list F) (sizes : list Z) : F :=
  fdiv_int (total_loss_accumulated (zip losses sizes)) (total_samples sizes).

(** The sizes of the batches of a loader. *)
Definition sizes (dataloader : DataLoader) : list Z := map size0 (batches dataloader).

(** The loss accumulated from [acc] on. *)
Definition accumulate (acc : F) (batches : list (F * Z)) : F :=
  fold_left (λ acc '(average_loss, batch_size), fadd acc (fmul_int average_loss batch_size))
    batches acc.

(** What the loop body logs every [log_every_n_steps] batches. *)
Definition progress_events (t : Trainer) (step : Z) (batch : DatasetYield) (loss : F)
  : list action :=
  if step mod log_every_n_steps (cfg t) =? 0
  then (if bool_decide (is_Some (scheduler t)) then [GetLastLr] else [])
       ++ [LoggerInfo (epoch_index t) step (fmul_int loss (size0 batch)) loss]
  else [].

Definition train_step_events (t : Trainer) (step : Z) (batch : DatasetYield) (loss : F)
  : list action :=
  train_batch_events t batch loss
  ++ progress_events t step batch loss
  ++ (if steps_scheduler_on "epoch" t then [SchedulerStep] else []).

(** A run from [t] to [t'] that made the calls [evs] and handled [n]
    training batches, changing nothing else the drivers depend on. *)
Record advanced (t t' : Trainer) (evs : list action) (n : Z) : Prop := {
  adv_trace : trace t' = trace t ++ evs;
  adv_cfg : cfg t' = cfg t;
  adv_scheduler : scheduler t' = scheduler t;
  adv_epoch_index : epoch_index t' = epoch_index t;
  adv_batch_index : batch_index t' = batch_index t + n;
  adv_handlers_for : ∀ event, handlers_for event t' = handlers_for event t;
  adv_losses : (train_loss t', valid_loss t', test_loss t')
               = (train_loss t, valid_loss t, test_loss t);
}.

(** The same across epochs: [k] epochs begun and [n] training batches
    handled. *)
Record fitted (t t' : Trainer) (evs : list action) (k n : Z) : Prop := {
  fit_trace : trace t' = trace t ++ evs;
  fit_cfg : cfg t' = cfg t;
  fit_scheduler : scheduler t' = scheduler t;
  fit_epoch_index : epoch_index t' = epoch_index t + k;
  fit_batch_index : batch_index t' = batch_index t + n;
  fit_handlers_for : ∀ event, handlers_for event t' = handlers_for event t;
}.

(** An optional loader whose evaluation epoch, if [fit] runs one, has
    samples to average over. *)
Definition evaluable (loader : option DataLoader) : Prop :=
  match loader with
  | Some dataloader => batches dataloader ≠ [] → total_samples (sizes dataloader) ≠ 0
  | None => True
  end.

(** The outline of the evaluation pass over an optional loader, of one
    iteration of [fit] and of [fit]. *)
Definition eval_outline (loader : option DataLoader) : list action :=
  match loader with
  | Some dataloader => if loader_truthy loader then valid_epoch_outline dataloader else []
  | None => []
  end.

Definition fit_epoch_outline (t : Trainer) (train_loader : DataLoader)
    (valid_loader test_loader : option DataLoader) : list action :=
  train_epoch_outline t train_loader ++ eval_outline valid_loader ++ eval_outline test_loader.

Definition fit_outline (t : Trainer) (train_loader : DataLoader)
    (valid_loader test_loader : option DataLoader) : list action :=
  [Dispatch TrainerEvent.ON_FIT_START]
  ++ concat (replicate (Z.to_nat (max_epochs (cfg t)))
               (fit_epoch_outline t train_loader valid_loader test_loader))
  ++ [Dispatch TrainerEvent.ON_FIT_END].

(** The markers of one iteration of [fit] with both evaluation loaders. *)
Definition epoch_markers (train_loader valid_loader test_loader : DataLoader) : list action :=
  [Dispatch TrainerEvent.ON_TRAIN_EPOCH_START; ModelTrain; Iterate train_loader;
   Dispatch TrainerEvent.ON_TRAIN_EPOCH_END;
   Dispatch TrainerEvent.ON_VALID_EPOCH_START; ModelEval; Iterate valid_loader;
   Dispatch TrainerEvent.ON_VALID_EPOCH_END;
   Dispatch TrainerEvent.ON_VALID_EPOCH_START; ModelEval; Iterate test_loader;
   Dispatch TrainerEvent.ON_VALID_EPOCH_END].

(** ** More of the trainer *)

(** [self.optimizer.param_groups]: a list of dicts from option names to
    values; [param_group["lr"]] raises [KeyError] in a group without it. *)
Inductive checked (A : Type) : Type :=
  | Value (a : A)
  | KeyError (key : string).
#[global] Arguments Value {A} a.
#[global] Arguments KeyError {A} key.

Definition getitem_lr (param_group : gmap string F) : checked F :=
  match param_group !! "lr" with
  | Some lr => Value lr
  | None => KeyError "lr"
  end.

(** [[param_group["lr"] for param_group in param_groups]]. *)
Fixpoint lrs_of (param_groups : list (gmap string F)) : checked (list F) :=
  match param_groups with
  | [] => Value []
  | param_group :: rest =>
      match getitem_lr param_group with
      | Value lr =>
          match lrs_of rest with
          | Value lrs => Value (lr :: lrs)
          | KeyError key => KeyError key
          end
      | KeyError key => KeyError key
      end
  end.

(** The result is a float for one group and a list of floats otherwise. *)
Definition _get_current_lr_or_lrs (param_groups : list (gmap string F)) : checked (F + list F) :=
  match param_groups with
  | [param_group] =>
      match getitem_lr param_group with
      | Value lr => Value (inl lr)
      | KeyError key => KeyError key
      end
  | _ =>
      match lrs_of param_groups with
      | Value lrs => Value (inr lrs)
      | KeyError key => KeyError key
      end
  end.

(** The number of calls of a trace that satisfy [p]. *)
Definition count_calls (p : action → bool) (evs : list action) : nat :=
  length (List.filter p evs).

Definition is_optimizer_step (a : action) : bool :=
  match a with OptimizerStep => true | _ => false end.

Definition is_clip_grad_norm (a : action) : bool :=
  match a with ClipGradNorm => true | _ => false end.

(** The calls that train: zeroing and computing gradients, clipping them,
    and stepping the optimizer or the scheduler. *)
Definition is_training_call (a : action) : bool :=
  match a with
  | ZeroGrad | Backward | ClipGradNorm | OptimizerStep | SchedulerStep => true
  | _ => false
  end.

(** The steps for which progress was logged, and the number of reads of
    the learning rate. *)
Definition logged_steps (evs : list action) : list Z :=
  omap (λ a, match a with LoggerInfo _ step _ _ => Some step | _ => None end) evs.

Definition is_get_last_lr (a : action) : bool :=
  match a with GetLastLr => true | _ => false end.

(** The calls of the loop of a training epoch, from step [step] on, and
    of the whole epoch, in a run in which no callback raises. *)
Fixpoint train_loop_events (t : Trainer) (step : Z) (bs : list DatasetYield) (losses : list F)
  : list action :=
  match bs, losses with
  | batch :: bs', loss :: losses' =>
      train_step_events t step batch loss ++ train_loop_events t (step + 1) bs' losses'
  | _, _ => []
  end.

Definition train_epoch_events (t : Trainer) (dataloader : DataLoader) (losses : list F)
  : list action :=
  dispatch_events TrainerEvent.ON_TRAIN_EPOCH_START [] [("phase", PyStr TrainerPhase.TRAIN)] t
  ++ [ModelTrain; Iterate dataloader]
  ++ train_loop_events t 1 (batches dataloader) losses
  ++ dispatch_events TrainerEvent.ON_TRAIN_EPOCH_END [] [("phase", PyStr TrainerPhase.TRAIN)] t.

(** The markers of the evaluation pass over an optional loader. *)
Definition eval_markers (loader : option DataLoader) : list action :=
  match loader with
  | Some dataloader =>
      if loader_truthy loader
      then [Dispatch TrainerEvent.ON_VALID_EPOCH_START; ModelEval; Iterate dataloader;
            Dispatch TrainerEvent.ON_VALID_EPOCH_END]
      else []
  | None => []
  end.

End Trainer.

(** * A concrete setting *)

(** IEEE binary64.  An int below 2^63 in magnitude is converted as Python
    converts it; tensor sizes and sample counts stay below. *)
Definition float_of_int (z : Z) : float :=
  if z <? 0 then PrimFloat.opp (of_uint63 (Uint63.of_Z (- z))) else of_uint63 (Uint63.of_Z z).

#[export] Instance binary64 : PyFloat float := {|
  fzero := 0%float;
  fadd := PrimFloat.add;
  fmul_int := λ x n, PrimFloat.mul x (float_of_int n);
  fdiv_int := λ x n, PrimFloat.div x (float_of_int n);
|}.

(** A callback that returns and writes nothing. *)
Definition unchanged {F} (t : @Trainer F) : @Outcome F :=
  {| raised := None; state_after := state t;
     best_after := best_monitored_score t; metrics_after := metrics_dict t |}.

(** Callbacks for the examples.  The two epoch loggers and callback 6
    declare [(trainer, phase)], the others [(trainer)] alone.  The
    callbacks listed in [raising] raise, the others return; none writes.
    The criterion reports the loss [tensors batch] for a batch. *)
Definition demo_parameters (callback : TrainerCallback) : list string :=
  if bool_decide (callback ∈ [log_on_train_epoch_start; log_on_epoch_end; 6%nat])
  then ["trainer"; "phase"]
  else ["trainer"].

Definition demo_world (raising : list TrainerCallback) : @Collaborators float := {|
  signature_parameters := demo_parameters;
  call := λ callback _ _ t,
    if bool_decide (callback ∈ raising)
    then {| raised := Some (Exception callback); state_after := state t;
            best_after := best_monitored_score t; metrics_after := metrics_dict t |}
    else unchanged t;
  loss_item := λ _ batch, float_of_int (Z.of_nat (tensors batch));
|}.

Definition demo_state : State :=
  {| model := 1; parameters := ["torch.float32"]; criterion := 2; optimizer := 3;
     state_scheduler := Some 4%nat; attrs := [] |}.

Definition demo_config (epochs : Z) (granularity : string) : TrainerConfig :=
  {| cfg_device := "cpu"; max_epochs := epochs; log_every_n_steps := 1;
     eval_every_n_steps := 1; step_scheduler_on_batch_or_epoch := granularity;
     clip_grad_norm := None; apply_weight_decay_to_different_param_groups := false;
     save_dir := "checkpoints"; save_every_epoch := false; save_best_only := true;
     mode := "min"; monitor := "valid_this_epoch_average_loss" |}.

(** A trainer as [__init__] leaves it. *)
Definition demo_trainer (epochs : Z) (granularity : string) : @Trainer float :=
  (__init__ demo_state (demo_config epochs granularity) None).1.

(** [sizes] and [losses] of the batches of a loader, as (size, loss) pairs. *)
Definition demo_loader (ident : nat) (batches : list (Z * nat)) : DataLoader :=
  {| loader_id := ident;
     batches := map (λ '(size, loss), {| tensors := loss; size0 := size |}) batches |}.

(** Two settings: one where no callback raises, one where callback 7 does. *)
Definition calm : @Collaborators float := demo_world [].
Definition stormy : @Collaborators float := demo_world [7%nat].

(** A trainer with the callbacks 6, 7 and 8 registered, in this order,
    for an event of its own. *)
Definition demo_three : @Trainer float :=
  (add_callback "x" 8%nat (add_callback "x" 7%nat
     (add_callback "x" 6%nat (demo_trainer 1 "batch")).1).1).1.

(** A context with a keyword that callback 6 declares and one it does not. *)
Definition demo_context : kwargs_t := [("phase", PyStr "train"); ("epoch", PyInt 1)].

(** The loaders of the examples: three training batches of four samples
    with losses 1.0, 2.0 and 3.0, one validation batch of two samples with
    loss 5.0, one test batch of three samples with loss 7.0, and a loader
    that yields nothing. *)
Definition demo_train : DataLoader := demo_loader 1 [(4, 1%nat); (4, 2%nat); (4, 3%nat)].
Definition demo_valid : DataLoader := demo_loader 2 [(2, 5%nat)].
Definition demo_test : DataLoader := demo_loader 3 [(3, 7%nat)].
Definition demo_empty : DataLoader := demo_loader 4 [].

(** A one-epoch configuration that clips gradients and logs every
    [every] steps, and a trainer with it. *)
Definition demo_config_every (every : Z) : TrainerConfig :=
  {| cfg_device := "cpu"; max_epochs := 1; log_every_n_steps := every;
     eval_every_n_steps := 1; step_scheduler_on_batch_or_epoch := "batch";
     clip_grad_norm := Some [("max_norm", PyInt 1)];
     apply_weight_decay_to_different_param_groups := false;
     save_dir := "checkpoints"; save_every_epoch := false; save_best_only := true;
     mode := "min"; monitor := "valid_this_epoch_average_loss" |}.

Definition demo_trainer_every (every : Z) : @Trainer float :=
  (__init__ demo_state (demo_config_every every) None).1.

(** * vocabulary.py *)

(** ** Strings and dicts *)

(** A [str] is the list of its code points.  Its characters, as a [for]
    over it yields them, are the strings of one code point.  A [str] that
    is ASCII is written as a literal, whose code points are its bytes. *)
Definition str : Type := list N.

Definition literal (s : string) : str := Ascii.N_of_ascii <$> String.list_ascii_of_string s.

Definition chars (s : str) : list str := map (λ c, [c]) s.

(** ["".join(l)]. *)
Definition join (l : list str) : str := concat l.

(** [[f(x) for x in l]] where [f] may raise. *)
Fixpoint comprehension {A B} (f : A → checked B) (l : list A) : checked (list B) :=
  match l with
  | [] => Value []
  | x :: l' =>
      match f x with
      | Value y =>
          match comprehension f l' with
          | Value ys => Value (y :: ys)
          | KeyError key => KeyError key
          end
      | KeyError key => KeyError key
      end
  end.

(** [d.items()].  The order in which a dict yields its items is not
    modelled; what is built from the items below does not depend on it. *)
Definition items {K V} `{Countable K} (d : gmap K V) : list (K * V) := map_to_list d.

(** [{token: idx for idx, token in pairs}] and [{idx: token for token, idx
    in pairs}]: a later pair replaces an earlier one with the same key. *)
Definition index_tokens (pairs : list (Z * str)) : gmap str Z :=
  fold_left (λ d '(idx, token), <[token := idx]> d) pairs ∅.

Definition invert (pairs : list (str * Z)) : gmap Z str :=
  fold_left (λ d '(token, idx), <[idx := token]> d) pairs ∅.

(** [s.startswith(p)]. *)
Fixpoint starts_with (p s : str) : bool :=
  match p, s with
  | [], _ => true
  | _ :: _, [] => false
  | c :: p', d :: s' => (c =? d)%N && starts_with p' s'
  end.

(** [re.sub(p1|...|pn, "", s)] for literal alternatives, none of them
    empty: going through [s] from the left, the first alternative that
    matches at a position is dropped and the search goes on after it; a
    character at which none matches is kept.  [skip] counts the characters
    of a match that are still to drop. *)
Fixpoint re_sub_literals (patterns : list str) (skip : nat) (s : str) : str :=
  match s with
  | [] => []
  | c :: s' =>
      match skip with
      | S n => re_sub_literals patterns n s'
      | O =>
          match List.find (λ p, starts_with p s) patterns with
          | Some p => re_sub_literals patterns (Nat.pred (length p)) s'
          | None => c :: re_sub_literals patterns 0 s'
          end
      end
  end.

(** ** Vocabulary *)

Record Vocabulary : Type := {
  token_to_index : gmap str Z;
  index_to_token : gmap Z str;
  num_digits : Z;
}.

Definition from_tokens (tokens : list str) (num_digits : Z) : Vocabulary :=
  let token_to_index := index_tokens (enumerate tokens 0) in
  let index_to_token := invert (items token_to_index) in
  {| token_to_index := token_to_index; index_to_token := index_to_token;
     num_digits := num_digits |}.

(** ** AdderVocabulary *)

Module AdderVocabulary.

Definition BOS : str := literal "<BOS>".
Definition EOS : str := literal "<EOS>".
Definition PAD : str := literal "<PAD>".
Definition UNK : str := literal "<UNK>".
Definition ADD : str := literal "+".
Definition EQUAL : str := literal "=".
Definition TOKENS : list str :=
  literal <$> ["0"; "1"; "2"; "3"; "4"; "5"; "6"; "7"; "8"; "9"; "+"; "*"; "-"; "=";
               "<BOS>"; "<EOS>"; "<PAD>"; "<UNK>"].

Definition tokenize (sequence : str) (add_special_tokens : bool) : list str :=
  let tokens := chars sequence in
  if add_special_tokens then [BOS] ++ tokens ++ [EOS] else tokens.

(** The default of [get], [self.token_to_index[UNK]], is evaluated for
    every token, before the token is looked up; the [KeyError] names the
    key ["<UNK>"]. *)
Definition encode (self : Vocabulary) (sequence : str) (add_special_tokens : bool)
  : checked (list Z) :=
  let tokens := tokenize sequence add_special_tokens in
  comprehension
    (λ token,
       match token_to_index self !! UNK with
       | Some unk => Value (default unk (token_to_index self !! token))
       | None => KeyError "<UNK>"
       end)
    tokens.

Definition encode_batch (self : Vocabulary) (sequences : list str)
    (add_special_tokens : bool) : checked (list (list Z)) :=
  comprehension (λ sequence, encode self sequence add_special_tokens) sequences.

Definition decode (self : Vocabulary) (encoded_sequence : list Z)
    (remove_special_tokens : bool) : str :=
  let decoded :=
    join (map (λ char, default UNK (index_to_token self !! char)) encoded_sequence) in
  if remove_special_tokens
  then re_sub_literals [BOS; EOS; PAD; UNK] 0 decoded
  else decoded.

Definition decode_batch (self : Vocabulary) (encoded_sequences : list (list Z))
    (remove_special_tokens : bool) : list str :=
  map (λ encoded_sequence, decode self encoded_sequence remove_special_tokens)
    encoded_sequences.

Definition __len__ (self : Vocabulary) : Z := Z.of_nat (size (token_to_index self)).

Definition vocab_size (self : Vocabulary) : Z := __len__ self.

End AdderVocabulary.

(** The alternatives of the pattern of [decode]. *)
Definition specials : list str :=
  [AdderVocabulary.BOS; AdderVocabulary.EOS; AdderVocabulary.PAD; AdderVocabulary.UNK].

(** What a token is decoded to after it was encoded: itself, or
    ["<UNK>"] when the vocabulary was made from [tokens] and does not have
    it. *)
Definition piece (tokens : list str) (token : str) : str :=
  if decide (token ∈ tokens) then token else AdderVocabulary.UNK.

(** ** TextCharacterVocabulary *)

(** [sorted(set(corpus))]: the distinct characters of the corpus, by code
    point. *)
Definition sorted_set (corpus : str) : list str :=
  (λ c, [c]) <$> merge_sort N.le (remove_dups corpus).

Module TextCharacterVocabulary.

Record TextCharacterVocabulary : Type := {
  token_to_index : gmap str Z;
  index_to_token : gmap Z str;
}.

Definition from_corpus (corpus : str) : TextCharacterVocabulary :=
  let vocabulary := sorted_set corpus in
  let token_to_index := index_tokens (enumerate vocabulary 0) in
  let index_to_token := invert (items token_to_index) in
  {| token_to_index := token_to_index; index_to_token := index_to_token |}.

Definition __len__ (self : TextCharacterVocabulary) : Z :=
  Z.of_nat (size (token_to_index self)).

Definition vocab_size (self : TextCharacterVocabulary) : Z := __len__ self.

End TextCharacterVocabulary.

(** A vocabulary without ["<UNK>"], and the vocabulary of the adder. *)
Definition demo_digits : Vocabulary := from_tokens [literal "0"; literal "1"] 2.
Definition demo_adder : Vocabulary := from_tokens AdderVocabulary.TOKENS 2.

(** A sequence with two characters the adder does not have, [é] (code
    point 233) and the euro sign (code point 8364). *)
Definition demo_sequence : str := literal "1" ++ [233%N; 8364%N] ++ literal "+2=3".

(** * Facts *)

Section TrainerFacts.
Context {F : Type} {fops : PyFloat F} {world : @Collaborators F}.

Local Abbreviation Trainer := (@Trainer F).
Local Abbreviation M := (@M F).
Local Abbreviation action := (@action F).
Local Abbreviation state := (@state F).
Local Abbreviation cfg := (@cfg F).
Local Abbreviation scheduler := (@scheduler F).
Local Abbreviation metrics_dict := (@metrics_dict F).
Local Abbreviation epoch_index := (@epoch_index F).
Local Abbreviation batch_index := (@batch_index F).
Local Abbreviation callbacks := (@callbacks F).
Local Abbreviation train_loss := (@train_loss F).
Local Abbreviation valid_loss := (@valid_loss F).
Local Abbreviation test_loss := (@test_loss F).
Local Abbreviation trace := (@trace F).
Local Abbreviation handlers_for := (@handlers_for F).
Local Abbreviation valid_step_outline := (@valid_step_outline F).
Local Abbreviation valid_epoch_outline := (@valid_epoch_outline F).
Local Abbreviation eval_outline := (@eval_outline F).
Local Abbreviation epoch_markers := (@epoch_markers F).
Implicit Types (t : Trainer) (R : relation Trainer) (o : @Outcome F) (evs : list action).

(** ** Monad facts *)

Lemma bind_Ok {A B} (m : M A) (k : A → M B) t t1 a :
  m t = (t1, Ok a) → bind m k t = k a t1.
Proof. intros H. unfold bind. by rewrite H. Qed.

Lemma bind_Raise {A B} (m : M A) (k : A → M B) t t1 e :
  m t = (t1, Raise e) → bind m k t = (t1, Raise e).
Proof. intros H. unfold bind. by rewrite H. Qed.

Lemma bind_emit {B} a (k : unit → M B) t : bind (emit a) k t = k tt (logged a t).
Proof. done. Qed.

Lemma bind_gets {A B} (f : Trainer → A) (k : A → M B) t : bind (gets f) k t = k (f t) t.
Proof. done. Qed.

Lemma bind_modify {B} f (k : unit → M B) t : bind (modify f) k t = k tt (f t).
Proof. done. Qed.

Lemma bind_ret {A B} (a : A) (k : A → M B) t : bind (ret a) k t = k a t.
Proof. done. Qed.

Lemma bind_raise {A B} e (k : A → M B) t : bind (raise e) k t = (t, Raise e).
Proof. done. Qed.

Lemma bind_bind {A B C} (m : M A) (f : A → M B) (g : B → M C) t :
  bind (bind m f) g t = bind m (λ a, bind (f a) g) t.
Proof. unfold bind. by destruct (m t) as [t1 [a|e]]. Qed.

Lemma bind_inv_Ok {A B} (m : M A) (k : A → M B) t t2 b :
  bind m k t = (t2, Ok b) → ∃ t1 a, m t = (t1, Ok a) ∧ k a t1 = (t2, Ok b).
Proof.
  unfold bind. destruct (m t) as [t1 [a|e]]; [eauto | discriminate].
Qed.

(** ** The registry *)

Lemma handlers_for_getitem event t :
  ∃ t', callbacks_getitem event t = (t', Ok (handlers_for event t))
        ∧ strip t' = strip t
        ∧ callbacks t' !! event = Some (handlers_for event t)
        ∧ ∀ ev, handlers_for ev t' = handlers_for ev t.
Proof.
  unfold callbacks_getitem, handlers_for.
  destruct (callbacks t !! event) as [l|] eqn:E; simpl.
  - exists t. by rewrite E.
  - eexists. split; [done|]. split; [done|]. simpl. split.
    + by rewrite lookup_insert_eq.
    + intros ev. destruct (decide (event = ev)) as [->|Hne].
      * by rewrite lookup_insert_eq, E.
      * by rewrite lookup_insert_ne.
Qed.

Lemma list_remove_None x l : list_remove x l = None ↔ x ∉ l.
Proof.
  induction l as [|y l IH]; simpl.
  - split; [intros _; apply not_elem_of_nil | done].
  - destruct (decide (y = x)) as [->|Hne].
    + split; [done | intros H; destruct H; left].
    + rewrite not_elem_of_cons. destruct (list_remove x l); simpl.
      * split; [done | intros [_ H]; by apply IH in H].
      * split; [intros _; split; [congruence | by apply IH] | done].
Qed.

#[local] Instance untouched_preorder {X} (f : Trainer → X) : PreOrder (untouched f).
Proof. split; unfold untouched; [by intros t | intros t1 t2 t3; congruence]. Qed.

#[local] Instance grows_preorder (f : Trainer → Z) : PreOrder (grows f).
Proof. split; unfold grows; [intros t; lia | intros t1 t2 t3; lia]. Qed.

Section Preserves.
Context (R : relation Trainer) `{!PreOrder R}.

Lemma preserves_ret {A} (a : A) : preserves R (ret a).
Proof. intros t. simpl. reflexivity. Qed.

Lemma preserves_raise {A} e : preserves R (raise (A:=A) e).
Proof. intros t. simpl. reflexivity. Qed.

Lemma preserves_gets {A} (f : Trainer → A) : preserves R (gets f).
Proof. intros t. simpl. reflexivity. Qed.

Lemma preserves_modify f : (∀ t, R t (f t)) → preserves R (modify f).
Proof. intros H t. apply H. Qed.

Lemma preserves_bind {A B} (m : M A) (k : A → M B) :
  preserves R m → (∀ a, preserves R (k a)) → preserves R (bind m k).
Proof.
  intros Hm Hk t. unfold bind. specialize (Hm t).
  destruct (m t) as [t1 [a|e]]; simpl in *; [|done].
  etrans; [exact Hm | apply Hk].
Qed.

Lemma preserves_for_each {A} (l : list A) body :
  (∀ x, preserves R (body x)) → preserves R (for_each l body).
Proof.
  intros Hb. induction l as [|x l IH]; simpl.
  - apply preserves_ret.
  - apply preserves_bind; [apply Hb | intros _; exact IH].
Qed.

Lemma preserves_for_fold {A S} (l : list A) (s : S) body :
  (∀ s x, preserves R (body s x)) → preserves R (for_fold l s body).
Proof.
  intros Hb. revert s. induction l as [|x l IH]; intros s; simpl.
  - apply preserves_ret.
  - apply preserves_bind; [apply Hb | intros s'; apply IH].
Qed.

Lemma preserves_no_grad {A} (m : M A) :
  (∀ a t, R t (logged a t)) → preserves R m → preserves R (no_grad m).
Proof.
  intros Hlog Hm t. unfold no_grad.
  specialize (Hm (logged NoGradEnter t)).
  destruct (m _) as [t1 r]; simpl in *.
  etrans; [apply Hlog|]. etrans; [exact Hm | apply Hlog].
Qed.
End Preserves.

Lemma preserves_emit R `{!PreOrder R} a : dispatch_safe R → preserves R (emit a).
Proof. intros (H & _) t. apply H. Qed.

Lemma preserves_callbacks_getitem R `{!PreOrder R} event :
  dispatch_safe R → preserves R (callbacks_getitem event).
Proof.
  intros (_ & _ & _ & _ & H) t. unfold callbacks_getitem.
  destruct (callbacks t !! event) eqn:E; simpl; [reflexivity | by apply H].
Qed.

Lemma preserves_invoke R `{!PreOrder R} callback args kwargs :
  dispatch_safe R → preserves R (invoke callback args kwargs).
Proof.
  intros HR. pose proof HR as (Ht & Hs & Hb & Hm & _). unfold invoke.
  apply preserves_bind; [done | by apply preserves_emit | intros _].
  apply preserves_bind; [done | by apply preserves_gets | intros o].
  apply preserves_bind; [done | | intros _].
  - apply preserves_modify. intros t.
    etrans; [apply Hs|]. etrans; [apply Hb|]. apply Hm.
  - destruct (raised o); [by apply preserves_raise | by apply preserves_ret].
Qed.

Lemma preserves_trigger_callbacks R `{!PreOrder R} event args kwargs :
  dispatch_safe R → preserves R (trigger_callbacks event args kwargs).
Proof.
  intros HR. unfold trigger_callbacks.
  apply preserves_bind; [done | by apply preserves_emit | intros _].
  apply preserves_bind; [done | by apply preserves_callbacks_getitem | intros l].
  apply preserves_for_each; [done | intros callback].
  destruct (accepts callback kwargs); by apply preserves_invoke.
Qed.

Lemma dispatch_safe_untouched {X} (f : Trainer → X) :
  (∀ t v, f (set_trace v t) = f t) → (∀ t v, f (set_state v t) = f t) →
  (∀ t v, f (set_best_monitored_score v t) = f t) → (∀ t v, f (set_metrics_dict v t) = f t) →
  (∀ t ev, callbacks t !! ev = None → f (set_callbacks (<[ev := []]> (callbacks t)) t) = f t) →
  dispatch_safe (untouched f).
Proof. unfold dispatch_safe, untouched. naive_solver. Qed.

Lemma handlers_for_insert_nil ev event t :
  callbacks t !! event = None →
  handlers_for ev (set_callbacks (<[event := []]> (callbacks t)) t) = handlers_for ev t.
Proof.
  intros E. unfold handlers_for. simpl.
  destruct (decide (event = ev)) as [->|Hne].
  - by rewrite lookup_insert_eq, E.
  - by rewrite lookup_insert_ne.
Qed.

Lemma dispatch_safe_batch_index : dispatch_safe (untouched batch_index).
Proof. by apply dispatch_safe_untouched. Qed.
Lemma dispatch_safe_epoch_index : dispatch_safe (untouched epoch_index).
Proof. by apply dispatch_safe_untouched. Qed.
Lemma dispatch_safe_cfg : dispatch_safe (untouched cfg).
Proof. by apply dispatch_safe_untouched. Qed.
Lemma dispatch_safe_scheduler : dispatch_safe (untouched scheduler).
Proof. by apply dispatch_safe_untouched. Qed.
Lemma dispatch_safe_handlers_for ev : dispatch_safe (untouched (handlers_for ev)).
Proof.
  apply dispatch_safe_untouched; try done.
  intros t event E. by apply handlers_for_insert_nil.
Qed.
Lemma dispatch_safe_losses :
  dispatch_safe (untouched (λ t, (train_loss t, valid_loss t, test_loss t))).
Proof. by apply dispatch_safe_untouched. Qed.

Lemma invoke_run callback args kwargs t :
  invoke callback args kwargs t =
    (written (call callback args kwargs (shown callback args kwargs t))
       (shown callback args kwargs t),
     match raised (call callback args kwargs (shown callback args kwargs t)) with
     | Some e => Raise e
     | None => Ok tt
     end).
Proof.
  unfold invoke, bind, emit, modify, gets, shown, written. simpl.
  by destruct (raised _).
Qed.

Lemma deliver_run args kwargs callback t :
  deliver args kwargs callback t =
    invoke callback (sent args kwargs callback).1 (sent args kwargs callback).2 t.
Proof. unfold deliver, sent. by destruct (accepts callback kwargs). Qed.

Lemma invocation_sent args kwargs callback :
  invocation args kwargs callback =
    Invoke callback (sent args kwargs callback).1 (sent args kwargs callback).2.
Proof. unfold invocation, sent. by destruct (accepts callback kwargs). Qed.

Lemma trigger_callbacks_run event args kwargs t :
  ∃ t0, strip t0 = strip (logged (Dispatch event) t)
        ∧ (∀ ev, handlers_for ev t0 = handlers_for ev t)
        ∧ trigger_callbacks event args kwargs t
          = for_each (handlers_for event t) (deliver args kwargs) t0.
Proof.
  unfold trigger_callbacks.
  destruct (handlers_for_getitem event (logged (Dispatch event) t))
    as (t0 & Hget & Hstrip & _ & Hh).
  exists t0. split; [exact Hstrip|]. split; [exact Hh|].
  rewrite (bind_Ok _ _ t (logged (Dispatch event) t) tt) by done.
  by rewrite (bind_Ok _ _ _ _ _ Hget).
Qed.

Lemma strip_trace t1 t2 : strip t1 = strip t2 → trace t1 = trace t2.
Proof. intros H. by apply (f_equal trace) in H. Qed.

Lemma strip_metrics_dict t1 t2 : strip t1 = strip t2 → metrics_dict t1 = metrics_dict t2.
Proof. intros H. by apply (f_equal metrics_dict) in H. Qed.

(** The loop goes through the handlers in order and stops at the first
    that raises. *)
Lemma deliver_loop args kwargs hs t :
  ∃ done rest,
    hs = done ++ rest
    ∧ trace (for_each hs (deliver args kwargs) t).1
      = trace t ++ map (invocation args kwargs) done
    ∧ match (for_each hs (deliver args kwargs) t).2 with
      | Ok _ => rest = []
      | Raise e =>
          ∃ pre callback s,
            done = pre ++ [callback]
            ∧ trace s = trace t ++ map (invocation args kwargs) done
            ∧ raised (call callback (sent args kwargs callback).1
                        (sent args kwargs callback).2 s) = Some e
      end.
Proof.
  revert t. induction hs as [|h hs IH]; intros t.
  - exists [], []. simpl. by rewrite app_nil_r.
  - simpl. unfold bind. rewrite deliver_run, invoke_run.
    set (s := shown h _ _ t).
    destruct (raised (call h _ _ s)) as [e|] eqn:Hr.
    + exists [h], hs. simpl. split; [done|]. rewrite invocation_sent. split; [done|].
      exists [], h, s. by subst s.
    + destruct (IH (written (call h (sent args kwargs h).1 (sent args kwargs h).2 s) s))
        as (done & rest & -> & Htr & Hres).
      exists (h :: done), rest. split; [done|].
      assert (Hs : trace (written (call h (sent args kwargs h).1 (sent args kwargs h).2 s) s)
                   = trace t ++ [invocation args kwargs h]).
      { subst s. simpl. by rewrite invocation_sent. }
      rewrite Hs in Htr. split.
      * rewrite Htr. simpl. by rewrite <- app_assoc.
      * destruct (for_each _ _ _).2 as [u|e]; [done|].
        destruct Hres as (pre & callback & s' & -> & Hs' & Hraise).
        exists (h :: pre), callback, s'. split; [done|]. split; [|done].
        rewrite Hs', Hs. simpl. by rewrite <- app_assoc.
Qed.

(** Under [quiet] the loop runs to its end. *)
Lemma deliver_loop_quiet args kwargs hs t :
  quiet →
  ∃ t', for_each hs (deliver args kwargs) t = (t', Ok tt)
        ∧ trace t' = trace t ++ map (invocation args kwargs) hs
        ∧ (keeps_metrics → metrics_dict t' = metrics_dict t).
Proof.
  intros Hq. revert t. induction hs as [|h hs IH]; intros t.
  - exists t. simpl. by rewrite app_nil_r.
  - simpl. unfold bind. rewrite deliver_run, invoke_run, Hq.
    destruct (IH (written (call h (sent args kwargs h).1 (sent args kwargs h).2
                             (shown h (sent args kwargs h).1 (sent args kwargs h).2 t))
                    (shown h (sent args kwargs h).1 (sent args kwargs h).2 t)))
      as (t' & -> & Htr & Hm).
    exists t'. split; [done|]. split.
    + rewrite Htr. simpl. rewrite invocation_sent. by rewrite <- app_assoc.
    + intros Hk. rewrite (Hm Hk). simpl. by rewrite Hk.
Qed.

Lemma trigger_callbacks_quiet event args kwargs t :
  quiet →
  ∃ t', trigger_callbacks event args kwargs t = (t', Ok tt)
        ∧ trace t' = trace t ++ dispatch_events event args kwargs t
        ∧ (keeps_metrics → metrics_dict t' = metrics_dict t).
Proof.
  intros Hq.
  destruct (trigger_callbacks_run event args kwargs t) as (t0 & Hstrip & _ & ->).
  destruct (deliver_loop_quiet args kwargs (handlers_for event t) t0 Hq)
    as (t' & -> & Htr & Hm).
  exists t'. split; [done|]. split.
  - rewrite Htr, (strip_trace _ _ Hstrip). simpl. by rewrite <- app_assoc.
  - intros Hk. by rewrite (Hm Hk), (strip_metrics_dict _ _ Hstrip).
Qed.

(** Two trainers that differ in their registries only are treated alike
    by callbacks that do not look at the registry. *)
Lemma deliver_loop_strip args kwargs hs t1 t2 :
  registry_blind → strip t1 = strip t2 →
  (for_each hs (deliver args kwargs) t1).2 = (for_each hs (deliver args kwargs) t2).2
  ∧ strip (for_each hs (deliver args kwargs) t1).1
    = strip (for_each hs (deliver args kwargs) t2).1.
Proof.
  intros Hb. revert t1 t2. induction hs as [|h hs IH]; intros t1 t2 Hs; [done|].
  simpl. unfold bind. rewrite !deliver_run, !invoke_run.
  set (a := (sent args kwargs h).1). set (k := (sent args kwargs h).2).
  assert (Hshown : strip (shown h a k t1) = strip (shown h a k t2)).
  { change (shown h a k (strip t1) = shown h a k (strip t2)). by rewrite Hs. }
  assert (Hcall : call h a k (shown h a k t1) = call h a k (shown h a k t2)).
  { by rewrite (Hb h a k (shown h a k t1)), (Hb h a k (shown h a k t2)), Hshown. }
  rewrite Hcall. set (o := call h a k (shown h a k t2)).
  assert (Hw : strip (written o (shown h a k t1)) = strip (written o (shown h a k t2))).
  { change (written o (strip (shown h a k t1)) = written o (strip (shown h a k t2))).
    by rewrite Hshown. }
  destruct (raised o); [done|]. by apply IH.
Qed.

Lemma trigger_callbacks_strip event args kwargs t1 t2 :
  registry_blind → strip t1 = strip t2 →
  handlers_for event t1 = handlers_for event t2 →
  (trigger_callbacks event args kwargs t1).2 = (trigger_callbacks event args kwargs t2).2
  ∧ strip (trigger_callbacks event args kwargs t1).1
    = strip (trigger_callbacks event args kwargs t2).1.
Proof.
  intros Hb Hs Hh.
  destruct (trigger_callbacks_run event args kwargs t1) as (s1 & Hs1 & _ & ->).
  destruct (trigger_callbacks_run event args kwargs t2) as (s2 & Hs2 & _ & ->).
  rewrite Hh. apply deliver_loop_strip; [done|].
  rewrite Hs1, Hs2.
  change (logged (Dispatch event) (strip t1) = logged (Dispatch event) (strip t2)).
  by rewrite Hs.
Qed.

(** ** The loop of a dispatch, handler by handler *)

Lemma trigger_callbacks_dispatched event args kwargs t :
  trigger_callbacks event args kwargs t
  = for_each (handlers_for event t) (deliver args kwargs) (dispatched event t)
  ∧ trace (dispatched event t) = trace t ++ [Dispatch event].
Proof.
  unfold trigger_callbacks, dispatched.
  destruct (handlers_for_getitem event (logged (Dispatch event) t))
    as (t0 & Hget & Hstrip & _ & _).
  rewrite (bind_Ok _ _ t (logged (Dispatch event) t) tt) by done.
  rewrite (bind_Ok _ _ _ _ _ Hget), Hget. split; [done|].
  by apply strip_trace in Hstrip.
Qed.

Lemma for_each_app {A} (l1 l2 : list A) (body : A → M unit) t :
  for_each (l1 ++ l2) body t
  = match for_each l1 body t with
    | (s, Ok _) => for_each l2 body s
    | (s, Raise e) => (s, Raise e)
    end.
Proof.
  revert t. induction l1 as [|x l1 IH]; intros t; [done|]. simpl. unfold bind.
  destruct (body x t) as [t1 [[]|e]]; [apply IH | done].
Qed.

Lemma deliver_step args kwargs callback (rest : list TrainerCallback) t :
  for_each (callback :: rest) (deliver args kwargs) t
  = let found := shown callback (sent args kwargs callback).1 (sent args kwargs callback).2 t in
    let o := call callback (sent args kwargs callback).1 (sent args kwargs callback).2 found in
    match raised o with
    | Some e => (written o found, Raise e)
    | None => for_each rest (deliver args kwargs) (written o found)
    end.
Proof.
  simpl. unfold bind. rewrite deliver_run, invoke_run. by destruct (raised _).
Qed.

(** Handlers that have all returned have all been called. *)
Lemma deliver_loop_returned args kwargs hs t s :
  for_each hs (deliver args kwargs) t = (s, Ok tt) →
  trace s = trace t ++ map (invocation args kwargs) hs.
Proof.
  intros H. destruct (deliver_loop args kwargs hs t) as (done & rest & -> & Htr & Hres).
  rewrite H in Htr, Hres. simpl in Htr, Hres. subst rest. by rewrite app_nil_r.
Qed.

(** The first handler that raises ends the loop; when the loop returns,
    no handler has raised. *)
Lemma deliver_loop_fail_fast args kwargs hs :
  ∀ t,
    match (for_each hs (deliver args kwargs) t).2 with
    | Ok _ =>
        ∀ pre callback post, hs = pre ++ callback :: post →
          ∃ s, for_each pre (deliver args kwargs) t = (s, Ok tt)
               ∧ raised (call callback (sent args kwargs callback).1
                           (sent args kwargs callback).2
                           (shown callback (sent args kwargs callback).1
                              (sent args kwargs callback).2 s)) = None
    | Raise e =>
        ∃ pre callback post s,
          hs = pre ++ callback :: post
          ∧ for_each pre (deliver args kwargs) t = (s, Ok tt)
          ∧ raised (call callback (sent args kwargs callback).1
                      (sent args kwargs callback).2
                      (shown callback (sent args kwargs callback).1
                         (sent args kwargs callback).2 s)) = Some e
          ∧ for_each hs (deliver args kwargs) t
            = (written (call callback (sent args kwargs callback).1
                          (sent args kwargs callback).2
                          (shown callback (sent args kwargs callback).1
                             (sent args kwargs callback).2 s))
                 (shown callback (sent args kwargs callback).1
                    (sent args kwargs callback).2 s),
               Raise e)
    end.
Proof.
  induction hs as [|h hs IH]; intros t.
  - simpl. intros [|x pre] callback post H; discriminate H.
  - rewrite deliver_step. cbv zeta.
    set (found := shown h _ _ t).
    destruct (raised (call h _ _ found)) as [e|] eqn:Hr.
    + simpl. exists [], h, hs, t. split; [done|]. split; [done|]. by split.
    + specialize (IH (written (call h (sent args kwargs h).1 (sent args kwargs h).2 found)
                        found)).
      destruct (for_each hs _ _) as [t' [[]|e]] eqn:Hrun; simpl in IH |- *.
      * intros [|x pre] callback post Hsplit.
        -- injection Hsplit as <- <-. by exists t.
        -- injection Hsplit as <- ->. destruct (IH pre callback post eq_refl) as (s & Hs & Hnone).
           exists s. split; [|exact Hnone]. rewrite deliver_step. cbv zeta. fold found.
           by rewrite Hr.
      * destruct IH as (pre & callback & post & s & -> & Hs & Hsome & Hfinal).
        exists (h :: pre), callback, post, s. split; [done|]. split; [|split; [exact Hsome|]].
        -- rewrite deliver_step. cbv zeta. fold found. by rewrite Hr.
        -- by rewrite <- Hfinal.
Qed.

(** ** The claims about the registry *)

Lemma add_callback_run event callback t :
  ∃ t', add_callback event callback t = (t', Ok tt)
        ∧ handlers_for event t' = handlers_for event t ++ [callback]
        ∧ ∀ ev, ev ≠ event → handlers_for ev t' = handlers_for ev t.
Proof.
  unfold add_callback.
  destruct (handlers_for_getitem event t) as (t0 & Hget & _ & _ & Hh).
  rewrite (bind_Ok _ _ _ _ _ Hget). eexists. split; [reflexivity|]. split.
  - unfold handlers_for at 1. simpl. by rewrite lookup_insert_eq.
  - intros ev Hne. rewrite <- (Hh ev). unfold handlers_for. simpl.
    by rewrite lookup_insert_ne by congruence.
Qed.

Lemma set_callback_run event callback t :
  ∃ t', set_callback event callback t = (t', Ok tt)
        ∧ handlers_for event t' = [callback]
        ∧ ∀ ev, ev ≠ event → handlers_for ev t' = handlers_for ev t.
Proof.
  eexists. split; [reflexivity|]. split.
  - unfold handlers_for. simpl. by rewrite lookup_insert_eq.
  - intros ev Hne. unfold handlers_for. simpl.
    by rewrite lookup_insert_ne by congruence.
Qed.

(** C3.  Removing a callback that is not registered for the event raises
    [ValueError] (the spec's NotFoundError).  Afterwards every event has the
    handlers it had, in the same order, and nothing but the registry's keys
    differs; callbacks that do not look at the registry are dispatched to
    exactly as before the failed removal, for every event and context. *)
Theorem remove_callback_absent event callback t :
  callback ∉ handlers_for event t →
  ∃ t', remove_callback event callback t = (t', Raise ValueError)
        ∧ (∀ ev, handlers_for ev t' = handlers_for ev t)
        ∧ strip t' = strip t
        ∧ (registry_blind → ∀ ev args kwargs,
             (trigger_callbacks ev args kwargs t').2 = (trigger_callbacks ev args kwargs t).2
             ∧ strip (trigger_callbacks ev args kwargs t').1
               = strip (trigger_callbacks ev args kwargs t).1).
Proof.
  intros Habsent. unfold remove_callback.
  destruct (handlers_for_getitem event t) as (t' & Hget & Hstrip & _ & Hh).
  exists t'. rewrite (bind_Ok _ _ _ _ _ Hget).
  apply list_remove_None in Habsent. rewrite Habsent.
  split; [done|]. split; [exact Hh|]. split; [exact Hstrip|].
  intros Hblind ev args kwargs. by apply trigger_callbacks_strip.
Qed.

Lemma trace_after_call args kwargs callback s :
  trace (written (call callback (sent args kwargs callback).1 (sent args kwargs callback).2
                    (shown callback (sent args kwargs callback).1
                       (sent args kwargs callback).2 s))
           (shown callback (sent args kwargs callback).1 (sent args kwargs callback).2 s))
  = trace s ++ [invocation args kwargs callback].
Proof. simpl. by rewrite invocation_sent. Qed.

(** C7.  A handler added to an event goes to the end of the event's list.
    A dispatch calls the event's handlers one after the other in that
    order: the calls it makes are those to an initial segment [done] of the
    list.  When the dispatch returns, the segment is the whole list and no
    handler raised when it was called.  When the dispatch raises [e], the
    handlers before the last one called returned and the last one raised
    [e]; the handlers after it are not called.  Fail fast: a handler that
    raises [e] when its turn comes, the handlers before it having returned,
    makes the dispatch raise [e] there and then, its call being the last.
    The turn of a handler is the trainer [s] that the handlers before it
    have left, from the start of the dispatch on. *)
Theorem dispatch_in_order_fail_fast event args kwargs t :
  (∀ callback, handlers_for event (add_callback event callback t).1
               = handlers_for event t ++ [callback])
  ∧ (∃ done rest,
       handlers_for event t = done ++ rest
       ∧ trace (trigger_callbacks event args kwargs t).1
         = trace t ++ Dispatch event :: map (invocation args kwargs) done
       ∧ match (trigger_callbacks event args kwargs t).2 with
         | Ok _ =>
             rest = []
             ∧ ∀ pre callback post,
                 handlers_for event t = pre ++ callback :: post →
                 ∃ s, for_each pre (deliver args kwargs) (dispatched event t) = (s, Ok tt)
                      ∧ raised (call callback (sent args kwargs callback).1
                                  (sent args kwargs callback).2
                                  (shown callback (sent args kwargs callback).1
                                     (sent args kwargs callback).2 s)) = None
         | Raise e =>
             ∃ pre callback s,
               done = pre ++ [callback]
               ∧ for_each pre (deliver args kwargs) (dispatched event t) = (s, Ok tt)
               ∧ raised (call callback (sent args kwargs callback).1
                           (sent args kwargs callback).2
                           (shown callback (sent args kwargs callback).1
                              (sent args kwargs callback).2 s)) = Some e
         end)
  ∧ (∀ pre callback post s e,
       handlers_for event t = pre ++ callback :: post →
       for_each pre (deliver args kwargs) (dispatched event t) = (s, Ok tt) →
       raised (call callback (sent args kwargs callback).1 (sent args kwargs callback).2
                 (shown callback (sent args kwargs callback).1
                    (sent args kwargs callback).2 s)) = Some e →
       (trigger_callbacks event args kwargs t).2 = Raise e
       ∧ trace (trigger_callbacks event args kwargs t).1
         = trace t ++ Dispatch event :: map (invocation args kwargs) (pre ++ [callback])).
Proof.
  destruct (trigger_callbacks_dispatched event args kwargs t) as [Hrun Ht0].
  split; [|split].
  - intros callback.
    destruct (add_callback_run event callback t) as (t' & -> & H & _). exact H.
  - rewrite Hrun.
    pose proof (deliver_loop_fail_fast args kwargs (handlers_for event t)
                  (dispatched event t)) as Hloop.
    destruct (for_each (handlers_for event t) _ _) as [t' [[]|e]] eqn:Hfinal;
      simpl in Hloop |- *.
    + exists (handlers_for event t), []. split; [by rewrite app_nil_r|]. split.
      * rewrite (deliver_loop_returned _ _ _ _ _ Hfinal), Ht0. by rewrite <- app_assoc.
      * by split.
    + destruct Hloop as (pre & callback & post & s & Hsplit & Hpre & Hsome & [= -> ]).
      exists (pre ++ [callback]), post. split; [by rewrite <- app_assoc|]. split.
      * rewrite trace_after_call, (deliver_loop_returned _ _ _ _ _ Hpre), Ht0.
        rewrite map_app. simpl. by rewrite <- !app_assoc.
      * by exists pre, callback, s.
  - intros pre callback post s e Hsplit Hpre Hsome.
    rewrite Hrun, Hsplit, for_each_app, Hpre, deliver_step. cbv zeta. rewrite Hsome.
    cbn [fst snd]. split; [done|].
    rewrite trace_after_call, (deliver_loop_returned _ _ _ _ _ Hpre), Ht0.
    rewrite map_app. simpl. by rewrite <- !app_assoc.
Qed.

(** C2, as the code has it.  A dispatch that returns has called every
    handler of the event, in order, each in one of two ways: with the
    positional arguments and the whole keyword context when the handler
    declares every keyword of the context, and with the trainer alone
    otherwise. *)
Theorem dispatch_context_all_or_nothing event args kwargs t :
  (trigger_callbacks event args kwargs t).2 = Ok tt →
  trace (trigger_callbacks event args kwargs t).1
  = trace t ++ Dispatch event ::
      map (λ callback,
             if forallb (λ param, bool_decide (param ∈ signature_parameters callback))
                  kwargs.*1
             then Invoke callback args kwargs
             else Invoke callback [] [])
          (handlers_for event t).
Proof.
  intros Hok.
  destruct (trigger_callbacks_run event args kwargs t) as (t0 & Hstrip & _ & Hrun).
  rewrite Hrun in Hok |- *.
  destruct (deliver_loop args kwargs (handlers_for event t) t0)
    as (done & rest & Hsplit & Htr & Hres).
  rewrite Hok in Hres. subst rest. rewrite app_nil_r in Hsplit. subst done.
  apply strip_trace in Hstrip. simpl in Hstrip.
  rewrite Htr, Hstrip. by rewrite <- app_assoc.
Qed.

(** C10.  Any string is accepted as an event name: registering and
    replacing a handler under it return normally, and dispatching an event
    that has no handler returns normally having called no handler.  The
    dispatch leaves the handlers of every event as they were. *)
Theorem any_event_name event callback args kwargs t :
  ((add_callback event callback t).2 = Ok tt
   ∧ handlers_for event (add_callback event callback t).1
     = handlers_for event t ++ [callback])
  ∧ ((set_callback event callback t).2 = Ok tt
     ∧ handlers_for event (set_callback event callback t).1 = [callback])
  ∧ (handlers_for event t = [] →
     ∃ t', trigger_callbacks event args kwargs t = (t', Ok tt)
           ∧ trace t' = trace t ++ [Dispatch event]
           ∧ strip t' = strip (logged (Dispatch event) t)
           ∧ ∀ ev, handlers_for ev t' = handlers_for ev t).
Proof.
  split; [|split].
  - destruct (add_callback_run event callback t) as (t' & -> & H & _). by split.
  - destruct (set_callback_run event callback t) as (t' & -> & H & _). by split.
  - intros Hnone.
    destruct (trigger_callbacks_run event args kwargs t) as (t0 & Hstrip & Hh & ->).
    rewrite Hnone. simpl. exists t0. split; [done|]. split; [|done].
    by apply strip_trace in Hstrip.
Qed.

(** ** Runs in which no callback raises *)

Lemma advanced_refl t : advanced t t [] 0.
Proof. split; rewrite ?app_nil_r; try done; lia. Qed.

Lemma advanced_trans t t1 t2 evs1 evs2 n1 n2 :
  advanced t t1 evs1 n1 → advanced t1 t2 evs2 n2 → advanced t t2 (evs1 ++ evs2) (n1 + n2).
Proof.
  intros [] []. split; try congruence.
  - rewrite app_assoc. congruence.
  - lia.
Qed.

Lemma advanced_logged t a : advanced t (logged a t) [a] 0.
Proof. split; try done; simpl; lia. Qed.

Lemma advanced_chain t t1 t2 evs1 evs2 n1 n2 evs n :
  advanced t t1 evs1 n1 → advanced t1 t2 evs2 n2 →
  evs = evs1 ++ evs2 → n = n1 + n2 → advanced t t2 evs n.
Proof. intros H1 H2 -> ->. by eapply advanced_trans. Qed.

Lemma steps_scheduler_on_advanced granularity t t' evs n :
  advanced t t' evs n → steps_scheduler_on granularity t' = steps_scheduler_on granularity t.
Proof. intros [_ Hc Hs _ _ _ _]. unfold steps_scheduler_on. by rewrite Hc, Hs. Qed.

Lemma dispatch_events_advanced event args kwargs t t' evs n :
  advanced t t' evs n → dispatch_events event args kwargs t' = dispatch_events event args kwargs t.
Proof. intros [_ _ _ _ _ Hh _]. unfold dispatch_events. by rewrite Hh. Qed.

Lemma trigger_callbacks_advanced event args kwargs t :
  quiet →
  ∃ t', trigger_callbacks event args kwargs t = (t', Ok tt)
        ∧ advanced t t' (dispatch_events event args kwargs t) 0
        ∧ (keeps_metrics → metrics_dict t' = metrics_dict t).
Proof.
  intros Hq.
  destruct (trigger_callbacks_quiet event args kwargs t Hq) as (t' & Hrun & Htr & Hm).
  exists t'. split; [exact Hrun|]. split; [|exact Hm].
  assert (Hfst : (trigger_callbacks event args kwargs t).1 = t') by by rewrite Hrun.
  split.
  - exact Htr.
  - rewrite <- Hfst. apply (preserves_trigger_callbacks (untouched cfg)), dispatch_safe_cfg.
  - rewrite <- Hfst.
    apply (preserves_trigger_callbacks (untouched scheduler)), dispatch_safe_scheduler.
  - rewrite <- Hfst.
    apply (preserves_trigger_callbacks (untouched epoch_index)), dispatch_safe_epoch_index.
  - rewrite <- Hfst, Z.add_0_r.
    apply (preserves_trigger_callbacks (untouched batch_index)), dispatch_safe_batch_index.
  - intros ev. rewrite <- Hfst.
    apply (preserves_trigger_callbacks (untouched (handlers_for ev))),
      dispatch_safe_handlers_for.
  - rewrite <- Hfst.
    apply (preserves_trigger_callbacks
             (untouched (λ t, (train_loss t, valid_loss t, test_loss t)))),
      dispatch_safe_losses.
Qed.


Ltac run_step :=
  first [ rewrite bind_bind | rewrite bind_emit | rewrite bind_gets
        | rewrite bind_modify | rewrite bind_ret ].

Lemma steps_scheduler_on_logged granularity a t :
  steps_scheduler_on granularity (logged a t) = steps_scheduler_on granularity t.
Proof. done. Qed.

Lemma _train_one_batch_advanced batch t :
  quiet →
  ∃ t' loss,
    _train_one_batch batch t = (t', Ok (loss, fmul_int loss (size0 batch)))
    ∧ advanced t t' (train_batch_events t batch loss) 1
    ∧ (keeps_metrics → metrics_dict t' = metrics_dict t).
Proof.
  intros Hq. unfold _train_one_batch, item.
  destruct (trigger_callbacks_advanced TrainerEvent.ON_TRAIN_BATCH_START [] [] t Hq)
    as (t1 & H1 & A1 & M1).
  rewrite (bind_Ok _ _ _ _ _ H1).
  repeat run_step. simpl.
  set (loss := loss_item _ batch).
  rewrite (adv_cfg _ _ _ _ A1).
  destruct (clip_truthy (clip_grad_norm (cfg t))) eqn:Hclip;
    repeat run_step;
    rewrite ?steps_scheduler_on_logged, (steps_scheduler_on_advanced _ _ _ _ _ A1);
    destruct (steps_scheduler_on "batch" t) eqn:Hstep;
    repeat run_step;
    match goal with
    | |- context [bind (trigger_callbacks _ _ _) _ ?s] =>
        destruct (trigger_callbacks_advanced TrainerEvent.ON_TRAIN_BATCH_END [] [] s Hq)
          as (t3 & H3 & A3 & M3);
        assert (A2 : advanced t1 s
                       ([MoveToDevice batch; Forward; Criterion; ZeroGrad; Backward;
                         LossItem loss]
                        ++ (if clip_truthy (clip_grad_norm (cfg t)) then [ClipGradNorm] else [])
                        ++ [OptimizerStep]
                        ++ (if steps_scheduler_on "batch" t then [SchedulerStep] else [])) 1)
          by (rewrite Hclip, Hstep; destruct A1; split; simpl; rewrite <- ?app_assoc; done)
    end;
    rewrite (bind_Ok _ _ _ _ _ H3);
    exists t3, loss; (split; [done|]); pose proof (advanced_trans _ _ _ _ _ _ _ A1 A2) as A12;
    (split;
     [ eapply advanced_chain; [exact A12 | exact A3 | | lia];
       rewrite (dispatch_events_advanced _ _ _ _ _ _ _ A12);
       unfold train_batch_events; by rewrite <- !app_assoc
     | intros Hk; rewrite (M3 Hk); simpl; exact (M1 Hk) ]).
Qed.

Lemma no_grad_run {A} (m : M A) t t' r :
  m (logged NoGradEnter t) = (t', r) → no_grad m t = (logged NoGradExit t', r).
Proof. intros H. unfold no_grad. by rewrite H. Qed.

Lemma _valid_one_batch_advanced batch t :
  quiet →
  ∃ t' loss,
    _valid_one_batch batch t = (t', Ok (loss, fmul_int loss (size0 batch)))
    ∧ advanced t t' (valid_batch_events t batch loss) 0
    ∧ (keeps_metrics → metrics_dict t' = metrics_dict t).
Proof.
  intros Hq. unfold _valid_one_batch, item.
  pose proof (advanced_logged t NoGradEnter) as A0.
  destruct (trigger_callbacks_advanced TrainerEvent.ON_VALID_BATCH_START [] []
              (logged NoGradEnter t) Hq) as (t1 & H1 & A1 & M1).
  pose proof (advanced_trans _ _ _ _ _ _ _ A0 A1) as A01.
  match goal with
  | |- context [no_grad ?m] =>
      assert (∃ t3 loss,
                m (logged NoGradEnter t) = (t3, Ok (loss, fmul_int loss (size0 batch)))
                ∧ advanced t t3
                    ([NoGradEnter]
                     ++ dispatch_events TrainerEvent.ON_VALID_BATCH_START [] [] t
                     ++ [MoveToDevice batch; Forward; Criterion; LossItem loss]
                     ++ dispatch_events TrainerEvent.ON_VALID_BATCH_END [] [] t) 0
                ∧ (keeps_metrics → metrics_dict t3 = metrics_dict t)) as (t3 & loss & H & A & Hm)
  end.
  { rewrite (bind_Ok _ _ _ _ _ H1). repeat run_step. simpl.
    set (loss := loss_item _ batch).
    match goal with
    | |- context [bind (trigger_callbacks _ _ _) _ ?s] =>
        destruct (trigger_callbacks_advanced TrainerEvent.ON_VALID_BATCH_END [] [] s Hq)
          as (t3 & H3 & A3 & M3);
        assert (A2 : advanced t1 s [MoveToDevice batch; Forward; Criterion; LossItem loss] 0)
          by (destruct A1; split; simpl; rewrite <- ?app_assoc, ?Z.add_0_r; done)
    end.
    rewrite (bind_Ok _ _ _ _ _ H3). exists t3, loss. split; [done|].
    pose proof (advanced_trans _ _ _ _ _ _ _ A01 A2) as A012. split.
    - eapply advanced_chain; [exact A012 | exact A3 | | lia].
      rewrite (dispatch_events_advanced _ _ _ _ _ _ _ A012).
      rewrite (dispatch_events_advanced _ _ _ _ _ _ _ A0).
      by rewrite <- !app_assoc.
    - intros Hk. rewrite (M3 Hk). simpl. by rewrite (M1 Hk). }
  exists (logged NoGradExit t3), loss. split; [by apply no_grad_run|]. split; [|exact Hm].
  eapply advanced_chain; [exact A | apply advanced_logged | | lia].
  unfold valid_batch_events. by rewrite <- !app_assoc.
Qed.

(** ** Reading the traces of a quiet run *)

Lemma plain_invocation args kwargs callback : plain (invocation args kwargs callback) = false.
Proof. unfold invocation. by destruct (accepts callback kwargs). Qed.

Lemma outline_app evs1 evs2 : outline (evs1 ++ evs2) = outline evs1 ++ outline evs2.
Proof. apply List.filter_app. Qed.

Lemma outline_invocations args kwargs hs : outline (map (invocation args kwargs) hs) = [].
Proof.
  induction hs as [|h hs IH]; [done|]. unfold outline in *. simpl.
  by rewrite plain_invocation.
Qed.

Lemma outline_dispatch_events event args kwargs t :
  outline (dispatch_events event args kwargs t) = [Dispatch event].
Proof.
  unfold dispatch_events. change (Dispatch event :: ?l) with ([Dispatch event] ++ l).
  by rewrite outline_app, outline_invocations.
Qed.

Lemma loss_items_app evs1 evs2 : loss_items (evs1 ++ evs2) = loss_items evs1 ++ loss_items evs2.
Proof. apply omap_app. Qed.

Lemma loss_items_dispatch_events event args kwargs t :
  loss_items (dispatch_events event args kwargs t) = [].
Proof.
  unfold dispatch_events, loss_items. simpl.
  induction (handlers_for event t) as [|h hs IH]; [done|]. simpl.
  unfold invocation at 1. by destruct (accepts h kwargs).
Qed.

Lemma logged_epochs_app evs1 evs2 :
  logged_epochs (evs1 ++ evs2) = logged_epochs evs1 ++ logged_epochs evs2.
Proof. apply omap_app. Qed.

Lemma logged_epochs_dispatch_events event args kwargs t :
  logged_epochs (dispatch_events event args kwargs t) = [].
Proof.
  unfold dispatch_events, logged_epochs. simpl.
  induction (handlers_for event t) as [|h hs IH]; [done|]. simpl.
  unfold invocation at 1. by destruct (accepts h kwargs).
Qed.

Lemma train_step_events_outline t step batch loss :
  outline (train_step_events t step batch loss) = train_step_outline t batch.
Proof.
  unfold train_step_events, train_batch_events, progress_events, train_step_outline.
  rewrite !outline_app, !outline_dispatch_events.
  destruct (clip_truthy _), (steps_scheduler_on "batch" t), (steps_scheduler_on "epoch" t),
    (_ =? 0), (bool_decide (is_Some (scheduler t))); reflexivity.
Qed.

Lemma train_step_events_loss_items t step batch loss :
  loss_items (train_step_events t step batch loss) = [loss].
Proof.
  unfold train_step_events, train_batch_events, progress_events.
  rewrite !loss_items_app, !loss_items_dispatch_events.
  destruct (clip_truthy _), (steps_scheduler_on "batch" t), (steps_scheduler_on "epoch" t),
    (_ =? 0), (bool_decide (is_Some (scheduler t))); reflexivity.
Qed.

Lemma train_step_events_logged_epochs t step batch loss :
  Forall (λ epoch, epoch = epoch_index t) (logged_epochs (train_step_events t step batch loss)).
Proof.
  unfold train_step_events, train_batch_events, progress_events.
  rewrite !logged_epochs_app, !logged_epochs_dispatch_events.
  destruct (clip_truthy _), (steps_scheduler_on "batch" t), (steps_scheduler_on "epoch" t),
    (_ =? 0), (bool_decide (is_Some (scheduler t))); simpl; repeat constructor.
Qed.

Lemma valid_batch_events_outline t batch loss :
  outline (valid_batch_events t batch loss) = valid_step_outline batch.
Proof.
  unfold valid_batch_events. by rewrite !outline_app, !outline_dispatch_events.
Qed.

Lemma valid_batch_events_loss_items t batch loss :
  loss_items (valid_batch_events t batch loss) = [loss].
Proof.
  unfold valid_batch_events. by rewrite !loss_items_app, !loss_items_dispatch_events.
Qed.

Lemma valid_batch_events_logged_epochs t batch loss :
  logged_epochs (valid_batch_events t batch loss) = [].
Proof.
  unfold valid_batch_events. by rewrite !logged_epochs_app, !logged_epochs_dispatch_events.
Qed.

(** ** One epoch of a quiet run *)

Lemma train_step_advanced ts run step batch t :
  quiet → log_every_n_steps (cfg t) ≠ 0 →
  ∃ t' loss,
    train_step (ts, run) (step, batch) t
    = (t', Ok (ts + size0 batch, fadd run (fmul_int loss (size0 batch))))
    ∧ advanced t t' (train_step_events t step batch loss) 1
    ∧ (keeps_metrics → metrics_dict t' = metrics_dict t).
Proof.
  intros Hq Hn. unfold train_step.
  destruct (_train_one_batch_advanced batch t Hq) as (t1 & loss & H1 & A1 & M1).
  rewrite (bind_Ok _ _ _ _ _ H1). simpl. run_step.
  rewrite (adv_cfg _ _ _ _ A1). unfold divides.
  destruct (Z.eqb_spec (log_every_n_steps (cfg t)) 0) as [|_]; [done|].
  run_step.
  assert (∃ t2, advanced t1 t2
                  (progress_events t step batch loss
                   ++ (if steps_scheduler_on "epoch" t then [SchedulerStep] else [])) 0
                ∧ metrics_dict t2 = metrics_dict t1
                ∧ ∀ B (k : unit → M B),
                    bind (if step `mod` log_every_n_steps (cfg t) =? 0
                          then
                            bind (gets (λ t0, bool_decide (is_Some (scheduler t0))))
                              (λ has_scheduler : bool,
                                 bind (if has_scheduler then emit GetLastLr else ret ())
                                   (λ _ : (),
                                      bind (gets epoch_index)
                                        (λ epoch : Z,
                                           emit (LoggerInfo epoch step
                                                   (fmul_int loss (size0 batch)) loss))))
                          else ret ())
                      (λ _ : (),
                         bind (gets (steps_scheduler_on "epoch"))
                           (λ on_epoch : bool,
                              bind (if on_epoch then emit SchedulerStep else ret ()) k)) t1
                    = k tt t2) as (t2 & A2 & M2 & H2).
  { unfold progress_events.
    rewrite <- (steps_scheduler_on_advanced "epoch" _ _ _ _ A1).
    rewrite <- (adv_scheduler _ _ _ _ A1), <- (adv_epoch_index _ _ _ _ A1).
    destruct (step `mod` log_every_n_steps (cfg t) =? 0);
      [destruct (bool_decide (is_Some (scheduler t1))) eqn:Hs|];
      destruct (steps_scheduler_on "epoch" t1) eqn:He;
      eexists; (split; [|split; [|intros B k; repeat run_step; simpl; rewrite ?Hs;
                                  repeat run_step; rewrite ?steps_scheduler_on_logged, ?He;
                                  repeat run_step; reflexivity]]);
      try reflexivity; split; simpl; rewrite <- ?app_assoc, ?app_nil_r, ?Z.add_0_r; done. }
  rewrite H2. exists t2, loss. split; [done|]. split.
  - eapply advanced_chain; [exact A1 | exact A2 | done | lia].
  - intros Hk. rewrite M2. exact (M1 Hk).
Qed.

Lemma train_step_outline_advanced t t' evs n batch :
  advanced t t' evs n → train_step_outline t' batch = train_step_outline t batch.
Proof.
  intros A. unfold train_step_outline.
  by rewrite !(steps_scheduler_on_advanced _ _ _ _ _ A), (adv_cfg _ _ _ _ A).
Qed.

Lemma train_loop_advanced bs :
  quiet →
  ∀ step ts run t,
    log_every_n_steps (cfg t) ≠ 0 →
    ∃ t' losses evs,
      for_fold (enumerate bs step) (ts, run) train_step t
      = (t', Ok (fold_left Z.add (map size0 bs) ts, accumulate run (zip losses (map size0 bs))))
      ∧ length losses = length bs
      ∧ advanced t t' evs (Z.of_nat (length bs))
      ∧ outline evs = concat (map (train_step_outline t) bs)
      ∧ loss_items evs = losses
      ∧ Forall (λ epoch, epoch = epoch_index t) (logged_epochs evs)
      ∧ (keeps_metrics → metrics_dict t' = metrics_dict t).
Proof.
  intros Hq. induction bs as [|b bs IH]; intros step ts run t Hn.
  - exists t, [], []. simpl. split; [done|]. split; [done|].
    split; [apply advanced_refl|]. by repeat split.
  - simpl.
    destruct (train_step_advanced ts run step b t Hq Hn) as (t1 & loss & H1 & A1 & M1).
    rewrite (bind_Ok _ _ _ _ _ H1).
    assert (Hn1 : log_every_n_steps (cfg t1) ≠ 0) by by rewrite (adv_cfg _ _ _ _ A1).
    destruct (IH (step + 1) (ts + size0 b) (fadd run (fmul_int loss (size0 b))) t1 Hn1)
      as (t' & losses & evs & H' & Hlen & A' & Hout & Hloss & Hlog & M').
    exists t', (loss :: losses), (train_step_events t step b loss ++ evs).
    split; [exact H'|]. split; [simpl; by rewrite Hlen|]. split.
    { eapply advanced_chain; [exact A1 | exact A' | done | lia]. }
    split.
    { rewrite outline_app, train_step_events_outline, Hout.
      assert (Hext : map (train_step_outline t1) bs = map (train_step_outline t) bs)
        by (apply map_ext; intros b'; by apply (train_step_outline_advanced _ _ _ _ _ A1)).
      by rewrite Hext. }
    split.
    { by rewrite loss_items_app, train_step_events_loss_items, Hloss. }
    split.
    { rewrite logged_epochs_app. apply Forall_app. split.
      - apply train_step_events_logged_epochs.
      - by rewrite <- (adv_epoch_index _ _ _ _ A1). }
    intros Hk. rewrite (M' Hk). exact (M1 Hk).
Qed.

Lemma train_epoch_outline_advanced t t' evs n dataloader :
  advanced t t' evs n → train_epoch_outline t' dataloader = train_epoch_outline t dataloader.
Proof.
  intros A. unfold train_epoch_outline. f_equal. f_equal. f_equal.
  apply map_ext. intros b. by apply (train_step_outline_advanced _ _ _ _ _ A).
Qed.

Lemma train_one_epoch_advanced dataloader t :
  quiet → log_every_n_steps (cfg t) ≠ 0 → total_samples (sizes dataloader) ≠ 0 →
  ∃ t' losses evs,
    train_one_epoch dataloader t = (t', Ok (weighted_average losses (sizes dataloader)))
    ∧ length losses = length (batches dataloader)
    ∧ advanced t t' evs (len dataloader)
    ∧ outline evs = train_epoch_outline t dataloader
    ∧ loss_items evs = losses
    ∧ Forall (λ epoch, epoch = epoch_index t) (logged_epochs evs)
    ∧ (keeps_metrics →
       metrics_dict t'
       = <["train_this_epoch_average_loss" := weighted_average losses (sizes dataloader)]>
           (metrics_dict t)).
Proof.
  intros Hq Hn Hsamples. unfold train_one_epoch.
  destruct (trigger_callbacks_advanced TrainerEvent.ON_TRAIN_EPOCH_START []
              [("phase", PyStr TrainerPhase.TRAIN)] t Hq) as (t1 & H1 & A1 & M1).
  rewrite (bind_Ok _ _ _ _ _ H1). repeat run_step.
  set (t2 := logged (Iterate dataloader) (logged ModelTrain t1)).
  assert (A2 : advanced t1 t2 [ModelTrain; Iterate dataloader] 0).
  { subst t2. split; simpl; rewrite <- ?app_assoc, ?Z.add_0_r; done. }
  pose proof (advanced_trans _ _ _ _ _ _ _ A1 A2) as A12.
  assert (Hn2 : log_every_n_steps (cfg t2) ≠ 0) by by rewrite (adv_cfg _ _ _ _ A12).
  destruct (train_loop_advanced (batches dataloader) Hq 1 0 fzero t2 Hn2)
    as (t3 & losses & evs & H3 & Hlen & A3 & Hout & Hloss & Hlog & M3).
  rewrite (bind_Ok _ _ _ _ _ H3). simpl.
  unfold truediv.
  destruct (Z.eqb_spec (fold_left Z.add (map size0 (batches dataloader)) 0) 0) as [E|_];
    [done|].
  repeat run_step. unfold update_metrics. run_step.
  match goal with
  | |- context [bind (trigger_callbacks _ _ _) _ ?s] =>
      destruct (trigger_callbacks_advanced TrainerEvent.ON_TRAIN_EPOCH_END []
                  [("phase", PyStr TrainerPhase.TRAIN)] s Hq) as (t5 & H5 & A5 & M5);
      assert (A4 : advanced t3 s [] 0) by (split; simpl; rewrite ?app_nil_r, ?Z.add_0_r; done)
  end.
  rewrite (bind_Ok _ _ _ _ _ H5).
  pose proof (advanced_trans _ _ _ _ _ _ _ A12 A3) as A123.
  pose proof (advanced_trans _ _ _ _ _ _ _ A123 A4) as A1234.
  exists t5, losses, ((dispatch_events TrainerEvent.ON_TRAIN_EPOCH_START []
                         [("phase", PyStr TrainerPhase.TRAIN)] t
                       ++ [ModelTrain; Iterate dataloader]) ++ evs
                      ++ dispatch_events TrainerEvent.ON_TRAIN_EPOCH_END []
                           [("phase", PyStr TrainerPhase.TRAIN)] t).
  split; [done|]. split; [exact Hlen|]. split.
  { eapply advanced_chain; [exact A1234 | exact A5 | | unfold len; lia].
    rewrite (dispatch_events_advanced _ _ _ _ _ _ _ A1234).
    rewrite ?app_nil_r. by rewrite <- ?app_assoc. }
  split.
  { rewrite !outline_app, !outline_dispatch_events, Hout. unfold train_epoch_outline.
    assert (Hext : map (train_step_outline t2) (batches dataloader)
                   = map (train_step_outline t) (batches dataloader))
      by (apply map_ext; intros b'; by apply (train_step_outline_advanced _ _ _ _ _ A12)).
    rewrite Hext. by rewrite <- !app_assoc. }
  split.
  { rewrite !loss_items_app, !loss_items_dispatch_events, Hloss. simpl.
    by rewrite app_nil_r. }
  split.
  { rewrite !logged_epochs_app, !logged_epochs_dispatch_events. simpl.
    rewrite app_nil_r. by rewrite <- (adv_epoch_index _ _ _ _ A12). }
  intros Hk. rewrite (M5 Hk). simpl. rewrite (M3 Hk). subst t2. simpl. by rewrite (M1 Hk).
Qed.

Lemma valid_step_advanced ts run step batch t :
  quiet →
  ∃ t' loss,
    valid_step (ts, run) (step, batch) t
    = (t', Ok (ts + size0 batch, fadd run (fmul_int loss (size0 batch))))
    ∧ advanced t t' (valid_batch_events t batch loss) 0
    ∧ (keeps_metrics → metrics_dict t' = metrics_dict t).
Proof.
  intros Hq. unfold valid_step.
  destruct (_valid_one_batch_advanced batch t Hq) as (t1 & loss & H1 & A1 & M1).
  rewrite (bind_Ok _ _ _ _ _ H1). simpl. by exists t1, loss.
Qed.

Lemma valid_loop_advanced bs :
  quiet →
  ∀ step ts run t,
    ∃ t' losses evs,
      for_fold (enumerate bs step) (ts, run) valid_step t
      = (t', Ok (fold_left Z.add (map size0 bs) ts, accumulate run (zip losses (map size0 bs))))
      ∧ length losses = length bs
      ∧ advanced t t' evs 0
      ∧ outline evs = concat (map valid_step_outline bs)
      ∧ loss_items evs = losses
      ∧ logged_epochs evs = []
      ∧ (keeps_metrics → metrics_dict t' = metrics_dict t).
Proof.
  intros Hq. induction bs as [|b bs IH]; intros step ts run t.
  - exists t, [], []. simpl. split; [done|]. split; [done|].
    split; [apply advanced_refl|]. by repeat split.
  - simpl.
    destruct (valid_step_advanced ts run step b t Hq) as (t1 & loss & H1 & A1 & M1).
    rewrite (bind_Ok _ _ _ _ _ H1).
    destruct (IH (step + 1) (ts + size0 b) (fadd run (fmul_int loss (size0 b))) t1)
      as (t' & losses & evs & H' & Hlen & A' & Hout & Hloss & Hlog & M').
    exists t', (loss :: losses), (valid_batch_events t b loss ++ evs).
    split; [exact H'|]. split; [simpl; by rewrite Hlen|]. split.
    { eapply advanced_chain; [exact A1 | exact A' | done | lia]. }
    split.
    { by rewrite outline_app, valid_batch_events_outline, Hout. }
    split.
    { by rewrite loss_items_app, valid_batch_events_loss_items, Hloss. }
    split.
    { by rewrite logged_epochs_app, valid_batch_events_logged_epochs, Hlog. }
    intros Hk. rewrite (M' Hk). exact (M1 Hk).
Qed.

Lemma valid_one_epoch_advanced dataloader t :
  quiet → total_samples (sizes dataloader) ≠ 0 →
  ∃ t' losses evs,
    valid_one_epoch dataloader t = (t', Ok (weighted_average losses (sizes dataloader)))
    ∧ length losses = length (batches dataloader)
    ∧ advanced t t' evs 0
    ∧ outline evs = valid_epoch_outline dataloader
    ∧ loss_items evs = losses
    ∧ logged_epochs evs = []
    ∧ (keeps_metrics →
       metrics_dict t'
       = <["valid_this_epoch_average_loss" := weighted_average losses (sizes dataloader)]>
           (metrics_dict t)).
Proof.
  intros Hq Hsamples. unfold valid_one_epoch.
  destruct (trigger_callbacks_advanced TrainerEvent.ON_VALID_EPOCH_START []
              [("phase", PyStr TrainerPhase.VALID)] t Hq) as (t1 & H1 & A1 & M1).
  rewrite (bind_Ok _ _ _ _ _ H1). repeat run_step.
  set (t2 := logged (Iterate dataloader) (logged ModelEval t1)).
  assert (A2 : advanced t1 t2 [ModelEval; Iterate dataloader] 0).
  { subst t2. split; simpl; rewrite <- ?app_assoc, ?Z.add_0_r; done. }
  pose proof (advanced_trans _ _ _ _ _ _ _ A1 A2) as A12.
  destruct (valid_loop_advanced (batches dataloader) Hq 1 0 fzero t2)
    as (t3 & losses & evs & H3 & Hlen & A3 & Hout & Hloss & Hlog & M3).
  rewrite (bind_Ok _ _ _ _ _ H3). simpl.
  unfold truediv.
  destruct (Z.eqb_spec (fold_left Z.add (map size0 (batches dataloader)) 0) 0) as [E|_];
    [done|].
  repeat run_step. unfold update_metrics. run_step.
  match goal with
  | |- context [bind (trigger_callbacks _ _ _) _ ?s] =>
      destruct (trigger_callbacks_advanced TrainerEvent.ON_VALID_EPOCH_END []
                  [("phase", PyStr TrainerPhase.VALID)] s Hq) as (t5 & H5 & A5 & M5);
      assert (A4 : advanced t3 s [] 0) by (split; simpl; rewrite ?app_nil_r, ?Z.add_0_r; done)
  end.
  rewrite (bind_Ok _ _ _ _ _ H5).
  pose proof (advanced_trans _ _ _ _ _ _ _ A12 A3) as A123.
  pose proof (advanced_trans _ _ _ _ _ _ _ A123 A4) as A1234.
  exists t5, losses, ((dispatch_events TrainerEvent.ON_VALID_EPOCH_START []
                         [("phase", PyStr TrainerPhase.VALID)] t
                       ++ [ModelEval; Iterate dataloader]) ++ evs
                      ++ dispatch_events TrainerEvent.ON_VALID_EPOCH_END []
                           [("phase", PyStr TrainerPhase.VALID)] t).
  split; [done|]. split; [exact Hlen|]. split.
  { eapply advanced_chain; [exact A1234 | exact A5 | | lia].
    rewrite (dispatch_events_advanced _ _ _ _ _ _ _ A1234).
    rewrite ?app_nil_r. by rewrite <- ?app_assoc. }
  split.
  { rewrite !outline_app, !outline_dispatch_events, Hout. unfold valid_epoch_outline.
    by rewrite <- !app_assoc. }
  split.
  { rewrite !loss_items_app, !loss_items_dispatch_events, Hloss. simpl.
    by rewrite app_nil_r. }
  split.
  { rewrite !logged_epochs_app, !logged_epochs_dispatch_events, Hlog. done. }
  intros Hk. rewrite (M5 Hk). simpl. rewrite (M3 Hk). subst t2. simpl. by rewrite (M1 Hk).
Qed.

(** ** fit in a quiet run *)

Lemma fitted_refl t : fitted t t [] 0 0.
Proof. split; rewrite ?app_nil_r; try done; lia. Qed.

Lemma fitted_trans t t1 t2 evs1 evs2 k1 k2 n1 n2 :
  fitted t t1 evs1 k1 n1 → fitted t1 t2 evs2 k2 n2 →
  fitted t t2 (evs1 ++ evs2) (k1 + k2) (n1 + n2).
Proof.
  intros [] []. split; try congruence.
  - rewrite app_assoc. congruence.
  - lia.
  - lia.
Qed.

Lemma fitted_chain t t1 t2 evs1 evs2 k1 k2 n1 n2 evs k n :
  fitted t t1 evs1 k1 n1 → fitted t1 t2 evs2 k2 n2 →
  evs = evs1 ++ evs2 → k = k1 + k2 → n = n1 + n2 → fitted t t2 evs k n.
Proof. intros H1 H2 -> -> ->. by eapply fitted_trans. Qed.

Lemma advanced_fitted t t' evs n : advanced t t' evs n → fitted t t' evs 0 n.
Proof. intros []. split; try done. lia. Qed.

Lemma train_epoch_outline_fitted t t' evs k n dataloader :
  fitted t t' evs k n → train_epoch_outline t' dataloader = train_epoch_outline t dataloader.
Proof.
  intros [_ Hc Hs _ _ _]. unfold train_epoch_outline, train_step_outline, steps_scheduler_on.
  by rewrite Hc, Hs.
Qed.

Lemma dispatch_events_fitted event args kwargs t t' evs k n :
  fitted t t' evs k n → dispatch_events event args kwargs t' = dispatch_events event args kwargs t.
Proof. intros [_ _ _ _ _ Hh]. unfold dispatch_events. by rewrite Hh. Qed.

(** A branch [if loader: self.x_loss = self.valid_one_epoch(loader)]. *)
Lemma eval_branch_fitted (loader : option DataLoader) (set_loss : option F → Trainer → Trainer) t :
  quiet → evaluable loader →
  (∀ v s, fitted s (set_loss v s) [] 0 0) →
  ∃ t' evs,
    match loader with
    | Some dataloader =>
        if loader_truthy loader
        then bind (valid_one_epoch dataloader) (λ loss, modify (set_loss (Some loss)))
        else ret tt
    | None => ret tt
    end t = (t', Ok tt)
    ∧ fitted t t' evs 0 0
    ∧ outline evs = eval_outline loader
    ∧ logged_epochs evs = [].
Proof.
  intros Hq Hev Hset. unfold eval_outline.
  destruct loader as [dataloader|]; [|exists t, []; split; [done|]; split;
                                       [apply fitted_refl | done]].
  destruct (loader_truthy (Some dataloader)) eqn:Htruthy;
    [|exists t, []; split; [done|]; split; [apply fitted_refl | done]].
  assert (Hsamples : total_samples (sizes dataloader) ≠ 0).
  { apply Hev. intros Hnil. unfold loader_truthy, len in Htruthy.
    by rewrite Hnil in Htruthy. }
  destruct (valid_one_epoch_advanced dataloader t Hq Hsamples)
    as (t1 & losses & evs & H1 & _ & A1 & Hout & _ & Hlog & _).
  rewrite (bind_Ok _ _ _ _ _ H1). eexists _, evs. split; [reflexivity|].
  split; [|done].
  eapply fitted_chain; [apply (advanced_fitted _ _ _ _ A1) | apply Hset | | lia | lia].
  by rewrite app_nil_r.
Qed.

Lemma fit_epoch_fitted train_loader valid_loader test_loader t :
  quiet → log_every_n_steps (cfg t) ≠ 0 →
  total_samples (sizes train_loader) ≠ 0 → evaluable valid_loader → evaluable test_loader →
  ∃ t' evs,
    fit_epoch train_loader valid_loader test_loader t = (t', Ok tt)
    ∧ fitted t t' evs 1 (len train_loader)
    ∧ outline evs = fit_epoch_outline t train_loader valid_loader test_loader
    ∧ Forall (λ epoch, epoch = epoch_index t + 1) (logged_epochs evs).
Proof.
  intros Hq Hn Htrain Hvalid Htest. unfold fit_epoch. run_step.
  set (t0 := set_epoch_index (epoch_index t + 1) t).
  assert (A0 : fitted t t0 [] 1 0) by (split; simpl; rewrite ?app_nil_r; try done; lia).
  destruct (train_one_epoch_advanced train_loader t0 Hq Hn Htrain)
    as (t1 & losses & evs1 & H1 & _ & A1 & Hout1 & _ & Hlog1 & _).
  rewrite (bind_Ok _ _ _ _ _ H1). run_step.
  assert (A2 : fitted t1 (set_train_loss (Some (weighted_average losses (sizes train_loader))) t1)
                 [] 0 0) by (split; simpl; rewrite ?app_nil_r; try done; lia).
  pose proof (fitted_trans _ _ _ _ _ _ _ _ _
                (fitted_trans _ _ _ _ _ _ _ _ _ A0 (advanced_fitted _ _ _ _ A1)) A2) as A012.
  destruct (eval_branch_fitted valid_loader set_valid_loss
              (set_train_loss (Some (weighted_average losses (sizes train_loader))) t1)
              Hq Hvalid) as (t3 & evs3 & H3 & A3 & Hout3 & Hlog3).
  { intros v s. split; simpl; rewrite ?app_nil_r; try done; lia. }
  rewrite (bind_Ok _ _ _ _ _ H3).
  destruct (eval_branch_fitted test_loader set_test_loss t3 Hq Htest)
    as (t4 & evs4 & H4 & A4 & Hout4 & Hlog4).
  { intros v s. split; simpl; rewrite ?app_nil_r; try done; lia. }
  rewrite H4. exists t4, (evs1 ++ evs3 ++ evs4). split; [done|]. split.
  { eapply fitted_chain;
      [exact (fitted_trans _ _ _ _ _ _ _ _ _ A012 A3) | exact A4 | | lia | lia].
    simpl. rewrite app_nil_r. by rewrite <- !app_assoc. }
  split.
  { rewrite !outline_app, Hout1, Hout3, Hout4. unfold fit_epoch_outline.
    by rewrite (train_epoch_outline_fitted _ _ _ _ _ _ A0). }
  rewrite !logged_epochs_app, Hlog3, Hlog4, !app_nil_r. exact Hlog1.
Qed.

Lemma fit_epoch_outline_fitted t t' evs k n train_loader valid_loader test_loader :
  fitted t t' evs k n →
  fit_epoch_outline t' train_loader valid_loader test_loader
  = fit_epoch_outline t train_loader valid_loader test_loader.
Proof.
  intros A. unfold fit_epoch_outline. by rewrite (train_epoch_outline_fitted _ _ _ _ _ _ A).
Qed.

Lemma fit_loop_fitted train_loader valid_loader test_loader (l : list Z) :
  quiet → total_samples (sizes train_loader) ≠ 0 →
  evaluable valid_loader → evaluable test_loader →
  ∀ t, log_every_n_steps (cfg t) ≠ 0 →
    ∃ t' evs,
      for_each l (λ _, fit_epoch train_loader valid_loader test_loader) t = (t', Ok tt)
      ∧ fitted t t' evs (Z.of_nat (length l)) (Z.of_nat (length l) * len train_loader)
      ∧ outline evs
        = concat (replicate (length l)
                    (fit_epoch_outline t train_loader valid_loader test_loader))
      ∧ Forall (λ epoch, epoch_index t < epoch ≤ epoch_index t + Z.of_nat (length l))
          (logged_epochs evs).
Proof.
  intros Hq Htrain Hvalid Htest. induction l as [|x l IH]; intros t Hn.
  - exists t, []. split; [done|]. split; [|done].
    simpl length. rewrite Z.mul_0_l. apply fitted_refl.
  - simpl for_each.
    destruct (fit_epoch_fitted train_loader valid_loader test_loader t Hq Hn Htrain Hvalid Htest)
      as (t1 & evs1 & H1 & A1 & Hout1 & Hlog1).
    rewrite (bind_Ok _ _ _ _ _ H1).
    assert (Hn1 : log_every_n_steps (cfg t1) ≠ 0) by by rewrite (fit_cfg _ _ _ _ _ A1).
    destruct (IH t1 Hn1) as (t' & evs & H' & A' & Hout & Hlog).
    exists t', (evs1 ++ evs). split; [exact H'|]. split.
    { eapply fitted_chain; [exact A1 | exact A' | done | simpl length; lia | simpl length; lia]. }
    split.
    { rewrite outline_app, Hout1, Hout. simpl.
      by rewrite (fit_epoch_outline_fitted _ _ _ _ _ _ _ _ A1). }
    rewrite logged_epochs_app. apply Forall_app. split.
    + eapply Forall_impl; [exact Hlog1|]. simpl. intros e ->. simpl length. lia.
    + eapply Forall_impl; [exact Hlog|]. simpl. intros e He.
      rewrite (fit_epoch_index _ _ _ _ _ A1) in He. simpl length. lia.
Qed.

Lemma fit_fitted train_loader valid_loader test_loader t :
  quiet → log_every_n_steps (cfg t) ≠ 0 →
  total_samples (sizes train_loader) ≠ 0 → evaluable valid_loader → evaluable test_loader →
  ∃ t' evs,
    fit train_loader valid_loader test_loader t = (t', Ok (state t'))
    ∧ fitted t t' evs (Z.of_nat (Z.to_nat (max_epochs (cfg t))))
        (Z.of_nat (Z.to_nat (max_epochs (cfg t))) * len train_loader)
    ∧ outline evs = fit_outline t train_loader valid_loader test_loader
    ∧ Forall (λ epoch, epoch_index t < epoch
                       ≤ epoch_index t + Z.of_nat (Z.to_nat (max_epochs (cfg t))))
        (logged_epochs evs).
Proof.
  intros Hq Hn Htrain Hvalid Htest. unfold fit. run_step.
  set (t0 := set_dataloaders (Some train_loader) valid_loader test_loader t).
  assert (A0 : fitted t t0 [] 0 0) by (split; simpl; rewrite ?app_nil_r; try done; lia).
  destruct (trigger_callbacks_advanced TrainerEvent.ON_FIT_START [] [] t0 Hq)
    as (t1 & H1 & A1 & _).
  rewrite (bind_Ok _ _ _ _ _ H1). run_step.
  pose proof (fitted_trans _ _ _ _ _ _ _ _ _ A0 (advanced_fitted _ _ _ _ A1)) as A01.
  assert (Hn1 : log_every_n_steps (cfg t1) ≠ 0) by by rewrite (fit_cfg _ _ _ _ _ A01).
  destruct (fit_loop_fitted train_loader valid_loader test_loader
              (seqZ 1 (max_epochs (cfg t1))) Hq Htrain Hvalid Htest t1 Hn1)
    as (t2 & evs2 & H2 & A2 & Hout2 & Hlog2).
  rewrite length_seqZ, (fit_cfg _ _ _ _ _ A01) in A2, Hout2, Hlog2.
  rewrite (bind_Ok _ _ _ _ _ H2).
  destruct (trigger_callbacks_advanced TrainerEvent.ON_FIT_END [] [] t2 Hq)
    as (t3 & H3 & A3 & _).
  rewrite (bind_Ok _ _ _ _ _ H3).
  pose proof (fitted_trans _ _ _ _ _ _ _ _ _ A01 A2) as A012.
  exists t3, ((dispatch_events TrainerEvent.ON_FIT_START [] [] t ++ evs2)
              ++ dispatch_events TrainerEvent.ON_FIT_END [] [] t).
  split; [done|]. split.
  { eapply fitted_chain; [exact A012 | exact (advanced_fitted _ _ _ _ A3) | | lia | lia].
    rewrite (dispatch_events_fitted _ _ _ _ _ _ _ _ A012).
    by rewrite (dispatch_events_fitted _ _ _ _ _ _ _ _ A0). }
  split.
  { rewrite !outline_app, !outline_dispatch_events, Hout2. unfold fit_outline.
    rewrite (fit_epoch_outline_fitted _ _ _ _ _ _ _ _ A01). by rewrite <- !app_assoc. }
  rewrite !logged_epochs_app, !logged_epochs_dispatch_events, app_nil_r. simpl.
  by rewrite (fit_epoch_index _ _ _ _ _ A01), Z.add_0_r in Hlog2.
Qed.

(** ** Markers and scheduler steps of an outline *)

Lemma markers_app evs1 evs2 : markers (evs1 ++ evs2) = markers evs1 ++ markers evs2.
Proof. apply List.filter_app. Qed.

Lemma markers_outline evs : markers (outline evs) = markers evs.
Proof.
  unfold markers, outline. induction evs as [|a evs IH]; [done|]. simpl.
  destruct a; simpl; rewrite ?IH; try done.
Qed.

Lemma markers_concat_replicate n evs :
  markers (concat (replicate n evs)) = concat (replicate n (markers evs)).
Proof. induction n as [|n IH]; [done|]. simpl. by rewrite markers_app, IH. Qed.

Lemma markers_train_steps t bs : markers (concat (map (train_step_outline t) bs)) = [].
Proof.
  induction bs as [|b bs IH]; [done|]. simpl. rewrite markers_app, IH, app_nil_r.
  unfold train_step_outline.
  by destruct (clip_truthy _), (steps_scheduler_on "batch" t), (steps_scheduler_on "epoch" t).
Qed.

Lemma markers_valid_steps bs : markers (concat (map valid_step_outline bs)) = [].
Proof. induction bs as [|b bs IH]; [done|]. simpl. by rewrite IH. Qed.

Lemma markers_train_epoch_outline t dataloader :
  markers (train_epoch_outline t dataloader)
  = [Dispatch TrainerEvent.ON_TRAIN_EPOCH_START; ModelTrain; Iterate dataloader;
     Dispatch TrainerEvent.ON_TRAIN_EPOCH_END].
Proof.
  unfold train_epoch_outline. by rewrite !markers_app, markers_train_steps.
Qed.

Lemma markers_valid_epoch_outline dataloader :
  markers (valid_epoch_outline dataloader)
  = [Dispatch TrainerEvent.ON_VALID_EPOCH_START; ModelEval; Iterate dataloader;
     Dispatch TrainerEvent.ON_VALID_EPOCH_END].
Proof.
  unfold valid_epoch_outline. by rewrite !markers_app, markers_valid_steps.
Qed.

Lemma total_samples_nil_batches dataloader :
  total_samples (sizes dataloader) ≠ 0 → batches dataloader ≠ [].
Proof. intros H E. apply H. unfold sizes. by rewrite E. Qed.

Lemma loader_truthy_samples dataloader :
  total_samples (sizes dataloader) ≠ 0 → loader_truthy (Some dataloader) = true.
Proof.
  intros H. apply total_samples_nil_batches in H. unfold loader_truthy, len.
  by destruct (batches dataloader).
Qed.

Lemma scheduler_steps_app evs1 evs2 :
  scheduler_steps (evs1 ++ evs2) = (scheduler_steps evs1 + scheduler_steps evs2)%nat.
Proof. unfold scheduler_steps. by rewrite List.filter_app, length_app. Qed.

Lemma scheduler_steps_outline evs : scheduler_steps (outline evs) = scheduler_steps evs.
Proof.
  unfold scheduler_steps, outline. induction evs as [|a evs IH]; [done|]. simpl.
  destruct a; simpl; rewrite ?IH; try done.
Qed.

Lemma scheduler_steps_train_step_outline t batch :
  scheduler_steps (train_step_outline t batch)
  = ((if steps_scheduler_on "batch" t then 1 else 0)
     + (if steps_scheduler_on "epoch" t then 1 else 0))%nat.
Proof.
  unfold train_step_outline.
  by destruct (clip_truthy _), (steps_scheduler_on "batch" t), (steps_scheduler_on "epoch" t).
Qed.

(** Every batch of a training epoch brings one scheduler step when the
    granularity is ["batch"], and one when it is ["epoch"]. *)
Lemma scheduler_steps_train_epoch_outline t dataloader :
  scheduler_steps (train_epoch_outline t dataloader)
  = (length (batches dataloader)
     * ((if steps_scheduler_on "batch" t then 1 else 0)
        + (if steps_scheduler_on "epoch" t then 1 else 0)))%nat.
Proof.
  unfold train_epoch_outline. rewrite !scheduler_steps_app.
  change (scheduler_steps [Dispatch _; ModelTrain; Iterate dataloader]) with 0%nat.
  change (scheduler_steps [Dispatch TrainerEvent.ON_TRAIN_EPOCH_END]) with 0%nat.
  rewrite Nat.add_0_l, Nat.add_0_r.
  induction (batches dataloader) as [|b bs IH]; [done|].
  change (concat (map (train_step_outline t) (b :: bs)))
    with (train_step_outline t b ++ concat (map (train_step_outline t) bs)).
  rewrite scheduler_steps_app, IH, scheduler_steps_train_step_outline. simpl length. lia.
Qed.

(** ** What the drivers keep, whether they return or raise *)

(** The shape of a method is walked by [preserves_walk]; what is left are
    its assignments. *)
Ltac preserves_walk HR :=
  repeat match goal with
    | |- preserves _ (trigger_callbacks _ _ _) =>
        apply preserves_trigger_callbacks; first [typeclasses eauto | exact HR]
    | |- preserves _ (emit _) => apply preserves_emit; first [typeclasses eauto | exact HR]
    | |- preserves _ (ret _) => apply preserves_ret; typeclasses eauto
    | |- preserves _ (raise _) => apply preserves_raise; typeclasses eauto
    | |- preserves _ (gets _) => apply preserves_gets; typeclasses eauto
    | |- preserves _ (bind _ _) => apply preserves_bind; [typeclasses eauto | | intros ?]
    | |- preserves _ (modify _) => apply preserves_modify; intros ?
    | |- preserves _ (if ?b then _ else _) => destruct b
    | |- preserves _ (match ?x with _ => _ end) => destruct x
    end.

Section Drivers.
Context (R : relation Trainer) `{!PreOrder R}.

Lemma preserves_item batch : dispatch_safe R → preserves R (item batch).
Proof. intros HR. unfold item. preserves_walk HR. Qed.

Lemma preserves_update_metrics name value : dispatch_safe R → preserves R (update_metrics name value).
Proof. intros HR. apply preserves_modify. intros t. apply HR. Qed.

Lemma preserves_truediv total samples : preserves R (truediv total samples).
Proof. unfold truediv. destruct (samples =? 0); [by apply preserves_raise | by apply preserves_ret]. Qed.

Ltac preserves_drive HR :=
  repeat first
    [ progress preserves_walk HR
    | match goal with
      | |- preserves _ (item _) => apply preserves_item; first [typeclasses eauto | exact HR]
      | |- preserves _ (truediv _ _) => apply preserves_truediv
      | |- preserves _ (update_metrics _ _) =>
          apply preserves_update_metrics; first [typeclasses eauto | exact HR]
      end ].

Lemma preserves__valid_one_batch batch : dispatch_safe R → preserves R (_valid_one_batch batch).
Proof.
  intros HR. unfold _valid_one_batch.
  apply preserves_no_grad; [done | intros a t; apply HR |].
  preserves_drive HR.
Qed.

Lemma preserves_valid_one_epoch dataloader :
  dispatch_safe R → preserves R (valid_one_epoch dataloader).
Proof.
  intros HR. unfold valid_one_epoch. preserves_drive HR.
  apply preserves_for_fold; [done|]. intros [ts run] [step batch]. unfold valid_step.
  preserves_drive HR. by apply preserves__valid_one_batch.
Qed.

Lemma preserves__train_one_batch batch : fit_safe R → preserves R (_train_one_batch batch).
Proof.
  intros (HR & Hb & _). unfold _train_one_batch. preserves_drive HR. apply Hb.
Qed.

Lemma preserves_train_one_epoch dataloader : fit_safe R → preserves R (train_one_epoch dataloader).
Proof.
  intros HF. pose proof HF as (HR & _). unfold train_one_epoch. preserves_drive HR.
  apply preserves_for_fold; [done|]. intros [ts run] [step batch]. unfold train_step.
  apply preserves_bind; [done | by apply preserves__train_one_batch | intros [avg tot]].
  unfold divides. preserves_drive HR.
Qed.

Lemma preserves_fit_epoch train_loader valid_loader test_loader :
  fit_safe R → preserves R (fit_epoch train_loader valid_loader test_loader).
Proof.
  intros HF. pose proof HF as (HR & _ & He & Htr & Hva & Hte & _). unfold fit_epoch.
  apply preserves_bind; [done | apply preserves_modify, He | intros _].
  apply preserves_bind; [done | by apply preserves_train_one_epoch | intros loss].
  apply preserves_bind; [done | apply preserves_modify; intros t; apply Htr | intros _].
  apply preserves_bind; [done | | intros _].
  - destruct valid_loader as [dataloader|]; [|by apply preserves_ret].
    destruct (loader_truthy _); [|by apply preserves_ret].
    apply preserves_bind; [done | by apply preserves_valid_one_epoch | intros v].
    apply preserves_modify. intros t. apply Hva.
  - destruct test_loader as [dataloader|]; [|by apply preserves_ret].
    destruct (loader_truthy _); [|by apply preserves_ret].
    apply preserves_bind; [done | by apply preserves_valid_one_epoch | intros v].
    apply preserves_modify. intros t. apply Hte.
Qed.

Lemma preserves_fit train_loader valid_loader test_loader :
  fit_safe R → preserves R (fit train_loader valid_loader test_loader).
Proof.
  intros HF. pose proof HF as (HR & _ & _ & _ & _ & _ & Hdl). unfold fit.
  apply preserves_bind; [done | apply preserves_modify; intros t; apply Hdl | intros _].
  apply preserves_bind; [done | by apply preserves_trigger_callbacks | intros _].
  apply preserves_bind; [done | by apply preserves_gets | intros epochs].
  apply preserves_bind; [done | | intros _].
  - apply preserves_for_each; [done|]. intros _. by apply preserves_fit_epoch.
  - apply preserves_bind; [done | by apply preserves_trigger_callbacks | intros _].
    by apply preserves_gets.
Qed.

End Drivers.

Lemma fit_safe_grows (f : Trainer → Z) :
  dispatch_safe (untouched f) →
  (∀ t, f t ≤ f (set_batch_index (batch_index t + 1) t)) →
  (∀ t, f t ≤ f (set_epoch_index (epoch_index t + 1) t)) →
  (∀ t v, f (set_train_loss v t) = f t) → (∀ t v, f (set_valid_loss v t) = f t) →
  (∀ t v, f (set_test_loss v t) = f t) →
  (∀ t tr va te, f (set_dataloaders tr va te t) = f t) →
  fit_safe (grows f).
Proof.
  intros (H1 & H2 & H3 & H4 & H5) Hb He Htr Hva Hte Hdl. unfold untouched in *.
  repeat split; unfold grows; intros; rewrite ?H1, ?H2, ?H3, ?H4, ?H5, ?Htr, ?Hva, ?Hte, ?Hdl;
    try done; try lia; auto.
Qed.

Lemma fit_safe_grows_batch_index : fit_safe (grows batch_index).
Proof.
  apply fit_safe_grows; try done; try apply dispatch_safe_batch_index; intros; simpl; lia.
Qed.

Lemma fit_safe_grows_epoch_index : fit_safe (grows epoch_index).
Proof.
  apply fit_safe_grows; try done; try apply dispatch_safe_epoch_index; intros; simpl; lia.
Qed.

(** ** What a batch returns *)

Ltac run_step_in H :=
  first [ rewrite bind_bind in H | rewrite bind_emit in H | rewrite bind_gets in H
        | rewrite bind_modify in H | rewrite bind_ret in H ].

Lemma _train_one_batch_returns batch t t' average total :
  _train_one_batch batch t = (t', Ok (average, total)) →
  total = fmul_int average (size0 batch) ∧ batch_index t' = batch_index t + 1.
Proof.
  intros H. unfold _train_one_batch, item in H.
  apply bind_inv_Ok in H as (t1 & [] & H1 & H).
  assert (Hb1 : batch_index t1 = batch_index t).
  { pose proof (preserves_trigger_callbacks (untouched batch_index)
                  TrainerEvent.ON_TRAIN_BATCH_START [] [] dispatch_safe_batch_index t) as P.
    by rewrite H1 in P. }
  repeat run_step_in H. simpl in H.
  destruct (clip_truthy _); repeat run_step_in H;
    rewrite ?steps_scheduler_on_logged in H;
    destruct (steps_scheduler_on "batch" t1); repeat run_step_in H;
    apply bind_inv_Ok in H as (t3 & [] & H3 & H);
    injection H as <- <- <-; (split; [done|]);
    match type of H3 with
    | trigger_callbacks _ _ _ ?s = _ =>
        pose proof (preserves_trigger_callbacks (untouched batch_index)
                      TrainerEvent.ON_TRAIN_BATCH_END [] [] dispatch_safe_batch_index s) as P;
        rewrite H3 in P; unfold untouched in P; simpl in P; by rewrite P, Hb1
    end.
Qed.

Lemma _valid_one_batch_returns batch t t' average total :
  _valid_one_batch batch t = (t', Ok (average, total)) →
  total = fmul_int average (size0 batch).
Proof.
  unfold _valid_one_batch, no_grad, item.
  match goal with |- context [let (_, _) := ?m in _] => destruct m as [s r] eqn:H end.
  intros E. injection E as _ ->.
  apply bind_inv_Ok in H as (t1 & [] & H1 & H).
  repeat run_step_in H. simpl in H.
  apply bind_inv_Ok in H as (t3 & [] & H3 & H). by injection H as <- <- <-.
Qed.

(** ** The claims about the drivers *)

(** C1, as the code has it.  In a training epoch over B batches with a
    scheduler configured, [scheduler.step()] is called B times when the
    granularity is ["batch"] and also B times when it is ["epoch"]: the
    test for ["epoch"] stands inside the loop over the batches. *)
Theorem scheduler_steps_per_epoch dataloader t :
  quiet → log_every_n_steps (cfg t) ≠ 0 → total_samples (sizes dataloader) ≠ 0 →
  is_Some (scheduler t) →
  ∃ t' loss evs,
    train_one_epoch dataloader t = (t', Ok loss)
    ∧ trace t' = trace t ++ evs
    ∧ (step_scheduler_on_batch_or_epoch (cfg t) = "batch" →
       scheduler_steps evs = length (batches dataloader))
    ∧ (step_scheduler_on_batch_or_epoch (cfg t) = "epoch" →
       scheduler_steps evs = length (batches dataloader)).
Proof.
  intros Hq Hn Hsamples [sched Hsched].
  destruct (train_one_epoch_advanced dataloader t Hq Hn Hsamples)
    as (t' & losses & evs & H & _ & A & Hout & _).
  exists t', (weighted_average losses (sizes dataloader)), evs.
  split; [exact H|]. split; [apply A|].
  rewrite <- scheduler_steps_outline, Hout, scheduler_steps_train_epoch_outline.
  unfold steps_scheduler_on. rewrite Hsched.
  split; intros ->; simpl; lia.
Qed.

(** C4.  An epoch over a loader that yields no batch never returns a loss.
    When the dispatch of the epoch-start event returns, the epoch raises
    [ZeroDivisionError] (the spec's DivisionError); when that dispatch
    raises, its exception is the one the epoch raises.  This holds for
    [train_one_epoch] and for [valid_one_epoch]. *)
Theorem empty_epoch_raises dataloader t :
  batches dataloader = [] →
  match (trigger_callbacks TrainerEvent.ON_TRAIN_EPOCH_START []
           [("phase", PyStr TrainerPhase.TRAIN)] t).2 with
  | Ok _ => (train_one_epoch dataloader t).2 = Raise ZeroDivisionError
  | Raise e => (train_one_epoch dataloader t).2 = Raise e
  end
  ∧ match (trigger_callbacks TrainerEvent.ON_VALID_EPOCH_START []
             [("phase", PyStr TrainerPhase.VALID)] t).2 with
    | Ok _ => (valid_one_epoch dataloader t).2 = Raise ZeroDivisionError
    | Raise e => (valid_one_epoch dataloader t).2 = Raise e
    end.
Proof.
  intros Hnil. unfold train_one_epoch, valid_one_epoch. rewrite Hnil. split.
  - destruct (trigger_callbacks TrainerEvent.ON_TRAIN_EPOCH_START _ _ t) as [t1 [[]|e]] eqn:H1.
    + by rewrite (bind_Ok _ _ _ _ _ H1).
    + by rewrite (bind_Raise _ _ _ _ _ H1).
  - destruct (trigger_callbacks TrainerEvent.ON_VALID_EPOCH_START _ _ t) as [t1 [[]|e]] eqn:H1.
    + by rewrite (bind_Ok _ _ _ _ _ H1).
    + by rewrite (bind_Raise _ _ _ _ _ H1).
Qed.

(** C5.  When no callback raises, the logging cadence is not zero and the
    training, validation and test loaders each yield samples, [fit] with
    both evaluation loaders returns the trainer's state, and the course of
    the run is: the dispatch of [on_fit_start]; then, [max_epochs] times, a
    training epoch over the training loader, an evaluation epoch over the
    validation loader and an evaluation epoch over the test loader, in this
    order; then the dispatch of [on_fit_end]. *)
Theorem fit_runs_epochs_in_order train_loader valid_loader test_loader t :
  quiet → log_every_n_steps (cfg t) ≠ 0 →
  total_samples (sizes train_loader) ≠ 0 → total_samples (sizes valid_loader) ≠ 0 →
  total_samples (sizes test_loader) ≠ 0 →
  ∃ t' evs,
    fit train_loader (Some valid_loader) (Some test_loader) t = (t', Ok (state t'))
    ∧ trace t' = trace t ++ evs
    ∧ markers evs
      = [Dispatch TrainerEvent.ON_FIT_START]
        ++ concat (replicate (Z.to_nat (max_epochs (cfg t)))
                     (epoch_markers train_loader valid_loader test_loader))
        ++ [Dispatch TrainerEvent.ON_FIT_END].
Proof.
  intros Hq Hn Htrain Hvalid Htest.
  destruct (fit_fitted train_loader (Some valid_loader) (Some test_loader) t Hq Hn Htrain)
    as (t' & evs & H & A & Hout & _); [by intros _ | by intros _ |].
  exists t', evs. split; [exact H|]. split; [apply A|].
  rewrite <- markers_outline, Hout. unfold fit_outline, fit_epoch_outline, eval_outline.
  rewrite !loader_truthy_samples by done.
  rewrite !markers_app, markers_concat_replicate, !markers_app.
  by rewrite markers_train_epoch_outline, !markers_valid_epoch_outline.
Qed.

(** C6.  When no callback raises, the logging cadence is not zero and the
    loader's batch sizes sum to more than zero, an epoch returns the
    weighted average of the losses it read, one per batch in order: the sum
    over the batches of (loss × batch size), divided by the sum of the batch
    sizes.  This holds for training and for evaluation epochs.  The total
    loss a batch returns is its average loss times its size. *)
Theorem epoch_average_is_weighted_average dataloader t :
  quiet → log_every_n_steps (cfg t) ≠ 0 → 0 < total_samples (sizes dataloader) →
  (∃ t' losses evs,
     train_one_epoch dataloader t = (t', Ok (weighted_average losses (sizes dataloader)))
     ∧ trace t' = trace t ++ evs
     ∧ loss_items evs = losses
     ∧ length losses = length (batches dataloader))
  ∧ (∃ t' losses evs,
       valid_one_epoch dataloader t = (t', Ok (weighted_average losses (sizes dataloader)))
       ∧ trace t' = trace t ++ evs
       ∧ loss_items evs = losses
       ∧ length losses = length (batches dataloader))
  ∧ (∀ batch s s' average total,
       _train_one_batch batch s = (s', Ok (average, total)) →
       total = fmul_int average (size0 batch))
  ∧ (∀ batch s s' average total,
       _valid_one_batch batch s = (s', Ok (average, total)) →
       total = fmul_int average (size0 batch)).
Proof.
  intros Hq Hn Hpos.
  assert (Hsamples : total_samples (sizes dataloader) ≠ 0) by lia.
  split; [|split; [|split]].
  - destruct (train_one_epoch_advanced dataloader t Hq Hn Hsamples)
      as (t' & losses & evs & H & Hlen & A & _ & Hloss & _).
    exists t', losses, evs. split; [exact H|]. split; [apply A|]. by split.
  - destruct (valid_one_epoch_advanced dataloader t Hq Hsamples)
      as (t' & losses & evs & H & Hlen & A & _ & Hloss & _).
    exists t', losses, evs. split; [exact H|]. split; [apply A|]. by split.
  - intros batch s s' average total H. by apply _train_one_batch_returns in H as [? _].
  - intros batch s s' average total H. by apply _valid_one_batch_returns in H.
Qed.

(** C8.  In an iteration of [fit] with both evaluation loaders (no
    callback raising or writing metrics, cadence not zero, every loader
    yielding samples), the validation pass is [valid_one_epoch] over the
    validation loader and leaves its average under
    ["valid_this_epoch_average_loss"]; the test pass is [valid_one_epoch]
    again, over the test loader: its calls are those of an evaluation epoch
    (the validation events, the model in eval mode, every batch inside a
    no-grad scope, no backward pass and no optimizer or scheduler step), and
    it stores its average under the same key, replacing the validation
    pass's.  The iteration ends with [valid_loss] and [test_loss] set to the
    two averages. *)
Theorem test_pass_takes_validation_path train_loader valid_loader test_loader t :
  quiet → keeps_metrics → log_every_n_steps (cfg t) ≠ 0 →
  total_samples (sizes train_loader) ≠ 0 → total_samples (sizes valid_loader) ≠ 0 →
  total_samples (sizes test_loader) ≠ 0 →
  ∃ t1 t2 t3 valid_losses test_losses evs,
    let valid_average := weighted_average valid_losses (sizes valid_loader) in
    let test_average := weighted_average test_losses (sizes test_loader) in
    valid_one_epoch valid_loader t1 = (t2, Ok valid_average)
    ∧ metrics_dict t2 !! "valid_this_epoch_average_loss" = Some valid_average
    ∧ valid_one_epoch test_loader (set_valid_loss (Some valid_average) t2)
      = (t3, Ok test_average)
    ∧ trace t3 = trace t2 ++ evs
    ∧ outline evs = valid_epoch_outline test_loader
    ∧ loss_items evs = test_losses
    ∧ metrics_dict t3
      = <["valid_this_epoch_average_loss" := test_average]> (metrics_dict t2)
    ∧ fit_epoch train_loader (Some valid_loader) (Some test_loader) t
      = (set_test_loss (Some test_average) t3, Ok tt)
    ∧ metrics_dict (set_test_loss (Some test_average) t3) !! "valid_this_epoch_average_loss"
      = Some test_average
    ∧ valid_loss (set_test_loss (Some test_average) t3) = Some valid_average
    ∧ test_loss (set_test_loss (Some test_average) t3) = Some test_average.
Proof.
  intros Hq Hk Hn Htrain Hvalid Htest.
  destruct (train_one_epoch_advanced train_loader (set_epoch_index (epoch_index t + 1) t)
              Hq Hn Htrain) as (t0 & train_losses & evs0 & H0 & _).
  set (t1 := set_train_loss (Some (weighted_average train_losses (sizes train_loader))) t0).
  destruct (valid_one_epoch_advanced valid_loader t1 Hq Hvalid)
    as (t2 & valid_losses & evs2 & H2 & _ & _ & _ & _ & _ & M2).
  destruct (valid_one_epoch_advanced test_loader
              (set_valid_loss (Some (weighted_average valid_losses (sizes valid_loader))) t2)
              Hq Htest)
    as (t3 & test_losses & evs & H3 & _ & A3 & Hout & Hloss & _ & M3).
  exists t1, t2, t3, valid_losses, test_losses, evs. simpl.
  split; [exact H2|]. split; [by rewrite (M2 Hk), lookup_insert_eq|].
  split; [exact H3|]. split; [apply A3|]. split; [exact Hout|]. split; [exact Hloss|].
  split; [exact (M3 Hk)|]. split.
  { unfold fit_epoch. run_step. rewrite (bind_Ok _ _ _ _ _ H0). run_step.
    rewrite !loader_truthy_samples by done. fold t1.
    rewrite bind_bind, (bind_Ok _ _ _ _ _ H2). run_step.
    by rewrite (bind_Ok _ _ _ _ _ H3). }
  split; [by rewrite (M3 Hk), lookup_insert_eq|].
  split; [|done].
  pose proof (adv_losses _ _ _ _ A3) as Hl. simpl in Hl. by injection Hl as _ -> _.
Qed.

(** C9.  Both counters are 0 after [__init__].  A training batch that
    returns has added one to the batch counter; an evaluation batch and an
    evaluation epoch leave it as it was, whether they return or raise; over
    a whole [fit] neither counter ever decreases.  In a run where no
    callback raises (cadence not zero, loaders with samples), an iteration
    of [fit] adds one to the epoch counter before its training epoch, which
    logs the incremented value, and adds the number of training batches to
    the batch counter; a [fit] of E epochs adds E to the epoch counter and
    E times the number of training batches to the batch counter. *)
Theorem counters_of_a_fit train_loader valid_loader test_loader t :
  (∀ st composer dev,
     epoch_index (__init__ st composer dev).1 = 0
     ∧ batch_index (__init__ st composer dev).1 = 0)
  ∧ (∀ batch s s' r,
       _train_one_batch batch s = (s', Ok r) → batch_index s' = batch_index s + 1)
  ∧ (∀ batch s, batch_index (_valid_one_batch batch s).1 = batch_index s)
  ∧ (∀ dataloader s, batch_index (valid_one_epoch dataloader s).1 = batch_index s)
  ∧ (batch_index t ≤ batch_index (fit train_loader valid_loader test_loader t).1
     ∧ epoch_index t ≤ epoch_index (fit train_loader valid_loader test_loader t).1)
  ∧ (quiet → log_every_n_steps (cfg t) ≠ 0 → total_samples (sizes train_loader) ≠ 0 →
     evaluable valid_loader → evaluable test_loader →
     (∃ t' evs,
        fit_epoch train_loader valid_loader test_loader t = (t', Ok tt)
        ∧ trace t' = trace t ++ evs
        ∧ epoch_index t' = epoch_index t + 1
        ∧ batch_index t' = batch_index t + len train_loader
        ∧ Forall (λ epoch, epoch = epoch_index t + 1) (logged_epochs evs))
     ∧ (∃ t',
          fit train_loader valid_loader test_loader t = (t', Ok (state t'))
          ∧ epoch_index t' = epoch_index t + Z.max 0 (max_epochs (cfg t))
          ∧ batch_index t'
            = batch_index t + Z.max 0 (max_epochs (cfg t)) * len train_loader)).
Proof.
  split; [|split; [|split; [|split; [|split]]]].
  - intros st composer dev. unfold __init__. by destruct (parameters st); vm_compute.
  - intros batch s s' [average total] H. by apply _train_one_batch_returns in H as [_ ?].
  - intros batch s.
    apply (preserves__valid_one_batch (untouched batch_index)), dispatch_safe_batch_index.
  - intros dataloader s.
    apply (preserves_valid_one_epoch (untouched batch_index)), dispatch_safe_batch_index.
  - split.
    + apply (preserves_fit (grows batch_index)), fit_safe_grows_batch_index.
    + apply (preserves_fit (grows epoch_index)), fit_safe_grows_epoch_index.
  - intros Hq Hn Htrain Hvalid Htest. split.
    + destruct (fit_epoch_fitted train_loader valid_loader test_loader t
                  Hq Hn Htrain Hvalid Htest) as (t' & evs & H & A & _ & Hlog).
      exists t', evs. split; [exact H|]. split; [apply A|]. split; [apply A|].
      split; [apply A | exact Hlog].
    + destruct (fit_fitted train_loader valid_loader test_loader t
                  Hq Hn Htrain Hvalid Htest) as (t' & evs & H & A & _).
      exists t'. split; [exact H|]. destruct A as [_ _ _ He Hb _]. split; [|nia].
      lia.
Qed.

(** ** More on construction and the registry *)

(** X1.  [__init__] evaluates [next(state.model.parameters())] before it
    calls [model.to]: for a state whose model has no parameter it raises
    [StopIteration], with no call made and no callback registered.  For
    any other state, whatever the composer and the device, it calls
    [model.to] and nothing else and returns with both counters at 0, no
    metric and no best score, the scheduler of the state, the device
    argument if one is given and the composer's otherwise, and this
    registry: the two fit-start loggers on [on_fit_start];
    [log_on_train_epoch_start] on the start of training and of validation
    epochs; [update_state] then [log_on_epoch_end] on [on_train_epoch_end];
    [save_state] then [log_on_epoch_end] on [on_valid_epoch_end]; nothing on
    the batch events and on [on_fit_end]. *)
Theorem init_registers_defaults st composer dev :
  match parameters st with
  | [] =>
      (__init__ (F := F) st composer dev).2 = Raise StopIteration
      ∧ trace (__init__ (F := F) st composer dev).1 = []
      ∧ callbacks (__init__ (F := F) st composer dev).1 = ∅
  | _ :: _ =>
      (__init__ (F := F) st composer dev).2 = Ok tt
      ∧ trace (__init__ (F := F) st composer dev).1 = [ModelTo]
      ∧ callbacks (__init__ st composer dev).1
        = list_to_map
            [(TrainerEvent.ON_FIT_START, [log_on_fit_start; log_on_fit_start_model_summary]);
             (TrainerEvent.ON_TRAIN_EPOCH_START, [log_on_train_epoch_start]);
             (TrainerEvent.ON_VALID_EPOCH_START, [log_on_train_epoch_start]);
             (TrainerEvent.ON_TRAIN_EPOCH_END, [update_state; log_on_epoch_end]);
             (TrainerEvent.ON_VALID_EPOCH_END, [save_state; log_on_epoch_end])]
      ∧ epoch_index (__init__ st composer dev).1 = 0
      ∧ batch_index (__init__ st composer dev).1 = 0
      ∧ metrics_dict (__init__ st composer dev).1 = ∅
      ∧ best_monitored_score (__init__ (F := F) st composer dev).1 = None
      ∧ scheduler (__init__ st composer dev).1 = state_scheduler st
      ∧ device (__init__ (F := F) st composer dev).1 = default (cfg_device composer) dev
      ∧ cfg (__init__ st composer dev).1 = composer
  end.
Proof.
  unfold __init__. destruct (parameters st) as [|dtype rest].
  - by vm_compute.
  - repeat split; by vm_compute.
Qed.

Lemma list_remove_elem_of x l :
  x ∈ l →
  ∃ pre post, l = pre ++ x :: post ∧ (x ∉ pre) ∧ list_remove x l = Some (pre ++ post).
Proof.
  induction l as [|y l IH]; intros Hin; [by apply elem_of_nil in Hin|].
  simpl. destruct (decide (y = x)) as [->|Hne].
  - exists [], l. split; [done|]. split; [apply not_elem_of_nil | done].
  - apply elem_of_cons in Hin as [->|Hin]; [done|].
    destruct (IH Hin) as (pre & post & -> & Hpre & ->).
    exists (y :: pre), post. split; [done|]. split; [|done].
    apply not_elem_of_cons. split; [congruence | done].
Qed.

Lemma list_remove_snoc x l :
  list_remove x (l ++ [x])
  = Some (match list_remove x l with Some l' => l' ++ [x] | None => l end).
Proof.
  induction l as [|y l IH]; simpl.
  - by rewrite decide_True.
  - destruct (decide (y = x)); [done|]. rewrite IH. simpl.
    by destruct (list_remove x l).
Qed.

Lemma handlers_for_set_callbacks event c t :
  handlers_for event (set_callbacks c t) = default [] (c !! event).
Proof. done. Qed.

Lemma remove_callback_run event callback t l :
  list_remove callback (handlers_for event t) = Some l →
  ∃ t', remove_callback event callback t = (t', Ok tt)
        ∧ handlers_for event t' = l
        ∧ ∀ ev, ev ≠ event → handlers_for ev t' = handlers_for ev t.
Proof.
  intros Hrem. unfold remove_callback.
  destruct (handlers_for_getitem event t) as (t0 & Hget & _ & _ & Hh).
  rewrite (bind_Ok _ _ _ _ _ Hget), Hrem. eexists. split; [reflexivity|]. split.
  - by rewrite handlers_for_set_callbacks, lookup_insert_eq.
  - intros ev Hne. rewrite <- (Hh ev), handlers_for_set_callbacks.
    by rewrite lookup_insert_ne by congruence.
Qed.

(** X2.  Removing a callback registered for the event returns normally and
    drops its first occurrence only: the handlers before it and after it,
    later occurrences of the same callback among them, keep their order, and
    the handlers of every other event are as they were. *)
Theorem remove_callback_present event callback t :
  callback ∈ handlers_for event t →
  ∃ pre post t',
    handlers_for event t = pre ++ callback :: post
    ∧ (callback ∉ pre)
    ∧ remove_callback event callback t = (t', Ok tt)
    ∧ handlers_for event t' = pre ++ post
    ∧ ∀ ev, ev ≠ event → handlers_for ev t' = handlers_for ev t.
Proof.
  intros Hin. destruct (list_remove_elem_of _ _ Hin) as (pre & post & Hl & Hpre & Hrem).
  destruct (remove_callback_run event callback t _ Hrem) as (t' & Hrun & Hh & Hother).
  by exists pre, post, t'.
Qed.

(** X3.  Registering a callback and then unregistering it returns
    normally.  When the callback was not registered for the event before,
    every event has the handlers it had.  When it was, the earlier
    registration is the one removed: the callback ends up last in the
    event's list. *)
Theorem add_then_remove_callback event callback t :
  ∃ t1 t2,
    add_callback event callback t = (t1, Ok tt)
    ∧ remove_callback event callback t1 = (t2, Ok tt)
    ∧ handlers_for event t2
      = match list_remove callback (handlers_for event t) with
        | Some l => l ++ [callback]
        | None => handlers_for event t
        end
    ∧ ∀ ev, ev ≠ event → handlers_for ev t2 = handlers_for ev t.
Proof.
  destruct (add_callback_run event callback t) as (t1 & H1 & Hh1 & Ho1).
  assert (Hrem : list_remove callback (handlers_for event t1)
                 = Some (match list_remove callback (handlers_for event t) with
                         | Some l => l ++ [callback]
                         | None => handlers_for event t
                         end)) by (rewrite Hh1; apply list_remove_snoc).
  destruct (remove_callback_run event callback t1 _ Hrem) as (t2 & H2 & Hh2 & Ho2).
  exists t1, t2. split; [exact H1|]. split; [exact H2|]. split; [exact Hh2|].
  intros ev Hne. by rewrite Ho2, Ho1.
Qed.

(** X4.  After [set_callback] with one handler and [add_callback] with a
    second, the event has exactly these two handlers, the replacement first,
    whatever was registered before and also when the two are the same
    callback; a dispatch that returns has called the first and then the
    second. *)
Theorem set_then_add_callback event first second args kwargs t :
  ∃ t2,
    (add_callback event second (set_callback event first t).1) = (t2, Ok tt)
    ∧ handlers_for event t2 = [first; second]
    ∧ ((trigger_callbacks event args kwargs t2).2 = Ok tt →
       trace (trigger_callbacks event args kwargs t2).1
       = trace t ++ [Dispatch event; invocation args kwargs first;
                     invocation args kwargs second]).
Proof.
  destruct (set_callback_run event first t) as (t1 & H1 & Hh1 & _).
  rewrite H1. simpl.
  destruct (add_callback_run event second t1) as (t2 & H2 & Hh2 & _).
  exists t2. split; [exact H2|]. rewrite Hh1 in Hh2. split; [exact Hh2|].
  intros Hok.
  destruct (trigger_callbacks_run event args kwargs t2) as (t0 & Hstrip & _ & Hrun).
  rewrite Hrun in Hok |- *.
  destruct (deliver_loop args kwargs (handlers_for event t2) t0)
    as (done & rest & Hsplit & Htr & Hres).
  rewrite Hok in Hres. subst rest. rewrite app_nil_r in Hsplit. subst done.
  apply strip_trace in Hstrip. simpl in Hstrip.
  rewrite Htr, Hstrip, Hh2. simpl.
  assert (Ht : trace t2 = trace t).
  { assert (E1 : trace t1 = trace t) by (injection H1 as <-; done).
    unfold add_callback in H2.
    destruct (handlers_for_getitem event t1) as (s & Hget & Hs & _).
    rewrite (bind_Ok _ _ _ _ _ Hget) in H2. injection H2 as <-. simpl.
    apply strip_trace in Hs. congruence. }
  rewrite Ht. by rewrite <- app_assoc.
Qed.

Lemma callbacks_deliver_loop args kwargs hs :
  ∀ t, callbacks (for_each hs (deliver args kwargs) t).1 = callbacks t.
Proof.
  induction hs as [|h hs IH]; intros t; [done|]. simpl for_each.
  assert (Hd : ∃ s r, deliver args kwargs h t = (s, r) ∧ callbacks s = callbacks t).
  { unfold deliver. destruct (accepts h kwargs); rewrite invoke_run; eauto. }
  destruct Hd as (s & [[]|e] & Hd & Hs).
  - rewrite (bind_Ok _ _ _ _ _ Hd). by rewrite IH.
  - by rewrite (bind_Raise _ _ _ _ _ Hd).
Qed.

(** X14.  A dispatch changes the registry in one way only, whether its
    handlers return or raise: an event the registry has no entry for gets
    one, with an empty list, because the registry is a [defaultdict].  The
    same entry is left behind by a [remove_callback] under such an event,
    which raises [ValueError]. *)
Theorem lookup_registers_the_event event callback args kwargs t :
  callbacks (trigger_callbacks event args kwargs t).1
  = match callbacks t !! event with
    | Some _ => callbacks t
    | None => <[event := []]> (callbacks t)
    end
  ∧ (callbacks t !! event = None →
     remove_callback event callback t
     = (set_callbacks (<[event := []]> (callbacks t)) t, Raise ValueError)).
Proof.
  split.
  - unfold trigger_callbacks. rewrite bind_emit. unfold callbacks_getitem, bind at 1.
    change (callbacks (logged (Dispatch event) t)) with (callbacks t).
    destruct (callbacks t !! event) as [l|]; [|done].
    exact (callbacks_deliver_loop args kwargs l (logged (Dispatch event) t)).
  - intros Hnone. unfold remove_callback, callbacks_getitem, bind. by rewrite Hnone.
Qed.

(** ** The exact calls of a training epoch *)

Lemma train_step_events_advanced t t' evs n step batch loss :
  advanced t t' evs n →
  train_step_events t' step batch loss = train_step_events t step batch loss.
Proof.
  intros A. unfold train_step_events, train_batch_events, progress_events.
  rewrite !(dispatch_events_advanced _ _ _ _ _ _ _ A).
  rewrite !(steps_scheduler_on_advanced _ _ _ _ _ A).
  by rewrite (adv_cfg _ _ _ _ A), (adv_scheduler _ _ _ _ A), (adv_epoch_index _ _ _ _ A).
Qed.

Lemma train_loop_events_cons t step batch bs loss losses :
  train_loop_events t step (batch :: bs) (loss :: losses)
  = train_step_events t step batch loss ++ train_loop_events t (step + 1) bs losses.
Proof. done. Qed.

Lemma train_loop_events_advanced t t' evs n step bs losses :
  advanced t t' evs n →
  train_loop_events t' step bs losses = train_loop_events t step bs losses.
Proof.
  intros A. revert step losses. induction bs as [|b bs IH]; intros step [|loss losses]; try done.
  by rewrite !train_loop_events_cons, IH, (train_step_events_advanced _ _ _ _ _ _ _ A).
Qed.

Lemma train_loop_exact bs :
  quiet →
  ∀ step ts run t,
    log_every_n_steps (cfg t) ≠ 0 →
    ∃ t' losses,
      for_fold (enumerate bs step) (ts, run) train_step t
      = (t', Ok (fold_left Z.add (map size0 bs) ts, accumulate run (zip losses (map size0 bs))))
      ∧ length losses = length bs
      ∧ advanced t t' (train_loop_events t step bs losses) (Z.of_nat (length bs))
      ∧ (keeps_metrics → metrics_dict t' = metrics_dict t).
Proof.
  intros Hq. induction bs as [|b bs IH]; intros step ts run t Hn.
  - exists t, []. simpl. split; [done|]. split; [done|]. split; [apply advanced_refl | done].
  - simpl for_fold. simpl enumerate.
    destruct (train_step_advanced ts run step b t Hq Hn) as (t1 & loss & H1 & A1 & M1).
    simpl for_fold. rewrite (bind_Ok _ _ _ _ _ H1).
    assert (Hn1 : log_every_n_steps (cfg t1) ≠ 0) by by rewrite (adv_cfg _ _ _ _ A1).
    destruct (IH (step + 1) (ts + size0 b) (fadd run (fmul_int loss (size0 b))) t1 Hn1)
      as (t' & losses & H' & Hlen & A' & M').
    exists t', (loss :: losses). split; [exact H'|]. split; [simpl; by rewrite Hlen|]. split.
    + eapply advanced_chain; [exact A1 | exact A' | | simpl length; lia].
      by rewrite train_loop_events_cons, (train_loop_events_advanced _ _ _ _ _ _ _ A1).
    + intros Hk. rewrite (M' Hk). exact (M1 Hk).
Qed.

Lemma train_one_epoch_exact dataloader t :
  quiet → log_every_n_steps (cfg t) ≠ 0 → total_samples (sizes dataloader) ≠ 0 →
  ∃ t' losses,
    train_one_epoch dataloader t = (t', Ok (weighted_average losses (sizes dataloader)))
    ∧ length losses = length (batches dataloader)
    ∧ advanced t t' (train_epoch_events t dataloader losses) (len dataloader).
Proof.
  intros Hq Hn Hsamples. unfold train_one_epoch.
  destruct (trigger_callbacks_advanced TrainerEvent.ON_TRAIN_EPOCH_START []
              [("phase", PyStr TrainerPhase.TRAIN)] t Hq) as (t1 & H1 & A1 & M1).
  rewrite (bind_Ok _ _ _ _ _ H1). repeat run_step.
  set (t2 := logged (Iterate dataloader) (logged ModelTrain t1)).
  assert (A2 : advanced t1 t2 [ModelTrain; Iterate dataloader] 0).
  { subst t2. split; simpl; rewrite <- ?app_assoc, ?Z.add_0_r; done. }
  pose proof (advanced_trans _ _ _ _ _ _ _ A1 A2) as A12.
  assert (Hn2 : log_every_n_steps (cfg t2) ≠ 0) by by rewrite (adv_cfg _ _ _ _ A12).
  destruct (train_loop_exact (batches dataloader) Hq 1 0 fzero t2 Hn2)
    as (t3 & losses & H3 & Hlen & A3 & M3).
  rewrite (bind_Ok _ _ _ _ _ H3). simpl.
  unfold truediv.
  destruct (Z.eqb_spec (fold_left Z.add (map size0 (batches dataloader)) 0) 0) as [E|_];
    [done|].
  repeat run_step. unfold update_metrics. run_step.
  match goal with
  | |- context [bind (trigger_callbacks _ _ _) _ ?s] =>
      destruct (trigger_callbacks_advanced TrainerEvent.ON_TRAIN_EPOCH_END []
                  [("phase", PyStr TrainerPhase.TRAIN)] s Hq) as (t5 & H5 & A5 & M5);
      assert (A4 : advanced t3 s [] 0) by (split; simpl; rewrite ?app_nil_r, ?Z.add_0_r; done)
  end.
  rewrite (bind_Ok _ _ _ _ _ H5).
  pose proof (advanced_trans _ _ _ _ _ _ _ A12 A3) as A123.
  pose proof (advanced_trans _ _ _ _ _ _ _ A123 A4) as A1234.
  exists t5, losses. split; [done|]. split; [exact Hlen|].
  eapply advanced_chain; [exact A1234 | exact A5 | | unfold len; lia].
  rewrite (dispatch_events_advanced _ _ _ _ _ _ _ A1234).
  rewrite (train_loop_events_advanced _ _ _ _ _ _ _ A12).
  unfold train_epoch_events. rewrite ?app_nil_r. by rewrite <- ?app_assoc.
Qed.

(** ** Counting the calls of an epoch *)

Lemma count_calls_app p evs1 evs2 :
  count_calls p (evs1 ++ evs2) = (count_calls p evs1 + count_calls p evs2)%nat.
Proof. unfold count_calls. by rewrite List.filter_app, length_app. Qed.

Lemma count_calls_outline p evs :
  (∀ a, p a = true → plain a = true) →
  count_calls p (outline evs) = count_calls p evs.
Proof.
  intros Hp. unfold count_calls, outline. induction evs as [|a evs IH]; [done|]. simpl.
  destruct (plain a) eqn:Ha; simpl.
  - destruct (p a); simpl; by rewrite IH.
  - destruct (p a) eqn:Hpa; [apply Hp in Hpa; congruence | done].
Qed.

Lemma count_optimizer_train_step t batch :
  count_calls is_optimizer_step (train_step_outline t batch) = 1%nat.
Proof.
  unfold train_step_outline.
  by destruct (clip_truthy _), (steps_scheduler_on "batch" t), (steps_scheduler_on "epoch" t).
Qed.

Lemma count_clip_train_step t batch :
  count_calls is_clip_grad_norm (train_step_outline t batch)
  = if clip_truthy (clip_grad_norm (cfg t)) then 1%nat else 0%nat.
Proof.
  unfold train_step_outline.
  by destruct (clip_truthy _), (steps_scheduler_on "batch" t), (steps_scheduler_on "epoch" t).
Qed.

Lemma count_calls_concat_const p (f : DatasetYield → list action) bs k :
  (∀ b, count_calls p (f b) = k) →
  count_calls p (concat (map f bs)) = (length bs * k)%nat.
Proof.
  intros Hk. induction bs as [|b bs IH]; [done|].
  change (concat (map f (b :: bs))) with (f b ++ concat (map f bs)).
  rewrite count_calls_app, IH, Hk. simpl length. lia.
Qed.

Lemma count_calls_train_epoch_outline p t dataloader k :
  (∀ a, p a = true → is_training_call a = true) →
  (∀ b, count_calls p (train_step_outline t b) = k) →
  count_calls p (train_epoch_outline t dataloader) = (length (batches dataloader) * k)%nat.
Proof.
  intros Hp Hk. unfold train_epoch_outline. rewrite !count_calls_app.
  rewrite (count_calls_concat_const p _ _ k Hk).
  assert (H1 : count_calls p [Dispatch TrainerEvent.ON_TRAIN_EPOCH_START; ModelTrain;
                               Iterate dataloader] = 0%nat).
  { unfold count_calls. simpl.
    destruct (p (Dispatch _)) eqn:E1; [apply Hp in E1; discriminate|].
    destruct (p ModelTrain) eqn:E2; [apply Hp in E2; discriminate|].
    destruct (p (Iterate _)) eqn:E3; [apply Hp in E3; discriminate|]. done. }
  assert (H2 : count_calls p [Dispatch TrainerEvent.ON_TRAIN_EPOCH_END] = 0%nat).
  { unfold count_calls. simpl.
    destruct (p (Dispatch _)) eqn:E1; [apply Hp in E1; discriminate|]. done. }
  rewrite H1, H2. lia.
Qed.

Lemma count_training_valid_epoch_outline dataloader :
  count_calls is_training_call (valid_epoch_outline dataloader) = 0%nat.
Proof.
  unfold valid_epoch_outline. rewrite !count_calls_app.
  rewrite (count_calls_concat_const is_training_call _ _ 0%nat) by done.
  unfold count_calls. simpl. lia.
Qed.

(** X5.  In a training epoch that completes (no callback raising, cadence
    not zero, samples to average), [optimizer.step()] is called exactly
    once per batch, and [clip_grad_norm_] once per batch when
    [clip_grad_norm] is a non-empty dict and never when it is [None] or
    empty.  [scheduler.step()] is never called when there is no scheduler,
    nor when the granularity is neither ["batch"] nor ["epoch"]. *)
Theorem train_epoch_call_counts dataloader t :
  quiet → log_every_n_steps (cfg t) ≠ 0 → total_samples (sizes dataloader) ≠ 0 →
  ∃ t' loss evs,
    train_one_epoch dataloader t = (t', Ok loss)
    ∧ trace t' = trace t ++ evs
    ∧ count_calls is_optimizer_step evs = length (batches dataloader)
    ∧ count_calls is_clip_grad_norm evs
      = (if clip_truthy (clip_grad_norm (cfg t)) then length (batches dataloader) else 0%nat)
    ∧ (scheduler t = None → scheduler_steps evs = 0%nat)
    ∧ (step_scheduler_on_batch_or_epoch (cfg t) ≠ "batch" →
       step_scheduler_on_batch_or_epoch (cfg t) ≠ "epoch" → scheduler_steps evs = 0%nat).
Proof.
  intros Hq Hn Hsamples.
  destruct (train_one_epoch_advanced dataloader t Hq Hn Hsamples)
    as (t' & losses & evs & H & _ & A & Hout & _).
  exists t', (weighted_average losses (sizes dataloader)), evs.
  split; [exact H|]. split; [apply A|]. split; [|split; [|split]].
  - rewrite <- count_calls_outline, Hout by (by intros []).
    rewrite (count_calls_train_epoch_outline _ _ _ 1%nat);
      [lia | by intros [] | apply count_optimizer_train_step].
  - rewrite <- count_calls_outline, Hout by (by intros []).
    rewrite (count_calls_train_epoch_outline _ _ _
               (if clip_truthy (clip_grad_norm (cfg t)) then 1%nat else 0%nat));
      [destruct (clip_truthy _); lia | by intros [] | apply count_clip_train_step].
  - intros Hnone. rewrite <- scheduler_steps_outline, Hout, scheduler_steps_train_epoch_outline.
    unfold steps_scheduler_on. rewrite Hnone. lia.
  - intros Hb He. rewrite <- scheduler_steps_outline, Hout, scheduler_steps_train_epoch_outline.
    unfold steps_scheduler_on. destruct (scheduler t); [|lia].
    destruct (String.eqb_spec (step_scheduler_on_batch_or_epoch (cfg t)) "batch"); [done|].
    destruct (String.eqb_spec (step_scheduler_on_batch_or_epoch (cfg t)) "epoch"); [done|].
    lia.
Qed.

(** X6.  An evaluation epoch that completes (no callback raising, samples
    to average) makes no training call: no [zero_grad], no [backward], no
    gradient clipping, no optimizer step and no scheduler step; it logs no
    progress and leaves both counters as they were.  It does not read
    [log_every_n_steps], so it completes also when that is 0. *)
Theorem eval_epoch_trains_nothing dataloader t :
  quiet → total_samples (sizes dataloader) ≠ 0 →
  ∃ t' loss evs,
    valid_one_epoch dataloader t = (t', Ok loss)
    ∧ trace t' = trace t ++ evs
    ∧ count_calls is_training_call evs = 0%nat
    ∧ logged_epochs evs = []
    ∧ batch_index t' = batch_index t
    ∧ epoch_index t' = epoch_index t.
Proof.
  intros Hq Hsamples.
  destruct (valid_one_epoch_advanced dataloader t Hq Hsamples)
    as (t' & losses & evs & H & _ & A & Hout & _ & Hlog & _).
  exists t', (weighted_average losses (sizes dataloader)), evs.
  split; [exact H|]. split; [apply A|]. split.
  { rewrite <- count_calls_outline, Hout by (by intros []).
    apply count_training_valid_epoch_outline. }
  split; [exact Hlog|]. split; [|apply A].
  rewrite (adv_batch_index _ _ _ _ A). lia.
Qed.

Lemma dispatch_events_bare event t :
  dispatch_events event [] [] t
  = Dispatch event :: map (λ callback, Invoke callback [] []) (handlers_for event t).
Proof. reflexivity. Qed.

(** X21.  The calls of one batch, when no callback raises, in order.  A
    training batch: the handlers of [on_train_batch_start], each with the
    trainer alone; the batch moved to the device; the forward pass and the
    criterion; [zero_grad], then [backward], then the loss read; gradient
    clipping, if configured; the optimizer step; the scheduler step, with a
    scheduler and granularity ["batch"]; the handlers of
    [on_train_batch_end].  An evaluation batch: inside a no-grad scope, the
    handlers of [on_valid_batch_start], the move, the forward pass, the
    criterion, the loss read and the handlers of [on_valid_batch_end].  Both
    return the loss read and that loss times the batch size. *)
Theorem batch_calls_in_order batch t :
  quiet →
  (∃ t' loss,
     _train_one_batch batch t = (t', Ok (loss, fmul_int loss (size0 batch)))
     ∧ trace t'
       = trace t
         ++ Dispatch TrainerEvent.ON_TRAIN_BATCH_START
            :: map (λ callback, Invoke callback [] [])
                 (handlers_for TrainerEvent.ON_TRAIN_BATCH_START t)
         ++ [MoveToDevice batch; Forward; Criterion; ZeroGrad; Backward; LossItem loss]
         ++ (if clip_truthy (clip_grad_norm (cfg t)) then [ClipGradNorm] else [])
         ++ [OptimizerStep]
         ++ (if steps_scheduler_on "batch" t then [SchedulerStep] else [])
         ++ Dispatch TrainerEvent.ON_TRAIN_BATCH_END
            :: map (λ callback, Invoke callback [] [])
                 (handlers_for TrainerEvent.ON_TRAIN_BATCH_END t))
  ∧ (∃ t' loss,
       _valid_one_batch batch t = (t', Ok (loss, fmul_int loss (size0 batch)))
       ∧ trace t'
         = trace t
           ++ [NoGradEnter]
           ++ Dispatch TrainerEvent.ON_VALID_BATCH_START
              :: map (λ callback, Invoke callback [] [])
                   (handlers_for TrainerEvent.ON_VALID_BATCH_START t)
           ++ [MoveToDevice batch; Forward; Criterion; LossItem loss]
           ++ Dispatch TrainerEvent.ON_VALID_BATCH_END
              :: map (λ callback, Invoke callback [] [])
                   (handlers_for TrainerEvent.ON_VALID_BATCH_END t)
           ++ [NoGradExit]).
Proof.
  intros Hq. split.
  - destruct (_train_one_batch_advanced batch t Hq) as (t' & loss & H & A & _).
    exists t', loss. split; [exact H|]. rewrite (adv_trace _ _ _ _ A).
    unfold train_batch_events. by rewrite !dispatch_events_bare.
  - destruct (_valid_one_batch_advanced batch t Hq) as (t' & loss & H & A & _).
    exists t', loss. split; [exact H|]. rewrite (adv_trace _ _ _ _ A).
    unfold valid_batch_events. by rewrite !dispatch_events_bare.
Qed.

(** ** The logging cadence *)

Lemma logged_steps_app evs1 evs2 :
  logged_steps (evs1 ++ evs2) = logged_steps evs1 ++ logged_steps evs2.
Proof. apply omap_app. Qed.

Lemma logged_steps_dispatch_events event args kwargs t :
  logged_steps (dispatch_events event args kwargs t) = [].
Proof.
  unfold dispatch_events, logged_steps. simpl.
  induction (handlers_for event t) as [|h hs IH]; [done|]. simpl.
  unfold invocation at 1. by destruct (accepts h kwargs).
Qed.

Lemma lr_reads_dispatch_events event args kwargs t :
  count_calls is_get_last_lr (dispatch_events event args kwargs t) = 0%nat.
Proof.
  unfold dispatch_events, count_calls. simpl.
  induction (handlers_for event t) as [|h hs IH]; [done|]. simpl.
  unfold invocation at 1. by destruct (accepts h kwargs).
Qed.

Lemma logged_steps_train_step_events t step batch loss :
  logged_steps (train_step_events t step batch loss)
  = if step `mod` log_every_n_steps (cfg t) =? 0 then [step] else [].
Proof.
  unfold train_step_events, train_batch_events, progress_events.
  rewrite !logged_steps_app, !logged_steps_dispatch_events.
  destruct (clip_truthy _), (steps_scheduler_on "batch" t), (steps_scheduler_on "epoch" t),
    (_ =? 0), (bool_decide (is_Some (scheduler t))); reflexivity.
Qed.

Lemma lr_reads_train_step_events t step batch loss :
  count_calls is_get_last_lr (train_step_events t step batch loss)
  = if step `mod` log_every_n_steps (cfg t) =? 0
    then (if bool_decide (is_Some (scheduler t)) then 1%nat else 0%nat)
    else 0%nat.
Proof.
  unfold train_step_events, train_batch_events, progress_events.
  rewrite !count_calls_app, !lr_reads_dispatch_events.
  destruct (clip_truthy _), (steps_scheduler_on "batch" t), (steps_scheduler_on "epoch" t),
    (_ =? 0), (bool_decide (is_Some (scheduler t))); reflexivity.
Qed.

Lemma seqZ_S (m : Z) (n : nat) :
  seqZ m (Z.of_nat (S n)) = m :: seqZ (m + 1) (Z.of_nat n).
Proof.
  rewrite seqZ_cons by lia. f_equal. f_equal; lia.
Qed.

Lemma logged_steps_train_loop_events t bs :
  ∀ step losses, length losses = length bs →
    logged_steps (train_loop_events t step bs losses)
    = List.filter (λ i, i `mod` log_every_n_steps (cfg t) =? 0)
        (seqZ step (Z.of_nat (length bs))).
Proof.
  induction bs as [|b bs IH]; intros step [|loss losses] Hlen; try done.
  rewrite train_loop_events_cons, logged_steps_app, logged_steps_train_step_events.
  rewrite IH by (simpl in Hlen; lia).
  simpl length. rewrite seqZ_S. simpl.
  by destruct (step `mod` log_every_n_steps (cfg t) =? 0).
Qed.

Lemma lr_reads_train_loop_events t bs :
  ∀ step losses, length losses = length bs →
    count_calls is_get_last_lr (train_loop_events t step bs losses)
    = if bool_decide (is_Some (scheduler t))
      then length (List.filter (λ i, i `mod` log_every_n_steps (cfg t) =? 0)
                     (seqZ step (Z.of_nat (length bs))))
      else 0%nat.
Proof.
  induction bs as [|b bs IH]; intros step [|loss losses] Hlen; try done.
  - by destruct (bool_decide _).
  - rewrite train_loop_events_cons, count_calls_app, lr_reads_train_step_events.
    rewrite IH by (simpl in Hlen; lia).
    simpl length. rewrite seqZ_S. simpl.
    by destruct (step `mod` log_every_n_steps (cfg t) =? 0), (bool_decide _).
Qed.

(** X7.  In a training epoch of B batches that completes, progress is
    logged for exactly the batches whose number, counted from 1, is a
    multiple of [log_every_n_steps], in order, and the learning rate is
    read from the scheduler once for each of them when a scheduler is
    configured and never otherwise. *)
Theorem train_epoch_logs_on_cadence dataloader t :
  quiet → log_every_n_steps (cfg t) ≠ 0 → total_samples (sizes dataloader) ≠ 0 →
  ∃ t' loss evs,
    train_one_epoch dataloader t = (t', Ok loss)
    ∧ trace t' = trace t ++ evs
    ∧ logged_steps evs
      = List.filter (λ i, i `mod` log_every_n_steps (cfg t) =? 0)
          (seqZ 1 (len dataloader))
    ∧ count_calls is_get_last_lr evs
      = (if bool_decide (is_Some (scheduler t)) then length (logged_steps evs) else 0%nat).
Proof.
  intros Hq Hn Hsamples.
  destruct (train_one_epoch_exact dataloader t Hq Hn Hsamples) as (t' & losses & H & Hlen & A).
  exists t', (weighted_average losses (sizes dataloader)), (train_epoch_events t dataloader losses).
  split; [exact H|]. split; [apply A|].
  assert (Hsteps : logged_steps (train_epoch_events t dataloader losses)
                   = List.filter (λ i, i `mod` log_every_n_steps (cfg t) =? 0)
                       (seqZ 1 (len dataloader))).
  { unfold train_epoch_events.
    rewrite !logged_steps_app, !logged_steps_dispatch_events.
    rewrite (logged_steps_train_loop_events _ _ _ _ Hlen). simpl. by rewrite app_nil_r. }
  split; [exact Hsteps|]. rewrite Hsteps.
  unfold train_epoch_events.
  rewrite !count_calls_app, !lr_reads_dispatch_events.
  rewrite (lr_reads_train_loop_events _ _ _ _ Hlen). unfold len.
  change (count_calls is_get_last_lr [ModelTrain; Iterate dataloader]) with 0%nat.
  destruct (bool_decide _); lia.
Qed.

(** X8.  An epoch that completes, with callbacks that leave the metrics
    alone, stores the average it returns under its own key,
    ["train_this_epoch_average_loss"] for a training epoch and
    ["valid_this_epoch_average_loss"] for an evaluation epoch, replacing what
    was there, and changes no other metric. *)
Theorem epoch_records_its_average dataloader t :
  quiet → keeps_metrics → log_every_n_steps (cfg t) ≠ 0 →
  total_samples (sizes dataloader) ≠ 0 →
  (∃ t' loss,
     train_one_epoch dataloader t = (t', Ok loss)
     ∧ metrics_dict t' !! "train_this_epoch_average_loss" = Some loss
     ∧ ∀ key, key ≠ "train_this_epoch_average_loss" →
              metrics_dict t' !! key = metrics_dict t !! key)
  ∧ (∃ t' loss,
       valid_one_epoch dataloader t = (t', Ok loss)
       ∧ metrics_dict t' !! "valid_this_epoch_average_loss" = Some loss
       ∧ ∀ key, key ≠ "valid_this_epoch_average_loss" →
                metrics_dict t' !! key = metrics_dict t !! key).
Proof.
  intros Hq Hk Hn Hsamples. split.
  - destruct (train_one_epoch_advanced dataloader t Hq Hn Hsamples)
      as (t' & losses & evs & H & _ & _ & _ & _ & _ & M).
    exists t', (weighted_average losses (sizes dataloader)). split; [exact H|].
    rewrite (M Hk). split; [by rewrite lookup_insert_eq|].
    intros key Hne. by rewrite lookup_insert_ne.
  - destruct (valid_one_epoch_advanced dataloader t Hq Hsamples)
      as (t' & losses & evs & H & _ & _ & _ & _ & _ & M).
    exists t', (weighted_average losses (sizes dataloader)). split; [exact H|].
    rewrite (M Hk). split; [by rewrite lookup_insert_eq|].
    intros key Hne. by rewrite lookup_insert_ne.
Qed.

(** ** More of [fit] *)

Lemma markers_eval_outline loader : markers (eval_outline loader) = eval_markers loader.
Proof.
  destruct loader as [dataloader|]; [|done]. unfold eval_outline, eval_markers.
  destruct (loader_truthy (Some dataloader)); [|done].
  apply markers_valid_epoch_outline.
Qed.

(** X9.  [fit] passes over an evaluation loader only when the loader was
    given and has at least one batch.  When no callback raises, the logging
    cadence is not zero, the training loader yields samples and so does each
    evaluation loader that has batches, [fit] returns the state, and its
    course is [on_fit_start], then [max_epochs] times the training epoch
    followed by the evaluation epochs of the loaders that were given and are
    not empty, validation before test, then [on_fit_end].  A loader that is
    [None] or yields no batch is passed over in silence. *)
Theorem fit_skips_absent_and_empty_loaders train_loader valid_loader test_loader t :
  quiet → log_every_n_steps (cfg t) ≠ 0 →
  total_samples (sizes train_loader) ≠ 0 → evaluable valid_loader → evaluable test_loader →
  ∃ t' evs,
    fit train_loader valid_loader test_loader t = (t', Ok (state t'))
    ∧ trace t' = trace t ++ evs
    ∧ markers evs
      = [Dispatch TrainerEvent.ON_FIT_START]
        ++ concat (replicate (Z.to_nat (max_epochs (cfg t)))
                     ([Dispatch TrainerEvent.ON_TRAIN_EPOCH_START; ModelTrain;
                       Iterate train_loader; Dispatch TrainerEvent.ON_TRAIN_EPOCH_END]
                      ++ eval_markers valid_loader ++ eval_markers test_loader))
        ++ [Dispatch TrainerEvent.ON_FIT_END].
Proof.
  intros Hq Hn Htrain Hvalid Htest.
  destruct (fit_fitted train_loader valid_loader test_loader t Hq Hn Htrain Hvalid Htest)
    as (t' & evs & H & A & Hout & _).
  exists t', evs. split; [exact H|]. split; [apply A|].
  rewrite <- markers_outline, Hout. unfold fit_outline, fit_epoch_outline.
  rewrite !markers_app, markers_concat_replicate, !markers_app.
  by rewrite markers_train_epoch_outline, !markers_eval_outline.
Qed.

Lemma seqZ_nonpos (m n : Z) : n ≤ 0 → seqZ m n = [].
Proof. intros Hle. unfold seqZ. by replace (Z.to_nat n) with 0%nat by lia. Qed.

(** X10.  With [max_epochs] zero or negative and callbacks that do not
    raise, [fit] runs no epoch, whatever the loaders are: it stores the three
    loaders, dispatches [on_fit_start] and then [on_fit_end], and returns the
    state, with the counters and the three losses as they were. *)
Theorem fit_without_epochs train_loader valid_loader test_loader t :
  quiet → max_epochs (cfg t) ≤ 0 →
  ∃ t',
    fit train_loader valid_loader test_loader t = (t', Ok (state t'))
    ∧ trace t' = trace t ++ dispatch_events TrainerEvent.ON_FIT_START [] [] t
                         ++ dispatch_events TrainerEvent.ON_FIT_END [] [] t
    ∧ (train_dataloader t', valid_dataloader t', test_dataloader t')
      = (Some train_loader, valid_loader, test_loader)
    ∧ epoch_index t' = epoch_index t ∧ batch_index t' = batch_index t
    ∧ (train_loss t', valid_loss t', test_loss t') = (train_loss t, valid_loss t, test_loss t).
Proof.
  intros Hq Hle. unfold fit. run_step.
  set (t0 := set_dataloaders (Some train_loader) valid_loader test_loader t).
  destruct (trigger_callbacks_advanced TrainerEvent.ON_FIT_START [] [] t0 Hq)
    as (t1 & H1 & A1 & _).
  rewrite (bind_Ok _ _ _ _ _ H1). run_step.
  rewrite (adv_cfg _ _ _ _ A1). change (cfg t0) with (cfg t).
  rewrite (seqZ_nonpos _ _ Hle). simpl for_each. run_step.
  destruct (trigger_callbacks_advanced TrainerEvent.ON_FIT_END [] [] t1 Hq)
    as (t2 & H2 & A2 & _).
  rewrite (bind_Ok _ _ _ _ _ H2).
  exists t2. split; [done|].
  pose proof (advanced_trans _ _ _ _ _ _ _ A1 A2) as A.
  assert (L : ∀ event s s',
            trigger_callbacks event [] [] s = (s', Ok tt) →
            (train_dataloader s', valid_dataloader s', test_dataloader s')
            = (train_dataloader s, valid_dataloader s, test_dataloader s)).
  { intros event s s' Hrun.
    assert (Hfst : (trigger_callbacks event [] [] s).1 = s') by by rewrite Hrun.
    rewrite <- Hfst.
    apply (preserves_trigger_callbacks
             (untouched (λ t, (train_dataloader t, valid_dataloader t, test_dataloader t)))).
    by apply dispatch_safe_untouched. }
  split; [|split; [|split; [|split]]].
  - rewrite (adv_trace _ _ _ _ A).
    by rewrite (dispatch_events_advanced _ _ _ _ _ _ _ A1).
  - by rewrite (L _ _ _ H2), (L _ _ _ H1).
  - by rewrite (adv_epoch_index _ _ _ _ A).
  - rewrite (adv_batch_index _ _ _ _ A). simpl. lia.
  - by rewrite (adv_losses _ _ _ _ A).
Qed.

(** X11.  [fit] over a training loader that yields no batch, with
    [max_epochs] at least one and callbacks that do not raise, raises
    [ZeroDivisionError] in its first epoch.  By then it has dispatched
    [on_fit_start] and [on_train_epoch_start] and counted the epoch:
    [epoch_index] stays incremented, no loss is stored, and neither
    [on_train_epoch_end] nor [on_fit_end] is dispatched. *)
Theorem fit_over_empty_training_loader train_loader valid_loader test_loader t :
  quiet → 0 < max_epochs (cfg t) → batches train_loader = [] →
  ∃ t',
    fit train_loader valid_loader test_loader t = (t', Raise ZeroDivisionError)
    ∧ trace t' = trace t ++ dispatch_events TrainerEvent.ON_FIT_START [] [] t
                         ++ dispatch_events TrainerEvent.ON_TRAIN_EPOCH_START []
                              [("phase", PyStr TrainerPhase.TRAIN)] t
                         ++ [ModelTrain; Iterate train_loader]
    ∧ epoch_index t' = epoch_index t + 1
    ∧ batch_index t' = batch_index t
    ∧ (train_loss t', valid_loss t', test_loss t') = (train_loss t, valid_loss t, test_loss t).
Proof.
  intros Hq Hpos Hnil. unfold fit. run_step.
  set (t0 := set_dataloaders (Some train_loader) valid_loader test_loader t).
  destruct (trigger_callbacks_advanced TrainerEvent.ON_FIT_START [] [] t0 Hq)
    as (t1 & H1 & A1 & _).
  rewrite (bind_Ok _ _ _ _ _ H1). run_step.
  rewrite (adv_cfg _ _ _ _ A1). change (cfg t0) with (cfg t).
  rewrite seqZ_cons by exact Hpos. simpl for_each. rewrite bind_bind.
  unfold fit_epoch. repeat run_step.
  set (t2 := set_epoch_index (epoch_index t1 + 1) t1).
  unfold train_one_epoch. rewrite Hnil. repeat run_step.
  destruct (trigger_callbacks_advanced TrainerEvent.ON_TRAIN_EPOCH_START []
              [("phase", PyStr TrainerPhase.TRAIN)] t2 Hq) as (t3 & H3 & A3 & _).
  rewrite (bind_Ok _ _ _ _ _ H3). repeat run_step. simpl.
  eexists. split; [reflexivity|]. simpl.
  split; [|split; [|split]].
  - rewrite (adv_trace _ _ _ _ A3). subst t2. simpl.
    rewrite (adv_trace _ _ _ _ A1). subst t0. simpl.
    assert (E : dispatch_events TrainerEvent.ON_TRAIN_EPOCH_START []
                  [("phase", PyStr TrainerPhase.TRAIN)]
                  (set_epoch_index (epoch_index t1 + 1) t1)
                = dispatch_events TrainerEvent.ON_TRAIN_EPOCH_START []
                    [("phase", PyStr TrainerPhase.TRAIN)] t).
    { unfold dispatch_events. f_equal. f_equal.
      change (handlers_for TrainerEvent.ON_TRAIN_EPOCH_START
                (set_epoch_index (epoch_index t1 + 1) t1))
        with (handlers_for TrainerEvent.ON_TRAIN_EPOCH_START t1).
      by rewrite (adv_handlers_for _ _ _ _ A1). }
    rewrite E.
    change (dispatch_events TrainerEvent.ON_FIT_START [] []
              (set_dataloaders (Some train_loader) valid_loader test_loader t))
      with (dispatch_events TrainerEvent.ON_FIT_START [] [] t).
    by rewrite <- !app_assoc.
  - rewrite (adv_epoch_index _ _ _ _ A3). subst t2. simpl.
    by rewrite (adv_epoch_index _ _ _ _ A1).
  - rewrite (adv_batch_index _ _ _ _ A3). subst t2. simpl.
    rewrite (adv_batch_index _ _ _ _ A1). simpl. lia.
  - rewrite (adv_losses _ _ _ _ A3). subst t2. simpl.
    by rewrite (adv_losses _ _ _ _ A1).
Qed.

(** X12.  With [log_every_n_steps] zero, a training epoch over a loader
    with at least one batch raises [ZeroDivisionError] on the cadence test
    of the first batch, after that batch has been trained in full: its
    optimizer step is taken and [batch_index] counts it.  No further batch is
    handled, nothing is logged, and [on_train_epoch_end] is not
    dispatched. *)
Theorem zero_cadence_raises_after_first_batch dataloader batch rest t :
  quiet → log_every_n_steps (cfg t) = 0 → batches dataloader = batch :: rest →
  ∃ t' loss,
    train_one_epoch dataloader t = (t', Raise ZeroDivisionError)
    ∧ trace t' = trace t ++ dispatch_events TrainerEvent.ON_TRAIN_EPOCH_START []
                              [("phase", PyStr TrainerPhase.TRAIN)] t
                         ++ [ModelTrain; Iterate dataloader]
                         ++ train_batch_events t batch loss
    ∧ batch_index t' = batch_index t + 1.
Proof.
  intros Hq Hzero Hbatches. unfold train_one_epoch. rewrite Hbatches.
  destruct (trigger_callbacks_advanced TrainerEvent.ON_TRAIN_EPOCH_START []
              [("phase", PyStr TrainerPhase.TRAIN)] t Hq) as (t1 & H1 & A1 & _).
  rewrite (bind_Ok _ _ _ _ _ H1). repeat run_step.
  set (t2 := logged (Iterate dataloader) (logged ModelTrain t1)).
  assert (A2 : advanced t1 t2 [ModelTrain; Iterate dataloader] 0).
  { subst t2. split; simpl; rewrite <- ?app_assoc, ?Z.add_0_r; done. }
  pose proof (advanced_trans _ _ _ _ _ _ _ A1 A2) as A12.
  simpl enumerate. simpl for_fold. rewrite bind_bind. unfold train_step at 1.
  destruct (_train_one_batch_advanced batch t2 Hq) as (t3 & loss & H3 & A3 & _).
  rewrite bind_bind, (bind_Ok _ _ _ _ _ H3). simpl. repeat run_step.
  pose proof (advanced_trans _ _ _ _ _ _ _ A12 A3) as A.
  rewrite (adv_cfg _ _ _ _ A), Hzero. unfold divides. simpl.
  exists t3, loss. split; [reflexivity|]. split.
  - rewrite (adv_trace _ _ _ _ A). f_equal. rewrite <- !app_assoc. f_equal. f_equal.
    unfold train_batch_events.
    rewrite !(dispatch_events_advanced _ _ _ _ _ _ _ A12).
    by rewrite (steps_scheduler_on_advanced _ _ _ _ _ A12), (adv_cfg _ _ _ _ A12).
  - rewrite (adv_batch_index _ _ _ _ A). lia.
Qed.

(** ** The learning rates of the optimizer *)

Lemma lrs_of_Value (param_groups : list (gmap string F)) (lrs : list F) :
  lrs_of param_groups = Value lrs ↔ Forall2 (λ g lr, g !! "lr" = Some lr) param_groups lrs.
Proof.
  revert lrs. induction param_groups as [|g gs IH]; intros lrs; simpl.
  - split.
    + intros [= <-]. constructor.
    + intros H. by inversion H.
  - unfold getitem_lr. destruct (g !! "lr") as [lr|] eqn:E.
    + destruct (lrs_of gs) as [lrs'|key] eqn:E'.
      * split.
        -- intros [= <-]. constructor; [done|]. by apply IH.
        -- intros H. inversion H as [|? lr0 ? lrs0 Hg Hgs]; subst.
           apply IH in Hgs. congruence.
      * split; [done|]. intros H. inversion H as [|? lr0 ? lrs0 Hg Hgs]; subst.
        apply IH in Hgs. congruence.
    + split; [done|]. intros H. inversion H; congruence.
Qed.

Lemma lrs_of_KeyError (param_groups : list (gmap string F)) key :
  lrs_of param_groups = KeyError key → key = "lr" ∧ Exists (λ g, g !! "lr" = None) param_groups.
Proof.
  induction param_groups as [|g gs IH]; simpl; [done|].
  unfold getitem_lr. destruct (g !! "lr") as [lr|] eqn:E.
  - destruct (lrs_of gs) as [lrs'|key'] eqn:E'; [done|].
    intros [= <-]. destruct (IH eq_refl) as [-> Hex]. split; [done|]. by right.
  - intros [= <-]. split; [done|]. by left.
Qed.

(** X13.  [_get_current_lr_or_lrs] answers with a single number exactly
    when the optimizer has one parameter group, and with a list otherwise, the
    empty list for no group.  The list has one rate per group, in the order of
    the groups, each the group's ["lr"] entry.  The call fails, with
    [KeyError] for ["lr"], exactly when some group has no ["lr"] entry. *)
Theorem current_lr_or_lrs (param_groups : list (gmap string F)) :
  match _get_current_lr_or_lrs param_groups with
  | Value (inl lr) => ∃ g, param_groups = [g] ∧ g !! "lr" = Some lr
  | Value (inr lrs) =>
      length param_groups ≠ 1%nat
      ∧ Forall2 (λ g lr, g !! "lr" = Some lr) param_groups lrs
  | KeyError key => key = "lr" ∧ Exists (λ g, g !! "lr" = None) param_groups
  end.
Proof.
  destruct param_groups as [|g [|g' gs]].
  - simpl. split; [done | constructor].
  - simpl. unfold getitem_lr. destruct (g !! "lr") as [lr|] eqn:E.
    + by exists g.
    + split; [done|]. by left.
  - unfold _get_current_lr_or_lrs.
    destruct (lrs_of (g :: g' :: gs)) as [lrs|key] eqn:E.
    + split; [done|]. by apply lrs_of_Value.
    + by apply lrs_of_KeyError.
Qed.

End TrainerFacts.

(** * Facts about the vocabularies *)

(** ** Building the two dicts *)

Lemma last_occurrence `{EqDecision A} (x : A) (l : list A) :
  x ∈ l → ∃ k : nat, l !! k = Some x ∧ (x ∉ drop (S k) l).
Proof.
  induction l as [|y l IH]; intros Hin; [by apply elem_of_nil in Hin|].
  destruct (decide (x ∈ l)) as [Hl|Hl].
  - destruct (IH Hl) as (k & Hk & Hnot). by exists (S k).
  - apply elem_of_cons in Hin as [->|Hin]; [|done]. exists 0%nat. split; [done|].
    simpl. by rewrite drop_0.
Qed.

Lemma index_tokens_fold (tokens : list str) :
  ∀ (start : Z) (d : gmap str Z) (token : str) (idx : Z),
    fold_left (λ d '(idx, token), <[token := idx]> d) (enumerate tokens start) d !! token
    = Some idx
    ↔ (∃ k : nat, idx = start + Z.of_nat k ∧ tokens !! k = Some token
                  ∧ (token ∉ drop (S k) tokens))
      ∨ ((token ∉ tokens) ∧ d !! token = Some idx).
Proof.
  induction tokens as [|x xs IH]; intros start d token idx.
  - simpl. split.
    + intros H. right. split; [apply not_elem_of_nil | done].
    + intros [(k & _ & Hk & _)|[_ H]]; [by rewrite lookup_nil in Hk | done].
  - simpl enumerate. simpl fold_left. rewrite IH. split.
    + intros [(k & -> & Hk & Hnot)|[Hnot Hd]].
      * left. exists (S k). split; [lia|]. by split.
      * destruct (decide (x = token)) as [->|Hne].
        -- rewrite lookup_insert_eq in Hd. injection Hd as <-. left. exists 0%nat.
           split; [lia|]. split; [done|]. simpl. by rewrite drop_0.
        -- rewrite lookup_insert_ne in Hd by done. right. split; [|done].
           by apply not_elem_of_cons.
    + intros [(k & -> & Hk & Hnot)|[Hnot Hd]].
      * destruct k as [|k].
        -- simpl in Hk. injection Hk as ->. simpl in Hnot. rewrite drop_0 in Hnot.
           right. split; [done|]. rewrite lookup_insert_eq. f_equal. lia.
        -- left. exists k. split; [lia|]. by split.
      * apply not_elem_of_cons in Hnot as [Hne Hnot]. right. split; [done|].
        by rewrite lookup_insert_ne.
Qed.

Lemma index_tokens_Some (tokens : list str) (token : str) (idx : Z) :
  index_tokens (enumerate tokens 0) !! token = Some idx
  ↔ ∃ k : nat, idx = Z.of_nat k ∧ tokens !! k = Some token ∧ (token ∉ drop (S k) tokens).
Proof.
  unfold index_tokens. rewrite index_tokens_fold. split.
  - intros [(k & -> & H)|[_ H]]; [by exists k | by rewrite lookup_empty in H].
  - intros (k & -> & H). left. by exists k.
Qed.

Lemma index_tokens_None (tokens : list str) (token : str) :
  index_tokens (enumerate tokens 0) !! token = None ↔ token ∉ tokens.
Proof.
  split.
  - intros Hnone Hin. destruct (last_occurrence _ _ Hin) as (k & Hk & Hnot).
    assert (H : index_tokens (enumerate tokens 0) !! token = Some (Z.of_nat k))
      by (apply index_tokens_Some; by exists k).
    congruence.
  - intros Hnot. apply eq_None_not_Some. intros [idx H].
    apply index_tokens_Some in H as (k & _ & Hk & _).
    by apply Hnot, (list_elem_of_lookup_2 _ k).
Qed.

Lemma index_tokens_injective (tokens : list str) (t1 t2 : str) (idx : Z) :
  index_tokens (enumerate tokens 0) !! t1 = Some idx →
  index_tokens (enumerate tokens 0) !! t2 = Some idx → t1 = t2.
Proof.
  intros (k1 & -> & H1 & _)%index_tokens_Some (k2 & E & H2 & _)%index_tokens_Some.
  assert (k1 = k2) as -> by lia. congruence.
Qed.

Lemma invert_fold (pairs : list (str * Z)) :
  (∀ t1 t2 idx, (t1, idx) ∈ pairs → (t2, idx) ∈ pairs → t1 = t2) →
  ∀ (d : gmap Z str) (idx : Z) (token : str),
    fold_left (λ d '(token, idx), <[idx := token]> d) pairs d !! idx = Some token
    ↔ (token, idx) ∈ pairs ∨ ((idx ∉ pairs.*2) ∧ d !! idx = Some token).
Proof.
  induction pairs as [|[t0 i0] ps IH]; intros Hfun d idx token.
  - simpl. split.
    + intros H. right. split; [apply not_elem_of_nil | done].
    + intros [H|[_ H]]; [by apply elem_of_nil in H | done].
  - simpl fold_left. rewrite IH; last first.
    { intros t1 t2 i H1 H2. apply (Hfun t1 t2 i); by right. }
    rewrite fmap_cons. simpl. split.
    + intros [H|[Hnot Hd]]; [left; by right|].
      destruct (decide (i0 = idx)) as [->|Hne].
      * rewrite lookup_insert_eq in Hd. injection Hd as ->. left. by left.
      * rewrite lookup_insert_ne in Hd by done. right. split; [|done].
        apply not_elem_of_cons. split; [congruence | done].
    + intros [H|[Hnot Hd]].
      * apply elem_of_cons in H as [[= -> ->]|H]; [|by left].
        destruct (decide (i0 ∈ ps.*2)) as [Hin|Hnot].
        -- apply list_elem_of_fmap in Hin as ([t' i'] & E & Hin). simpl in E. subst i'.
           left. assert (t0 = t') as -> by (apply (Hfun t0 t' i0); [by left | by right]).
           done.
        -- right. split; [done|]. by rewrite lookup_insert_eq.
      * apply not_elem_of_cons in Hnot as [Hne Hnot]. right. split; [done|].
        by rewrite lookup_insert_ne.
Qed.

Lemma invert_items (token_to_index : gmap str Z) (pairs : list (str * Z)) :
  pairs ≡ₚ items token_to_index →
  (∀ t1 t2 idx, token_to_index !! t1 = Some idx → token_to_index !! t2 = Some idx → t1 = t2) →
  ∀ idx token, invert pairs !! idx = Some token ↔ token_to_index !! token = Some idx.
Proof.
  intros Hperm Hinj idx token. unfold invert.
  assert (Hin : ∀ t i, (t, i) ∈ pairs ↔ token_to_index !! t = Some i).
  { intros t i. rewrite Hperm. apply elem_of_map_to_list. }
  rewrite invert_fold.
  - rewrite Hin. split; [|by left]. intros [H|[_ H]]; [done | by rewrite lookup_empty in H].
  - intros t1 t2 i H1%Hin H2%Hin. by apply (Hinj t1 t2 i).
Qed.

Lemma invert_any_order (token_to_index : gmap str Z) (pairs : list (str * Z)) :
  pairs ≡ₚ items token_to_index →
  (∀ t1 t2 idx, token_to_index !! t1 = Some idx → token_to_index !! t2 = Some idx → t1 = t2) →
  invert pairs = invert (items token_to_index).
Proof.
  intros Hperm Hinj. apply map_eq. intros idx.
  pose proof (invert_items _ _ Hperm Hinj idx) as H1.
  pose proof (invert_items token_to_index _ (reflexivity _) Hinj idx) as H2.
  destruct (invert pairs !! idx) as [token|] eqn:E.
  - symmetry. by apply H2, H1.
  - symmetry. apply eq_None_not_Some. intros [token H]. apply H2, H1 in H. congruence.
Qed.

Lemma dom_index_tokens_fold (tokens : list str) :
  ∀ (start : Z) (d : gmap str Z),
    dom (fold_left (λ d '(idx, token), <[token := idx]> d) (enumerate tokens start) d)
    = list_to_set tokens ∪ dom d.
Proof.
  induction tokens as [|x xs IH]; intros start d; simpl.
  - by rewrite (left_id_L ∅ (∪)).
  - rewrite IH, dom_insert_L. by rewrite (assoc_L (∪)), (comm_L (∪) _ {[x]}).
Qed.

Lemma size_index_tokens (tokens : list str) :
  size (index_tokens (enumerate tokens 0)) = length (remove_dups tokens).
Proof.
  rewrite <- size_dom. unfold index_tokens. rewrite dom_index_tokens_fold, dom_empty_L.
  rewrite <- (size_list_to_set (C := gset str) (remove_dups tokens))
    by apply NoDup_remove_dups.
  f_equal. apply set_eq. intros x. rewrite elem_of_union, !elem_of_list_to_set.
  rewrite elem_of_remove_dups, elem_of_empty. tauto.
Qed.

Lemma remove_dups_length `{EqDecision A} (l : list A) :
  (length (remove_dups l) ≤ length l)%nat ∧ (length (remove_dups l) = length l ↔ NoDup l).
Proof.
  induction l as [|x l [IHle IHiff]]; simpl.
  - split; [lia|]. split; [constructor | done].
  - destruct (decide_rel elem_of x l) as [Hin|Hnot]; simpl.
    + split; [lia|]. split; [lia|]. intros H. by apply NoDup_cons in H as [? _].
    + split; [lia|]. rewrite NoDup_cons. split.
      * intros E. split; [done|]. apply IHiff. lia.
      * intros [_ H]. apply IHiff in H. lia.
Qed.

(** X15.  [from_tokens] numbers the tokens by position, from 0, and a
    token that occurs more than once keeps the position of its last
    occurrence: [token_to_index] holds a token exactly when the list has it,
    and maps it to the one position at which it occurs with no occurrence
    after. *)
Theorem from_tokens_last_occurrence (tokens : list str) (digits : Z) (token : str) :
  (∀ idx, token_to_index (from_tokens tokens digits) !! token = Some idx
          ↔ ∃ k : nat, idx = Z.of_nat k ∧ tokens !! k = Some token
                       ∧ (token ∉ drop (S k) tokens))
  ∧ (token_to_index (from_tokens tokens digits) !! token = None ↔ token ∉ tokens).
Proof.
  split.
  - intros idx. apply index_tokens_Some.
  - apply index_tokens_None.
Qed.

Lemma from_tokens_index_to_token (tokens : list str) (digits : Z) idx token :
  index_to_token (from_tokens tokens digits) !! idx = Some token
  ↔ token_to_index (from_tokens tokens digits) !! token = Some idx.
Proof.
  simpl. apply invert_items; [done|]. intros t1 t2 i. apply index_tokens_injective.
Qed.

(** X16.  The two dicts of [from_tokens] are inverse to each other:
    [index_to_token] maps an index to a token exactly when [token_to_index]
    maps the token to the index.  The order in which the items of
    [token_to_index] are gone through to build [index_to_token] makes no
    difference. *)
Theorem from_tokens_inverse_maps (tokens : list str) (digits : Z) :
  (∀ idx token,
     index_to_token (from_tokens tokens digits) !! idx = Some token
     ↔ token_to_index (from_tokens tokens digits) !! token = Some idx)
  ∧ (∀ pairs, pairs ≡ₚ items (token_to_index (from_tokens tokens digits)) →
              invert pairs = index_to_token (from_tokens tokens digits)).
Proof.
  split.
  - intros idx token. apply from_tokens_index_to_token.
  - intros pairs Hperm. simpl. apply invert_any_order; [done|].
    intros t1 t2 i. apply index_tokens_injective.
Qed.

(** X17.  The size of a vocabulary made by [from_tokens] is the number
    of distinct tokens.  It is the length of the token list exactly when no
    token is repeated; then every position is an index of the vocabulary.
    With a repeated token the size is smaller, and the positions of the
    earlier occurrences are indices of no token. *)
Theorem from_tokens_size (tokens : list str) (digits : Z) :
  AdderVocabulary.vocab_size (from_tokens tokens digits)
  = Z.of_nat (length (remove_dups tokens))
  ∧ (AdderVocabulary.vocab_size (from_tokens tokens digits) = Z.of_nat (length tokens)
     ↔ NoDup tokens)
  ∧ (∀ (k : nat) token,
       tokens !! k = Some token →
       index_to_token (from_tokens tokens digits) !! Z.of_nat k
       = if decide (token ∈ drop (S k) tokens) then None else Some token).
Proof.
  unfold AdderVocabulary.vocab_size, AdderVocabulary.__len__. simpl.
  rewrite size_index_tokens. split; [done|]. split.
  - rewrite <- (proj2 (remove_dups_length tokens)). lia.
  - intros k token Hk.
    assert (Hinv : ∀ idx t, invert (items (index_tokens (enumerate tokens 0))) !! idx = Some t
                            ↔ index_tokens (enumerate tokens 0) !! t = Some idx).
    { intros idx t. apply invert_items; [done|]. intros t1 t2 i. apply index_tokens_injective. }
    destruct (decide (token ∈ drop (S k) tokens)) as [Hin|Hnot].
    + apply eq_None_not_Some. intros [t H]. apply Hinv, index_tokens_Some in H.
      destruct H as (k' & E & Hk' & Hnot). assert (k' = k) as -> by lia.
      congruence.
    + apply Hinv, index_tokens_Some. by exists k.
Qed.

(** ** Encoding and decoding *)

Lemma join_app (l1 l2 : list str) : join (l1 ++ l2) = join l1 ++ join l2.
Proof. apply concat_app. Qed.

Lemma join_cons (x : str) (l : list str) : join (x :: l) = x ++ join l.
Proof. done. Qed.

Lemma comprehension_Value {A B} (f : A → checked B) (g : A → B) (l : list A) :
  (∀ x, f x = Value (g x)) → comprehension f l = Value (map g l).
Proof.
  intros Hf. induction l as [|x l IH]; simpl; [done|]. by rewrite Hf, IH.
Qed.

(** The four special tokens are dropped where they start; a character
    other than ["<"] starts none of them and is kept. *)
Lemma re_sub_special (special rest : str) :
  special ∈ specials →
  re_sub_literals specials 0 (special ++ rest) = re_sub_literals specials 0 rest.
Proof.
  unfold specials. rewrite !elem_of_cons, elem_of_nil.
  intros [->|[->|[->|[->|[]]]]]; reflexivity.
Qed.

Lemma find_None {A} (f : A → bool) (l : list A) :
  (∀ x, x ∈ l → f x = false) → List.find f l = None.
Proof.
  induction l as [|x l IH]; intros Hf; [done|]. simpl.
  rewrite (Hf x) by left. apply IH. intros y Hy. apply Hf. by right.
Qed.

Lemma re_sub_literals_unmatched (patterns : list str) (c : N) (rest : str) :
  List.find (λ p, starts_with p (c :: rest)) patterns = None →
  re_sub_literals patterns 0 (c :: rest) = c :: re_sub_literals patterns 0 rest.
Proof.
  intros H.
  change (re_sub_literals patterns 0 (c :: rest))
    with (match List.find (λ p, starts_with p (c :: rest)) patterns with
          | Some p => re_sub_literals patterns (Nat.pred (length p)) rest
          | None => c :: re_sub_literals patterns 0 rest
          end).
  by rewrite H.
Qed.

Lemma starts_with_other (c d : N) (p rest : str) :
  c ≠ d → starts_with (c :: p) (d :: rest) = false.
Proof. intros Hne. simpl. by destruct (N.eqb_spec c d). Qed.

Lemma re_sub_other (c : N) (rest : str) :
  [c] ≠ literal "<" →
  re_sub_literals specials 0 (c :: rest) = c :: re_sub_literals specials 0 rest.
Proof.
  intros Hne. apply re_sub_literals_unmatched, find_None.
  unfold specials. intros p. rewrite !elem_of_cons, elem_of_nil.
  intros [->|[->|[->|[->|[]]]]]; apply starts_with_other; intros <-; by apply Hne.
Qed.

Lemma piece_special (tokens : list str) (token : str) :
  token ∈ specials → piece tokens token ∈ specials.
Proof.
  intros H. unfold piece. destruct (decide (token ∈ tokens)); [done|].
  unfold specials. rewrite !elem_of_cons. tauto.
Qed.

Lemma re_sub_pieces (tokens : list str) (s rest : str) :
  (literal "<" ∉ tokens) →
  re_sub_literals specials 0 (join (map (piece tokens) (chars s)) ++ rest)
  = join (filter (λ token, token ∈ tokens) (chars s)) ++ re_sub_literals specials 0 rest.
Proof.
  intros Hlt. induction s as [|c s IH]; [done|].
  change (chars (c :: s)) with ([c] :: chars s).
  change (map (piece tokens) ([c] :: chars s))
    with (piece tokens [c] :: map (piece tokens) (chars s)).
  rewrite join_cons, <- app_assoc. unfold piece at 1.
  destruct (decide ([c] ∈ tokens)) as [Hin|Hnot].
  - rewrite decide_True by done. rewrite filter_cons_True by done. rewrite join_cons.
    change ([c] ++ ?l) with (c :: l).
    rewrite re_sub_other; [by rewrite IH|]. intros E. apply Hlt. by rewrite <- E.
  - rewrite decide_False by done. rewrite filter_cons_False by done.
    rewrite re_sub_special; [exact IH|]. unfold specials. rewrite !elem_of_cons. tauto.
Qed.

Lemma from_tokens_codes (tokens : list str) (digits unk : Z) (token : str) :
  token_to_index (from_tokens tokens digits) !! AdderVocabulary.UNK = Some unk →
  default AdderVocabulary.UNK
    (index_to_token (from_tokens tokens digits)
       !! default unk (token_to_index (from_tokens tokens digits) !! token))
  = piece tokens token.
Proof.
  intros Hunk. unfold piece.
  pose proof (from_tokens_index_to_token tokens digits) as Hinv.
  pose proof (index_tokens_None tokens token) as Hnone.
  change (index_tokens (enumerate tokens 0))
    with (token_to_index (from_tokens tokens digits)) in Hnone.
  destruct (token_to_index (from_tokens tokens digits) !! token) as [idx|] eqn:E.
  - change (default unk (Some idx)) with idx. rewrite (proj2 (Hinv idx token) E).
    destruct (decide (token ∈ tokens)) as [|Hnot]; [done|]. by apply Hnone in Hnot.
  - change (default unk None) with unk.
    rewrite (proj2 (Hinv unk AdderVocabulary.UNK) Hunk).
    destruct (decide (token ∈ tokens)) as [Hin|]; [|done]. by apply (proj1 Hnone) in Hin.
Qed.

Lemma length_chars (s : str) : length (chars s) = length s.
Proof. apply List.length_map. Qed.

Lemma join_chars (s : str) : join (chars s) = s.
Proof.
  induction s as [|c s IH]; [done|].
  change (chars (c :: s)) with ([c] :: chars s). by rewrite join_cons, IH.
Qed.

Lemma filter_all {A} (P : A → Prop) `{∀ x, Decision (P x)} (l : list A) :
  Forall P l → filter P l = l.
Proof.
  induction 1 as [|x l Hx Hl IH]; [done|]. by rewrite filter_cons_True, IH.
Qed.

(** X18.  [encode] evaluates [token_to_index["<UNK>"]] for every token,
    before it looks the token up.  With a vocabulary that has no ["<UNK>"]
    it therefore raises [KeyError] for every sequence that has a token, also
    when the vocabulary has all of them; only the empty sequence, without the
    special tokens, is encoded, to the empty list. *)
Theorem encode_needs_unk (self : Vocabulary) (sequence : str) (add_special_tokens : bool) :
  token_to_index self !! AdderVocabulary.UNK = None →
  (add_special_tokens = true ∨ sequence ≠ [] →
   AdderVocabulary.encode self sequence add_special_tokens = KeyError "<UNK>")
  ∧ AdderVocabulary.encode self [] false = Value [].
Proof.
  intros Hunk. split; [|done]. intros Hsome.
  unfold AdderVocabulary.encode, AdderVocabulary.tokenize.
  destruct add_special_tokens.
  - simpl. by rewrite Hunk.
  - destruct Hsome as [|Hne]; [done|]. destruct sequence as [|c s]; [done|].
    simpl. by rewrite Hunk.
Qed.

(** X19.  For a vocabulary made by [from_tokens] from a list that has
    ["<UNK>"] and not the one-character token ["<"]: [encode] returns one
    index per character (code point) of the sequence, and two more with
    the special tokens; decoding the indices without removing special
    tokens gives the tokens back, with ["<UNK>"] in place of each token
    the list does not have; decoding them with special tokens removed gives
    the characters of the sequence that the list has, in order, and so the
    sequence itself when the list has all of them. *)
Theorem encode_decode_round_trip (tokens : list str) (digits : Z) (sequence : str)
    (add_special_tokens : bool) :
  AdderVocabulary.UNK ∈ tokens → (literal "<" ∉ tokens) →
  ∃ codes,
    AdderVocabulary.encode (from_tokens tokens digits) sequence add_special_tokens
    = Value codes
    ∧ length codes
      = (length sequence + if add_special_tokens then 2 else 0)%nat
    ∧ AdderVocabulary.decode (from_tokens tokens digits) codes false
      = join (map (piece tokens) (AdderVocabulary.tokenize sequence add_special_tokens))
    ∧ AdderVocabulary.decode (from_tokens tokens digits) codes true
      = join (filter (λ token, token ∈ tokens) (chars sequence))
    ∧ (Forall (λ token, token ∈ tokens) (chars sequence) →
       AdderVocabulary.decode (from_tokens tokens digits) codes true = sequence).
Proof.
  intros Hunk Hlt. set (v := from_tokens tokens digits).
  destruct (token_to_index v !! AdderVocabulary.UNK) as [unk|] eqn:E; last first.
  { by apply index_tokens_None in E. }
  set (g := λ token, default unk (token_to_index v !! token)).
  exists (map g (AdderVocabulary.tokenize sequence add_special_tokens)).
  assert (Hdec : ∀ l, map (λ char, default AdderVocabulary.UNK (index_to_token v !! char))
                        (map g l) = map (piece tokens) l).
  { intros l. rewrite List.map_map. apply List.map_ext. intros token.
    by apply from_tokens_codes. }
  assert (Hstrip : AdderVocabulary.decode v
                     (map g (AdderVocabulary.tokenize sequence add_special_tokens)) true
                   = join (filter (λ token, token ∈ tokens) (chars sequence))).
  { unfold AdderVocabulary.decode. rewrite Hdec. fold specials.
    unfold AdderVocabulary.tokenize. destruct add_special_tokens.
    - rewrite !List.map_app. simpl map at 1. simpl app. rewrite join_cons.
      rewrite re_sub_special by (apply piece_special; unfold specials; rewrite !elem_of_cons; auto).
      rewrite join_app, re_sub_pieces by done. simpl map. rewrite join_cons.
      rewrite re_sub_special by (apply piece_special; unfold specials; rewrite !elem_of_cons; auto).
      simpl. by rewrite app_nil_r.
    - rewrite <- (app_nil_r (join (map (piece tokens) (chars sequence)))).
      rewrite re_sub_pieces by done. simpl. by rewrite app_nil_r. }
  split; [|split; [|split; [|split]]].
  - unfold AdderVocabulary.encode. apply comprehension_Value. intros token. by rewrite E.
  - rewrite List.length_map. unfold AdderVocabulary.tokenize.
    destruct add_special_tokens; simpl; rewrite ?length_app, length_chars; simpl; lia.
  - unfold AdderVocabulary.decode. by rewrite Hdec.
  - exact Hstrip.
  - intros Hall. rewrite Hstrip, filter_all by done. apply join_chars.
Qed.

(** ** The character vocabulary of a corpus *)

Lemma elem_of_chars (token : str) (s : str) :
  token ∈ chars s ↔ ∃ c, token = [c] ∧ c ∈ s.
Proof.
  induction s as [|d s IH].
  - split; [by intros ?%elem_of_nil | by intros (c & _ & ?%elem_of_nil)].
  - change (chars (d :: s)) with ([d] :: chars s). rewrite elem_of_cons, IH. split.
    + intros [->|(c & -> & Hc)]; [exists d; split; [done | by left]|].
      exists c. split; [done | by right].
    + intros (c & -> & [->|Hc]%elem_of_cons); [by left|]. right. by exists c.
Qed.

Lemma StronglySorted_lookup_lt {A} (R : relation A) (l : list A) (i j : nat) (a b : A) :
  StronglySorted R l → l !! i = Some a → l !! j = Some b → (i < j)%nat → R a b.
Proof.
  intros Hs. revert i j. induction Hs as [|x l Hs IH Hall]; intros i j Hi Hj Hlt.
  - by rewrite lookup_nil in Hi.
  - destruct j as [|j]; [lia|]. simpl in Hj. destruct i as [|i].
    + simpl in Hi. injection Hi as ->. rewrite Forall_lookup in Hall. by apply (Hall j).
    + simpl in Hi. apply (IH i j); [done | done | lia].
Qed.

Lemma index_tokens_NoDup (tokens : list str) (token : str) (idx : Z) :
  NoDup tokens →
  index_tokens (enumerate tokens 0) !! token = Some idx
  ↔ ∃ k : nat, idx = Z.of_nat k ∧ tokens !! k = Some token.
Proof.
  intros Hnd. rewrite index_tokens_Some. split.
  - intros (k & -> & Hk & _). by exists k.
  - intros (k & -> & Hk). exists k. split; [done|]. split; [done|].
    intros (j & Hj)%list_elem_of_lookup_1. rewrite lookup_drop in Hj.
    pose proof (NoDup_lookup _ _ _ _ Hnd Hk Hj). lia.
Qed.

(** X20.  [from_corpus] gives an index to each character that occurs in
    the corpus and to nothing else; the indices follow the code points: of
    two characters the one with the smaller code point has the smaller index.
    The indices are the numbers from 0 up to the vocabulary size, which is
    the number of distinct characters, and the two dicts are inverse to each
    other. *)
Theorem from_corpus_orders_characters (corpus : str) :
  let v := TextCharacterVocabulary.from_corpus corpus in
  (∀ token, is_Some (TextCharacterVocabulary.token_to_index v !! token)
            ↔ token ∈ chars corpus)
  ∧ (∀ (a b : N) i j,
       TextCharacterVocabulary.token_to_index v !! [a] = Some i →
       TextCharacterVocabulary.token_to_index v !! [b] = Some j →
       i < j ↔ (a < b)%N)
  ∧ (∀ idx token,
       TextCharacterVocabulary.index_to_token v !! idx = Some token
       ↔ TextCharacterVocabulary.token_to_index v !! token = Some idx)
  ∧ (∀ idx, is_Some (TextCharacterVocabulary.index_to_token v !! idx)
            ↔ 0 ≤ idx < TextCharacterVocabulary.vocab_size v)
  ∧ TextCharacterVocabulary.vocab_size v = Z.of_nat (length (remove_dups corpus)).
Proof.
  intros v.
  set (letters := merge_sort N.le (remove_dups corpus)).
  set (one := λ c : N, [c]).
  assert (Hinj : Inj (=) (=) one) by (intros a b [= ->]; done).
  assert (Hperm : letters ≡ₚ remove_dups corpus) by apply merge_sort_Permutation.
  assert (Hnd : NoDup letters) by (rewrite Hperm; apply NoDup_remove_dups).
  assert (Hsorted : StronglySorted N.le letters).
  { apply StronglySorted_merge_sort.
    - intros a b c. lia.
    - intros a b. lia. }
  assert (Hnd' : NoDup (one <$> letters)) by by apply NoDup_fmap_2.
  assert (Htti : ∀ token idx,
            TextCharacterVocabulary.token_to_index v !! token = Some idx
            ↔ ∃ k : nat, idx = Z.of_nat k ∧ (one <$> letters) !! k = Some token).
  { intros token idx. by apply index_tokens_NoDup. }
  assert (Hitt : ∀ idx token,
            TextCharacterVocabulary.index_to_token v !! idx = Some token
            ↔ TextCharacterVocabulary.token_to_index v !! token = Some idx).
  { intros idx token. simpl. apply invert_items; [done|].
    intros t1 t2 i. apply index_tokens_injective. }
  assert (Hsize : TextCharacterVocabulary.vocab_size v = Z.of_nat (length letters)).
  { unfold TextCharacterVocabulary.vocab_size, TextCharacterVocabulary.__len__. simpl.
    rewrite size_index_tokens. fold one letters.
    rewrite (proj2 (proj2 (remove_dups_length (one <$> letters))) Hnd').
    by rewrite length_fmap. }
  assert (Hchars : ∀ token, token ∈ chars corpus ↔ ∃ c, token = one c ∧ c ∈ corpus).
  { intros token. apply elem_of_chars. }
  split; [|split; [|split; [|split]]].
  - intros token. rewrite Hchars. split.
    + intros [idx (k & _ & Hk)%Htti]. apply list_elem_of_lookup_2 in Hk.
      apply list_elem_of_fmap in Hk as (c & -> & Hc).
      exists c. split; [done|]. by rewrite Hperm, elem_of_remove_dups in Hc.
    + intros (c & -> & Hc).
      assert (Hin : one c ∈ one <$> letters).
      { apply list_elem_of_fmap. exists c. split; [done|].
        by rewrite Hperm, elem_of_remove_dups. }
      apply list_elem_of_lookup_1 in Hin as [k Hk]. exists (Z.of_nat k).
      apply Htti. by exists k.
  - intros a b i j (k & -> & Hk)%Htti (k' & -> & Hk')%Htti.
    rewrite list_lookup_fmap in Hk, Hk'.
    destruct (letters !! k) as [a'|] eqn:Ea; [|done].
    destruct (letters !! k') as [b'|] eqn:Eb; [|done].
    simpl in Hk, Hk'. injection Hk as ->. injection Hk' as ->.
    assert (Hlt : ∀ (m n : nat) x y,
              letters !! m = Some x → letters !! n = Some y → (m < n)%nat → (x < y)%N).
    { intros m n x y Hm Hn Hmn.
      pose proof (StronglySorted_lookup_lt _ _ _ _ _ _ Hsorted Hm Hn Hmn) as Hle.
      destruct (decide (x = y)) as [->|]; [|lia].
      pose proof (NoDup_lookup _ _ _ _ Hnd Hm Hn). lia. }
    split.
    + intros Hij. apply (Hlt k k'); [done | done | lia].
    + intros Hab. destruct (decide (k < k')%nat) as [|Hge]; [lia|].
      destruct (decide (k = k')) as [->|Hne]; [rewrite Ea in Eb; injection Eb as ->; lia|].
      pose proof (Hlt k' k _ _ Eb Ea). lia.
  - exact Hitt.
  - intros idx. rewrite Hsize. split.
    + intros [token (k & -> & Hk)%Hitt%Htti]. apply lookup_lt_Some in Hk.
      rewrite length_fmap in Hk. lia.
    + intros Hidx. destruct (lookup_lt_is_Some_2 (one <$> letters) (Z.to_nat idx))
        as [token Hk]; [rewrite length_fmap; lia|].
      exists token. apply Hitt, Htti. exists (Z.to_nat idx). split; [lia | done].
  - rewrite Hsize. by rewrite Hperm.
Qed.

(** * The claims at concrete inputs *)

(** The callbacks of the examples do not read the trainer at all. *)
Lemma demo_world_registry_blind raising : registry_blind (world := demo_world raising).
Proof. intros callback args kwargs t. simpl. by destruct (bool_decide _). Qed.

(** [log_on_epoch_end] is not registered for [on_fit_start], whose
    handlers are the two fit-start loggers. *)
Lemma remove_callback_absent_witness :
  (log_on_epoch_end ∉ handlers_for "on_fit_start" (demo_trainer 1 "batch"))
  ∧ ∃ t', remove_callback "on_fit_start" log_on_epoch_end (demo_trainer 1 "batch")
          = (t', Raise ValueError)
          ∧ (∀ ev, handlers_for ev t' = handlers_for ev (demo_trainer 1 "batch"))
          ∧ strip t' = strip (demo_trainer 1 "batch")
          ∧ (∀ ev args kwargs,
               (trigger_callbacks (world := calm) ev args kwargs t').2
               = (trigger_callbacks (world := calm) ev args kwargs (demo_trainer 1 "batch")).2
               ∧ strip (trigger_callbacks (world := calm) ev args kwargs t').1
                 = strip (trigger_callbacks (world := calm) ev args kwargs
                            (demo_trainer 1 "batch")).1).
Proof.
  assert (H : log_on_epoch_end ∉ handlers_for "on_fit_start" (demo_trainer 1 "batch")).
  { apply (bool_decide_unpack _). vm_compute. exact I. }
  split; [exact H|].
  destruct (remove_callback_absent (world := calm) "on_fit_start" log_on_epoch_end
              (demo_trainer 1 "batch") H) as (t' & Hrun & Hsame & Hstrip & Hdispatch).
  exists t'. split; [exact Hrun|]. split; [exact Hsame|]. split; [exact Hstrip|].
  exact (Hdispatch (demo_world_registry_blind [])).
Defined.

(** The failed removal, computed. *)
Example remove_callback_absent_run :
  (remove_callback "on_fit_start" log_on_epoch_end (demo_trainer 1 "batch")).2
  = Raise ValueError
  ∧ handlers_for "on_fit_start"
      (remove_callback "on_fit_start" log_on_epoch_end (demo_trainer 1 "batch")).1
    = [log_on_fit_start; log_on_fit_start_model_summary]
  ∧ (remove_callback "on_fit_start" log_on_fit_start (demo_trainer 1 "batch")).2 = Ok tt
  ∧ handlers_for "on_fit_start"
      (remove_callback "on_fit_start" log_on_fit_start (demo_trainer 1 "batch")).1
    = [log_on_fit_start_model_summary].
Proof. repeat split; by vm_compute. Qed.

(** C2 fails on the code.  Callback 6 declares [phase] and not [epoch].
    Dispatched with one positional argument and both keywords, it is called
    with the trainer alone: the declared keyword and the positional argument
    are dropped with the undeclared keyword. *)
Lemma partial_context_is_dropped :
  declared_subset (world := calm) 6%nat demo_context = [("phase", PyStr "train")]
  ∧ trace (trigger_callbacks (world := calm) "on_fit_end" [PyInt 7] demo_context
             (set_callback "on_fit_end" 6%nat (demo_trainer 1 "batch")).1).1
    = [ModelTo; Dispatch "on_fit_end"; Invoke 6%nat [] []]
  ∧ (Invoke (F := float) 6%nat [] []
     ≠ Invoke 6%nat [PyInt 7] (declared_subset (world := calm) 6%nat demo_context)).
Proof.
  split; [by vm_compute|]. split; [by vm_compute|]. discriminate.
Qed.

Lemma dispatch_context_all_or_nothing_witness :
  (trigger_callbacks (world := calm) "on_train_epoch_end" [PyInt 7] demo_context
     (demo_trainer 1 "batch")).2 = Ok tt
  ∧ trace (trigger_callbacks (world := calm) "on_train_epoch_end" [PyInt 7] demo_context
             (demo_trainer 1 "batch")).1
    = trace (demo_trainer 1 "batch") ++ Dispatch "on_train_epoch_end" ::
        map (λ callback,
               if forallb (λ param,
                             bool_decide (param ∈ signature_parameters (Collaborators := calm)
                                                    callback))
                    demo_context.*1
               then Invoke callback [PyInt 7] demo_context
               else Invoke callback [] [])
            (handlers_for "on_train_epoch_end" (demo_trainer 1 "batch")).
Proof.
  assert (H : (trigger_callbacks (world := calm) "on_train_epoch_end" [PyInt 7] demo_context
                 (demo_trainer 1 "batch")).2 = Ok tt) by (vm_compute; reflexivity).
  split; [exact H|].
  exact (dispatch_context_all_or_nothing (world := calm) "on_train_epoch_end" [PyInt 7]
           demo_context (demo_trainer 1 "batch") H).
Defined.

(** With the keyword [phase] alone the two-parameter callback gets it. *)
Example dispatch_phase_only :
  trace (trigger_callbacks (world := calm) "on_train_epoch_end" []
           [("phase", PyStr "train")] (demo_trainer 1 "batch")).1
  = [ModelTo; Dispatch "on_train_epoch_end"; Invoke update_state [] [];
     Invoke log_on_epoch_end [] [("phase", PyStr "train")]].
Proof. by vm_compute. Qed.

(** Callback 7 raises: callback 6, registered before it, has been called,
    callback 8, registered after it, has not. *)
Example dispatch_stops_at_the_raise :
  (trigger_callbacks (world := stormy) "x" [] []
     (add_callback "x" 8%nat (add_callback "x" 7%nat
        (add_callback "x" 6%nat (demo_trainer 1 "batch")).1).1).1).2
  = Raise (Exception 7)
  ∧ trace (trigger_callbacks (world := stormy) "x" [] []
             (add_callback "x" 8%nat (add_callback "x" 7%nat
                (add_callback "x" 6%nat (demo_trainer 1 "batch")).1).1).1).1
    = [ModelTo; Dispatch "x"; Invoke 6%nat [] []; Invoke 7%nat [] []].
Proof. split; by vm_compute. Qed.

(** Callback 7 raises when its turn comes, after callback 6 has
    returned: the dispatch raises its exception and callback 8 is not
    called. *)
Lemma dispatch_in_order_fail_fast_witness :
  handlers_for "x" demo_three = [6%nat] ++ 7%nat :: [8%nat]
  ∧ for_each [6%nat] (deliver (world := stormy) [] []) (dispatched "x" demo_three)
    = ((for_each [6%nat] (deliver (world := stormy) [] []) (dispatched "x" demo_three)).1,
       Ok tt)
  ∧ raised (call (Collaborators := stormy) 7%nat [] []
              (shown 7%nat [] []
                 (for_each [6%nat] (deliver (world := stormy) [] [])
                    (dispatched "x" demo_three)).1))
    = Some (Exception 7)
  ∧ (trigger_callbacks (world := stormy) "x" [] [] demo_three).2 = Raise (Exception 7)
  ∧ trace (trigger_callbacks (world := stormy) "x" [] [] demo_three).1
    = trace demo_three
      ++ Dispatch "x" :: map (invocation (world := stormy) [] []) ([6%nat] ++ [7%nat]).
Proof.
  assert (H1 : handlers_for "x" demo_three = [6%nat] ++ 7%nat :: [8%nat])
    by (vm_compute; reflexivity).
  assert (H2 : for_each [6%nat] (deliver (world := stormy) [] []) (dispatched "x" demo_three)
               = ((for_each [6%nat] (deliver (world := stormy) [] [])
                     (dispatched "x" demo_three)).1, Ok tt))
    by (vm_compute; reflexivity).
  assert (H3 : raised (call (Collaborators := stormy) 7%nat [] []
                         (shown 7%nat [] []
                            (for_each [6%nat] (deliver (world := stormy) [] [])
                               (dispatched "x" demo_three)).1))
               = Some (Exception 7))
    by (vm_compute; reflexivity).
  split; [exact H1|]. split; [exact H2|]. split; [exact H3|].
  exact (proj2 (proj2 (dispatch_in_order_fail_fast (world := stormy) "x" [] [] demo_three))
           [6%nat] 7%nat [8%nat] _ (Exception 7) H1 H2 H3).
Defined.

Lemma any_event_name_witness :
  handlers_for "not_an_event" (demo_trainer 1 "batch") = []
  ∧ ∃ t', trigger_callbacks (world := calm) "not_an_event" [] [] (demo_trainer 1 "batch")
          = (t', Ok tt)
          ∧ trace t' = trace (demo_trainer 1 "batch") ++ [Dispatch "not_an_event"]
          ∧ strip t' = strip (logged (Dispatch "not_an_event") (demo_trainer 1 "batch"))
          ∧ ∀ ev, handlers_for ev t' = handlers_for ev (demo_trainer 1 "batch").
Proof.
  assert (H : handlers_for "not_an_event" (demo_trainer 1 "batch") = [])
    by (vm_compute; reflexivity).
  split; [exact H|].
  exact (proj2 (proj2 (any_event_name (world := calm) "not_an_event" save_state [] []
                         (demo_trainer 1 "batch"))) H).
Defined.

(** ** The drivers *)

Lemma calm_quiet : quiet (world := calm).
Proof. intros callback args kwargs t. reflexivity. Qed.

Lemma calm_keeps_metrics : keeps_metrics (world := calm).
Proof. intros callback args kwargs t. reflexivity. Qed.

Lemma demo_cadence epochs granularity :
  log_every_n_steps (cfg (demo_trainer epochs granularity)) ≠ 0.
Proof. by vm_compute. Qed.

Lemma demo_train_samples : total_samples (sizes demo_train) ≠ 0.
Proof. by vm_compute. Qed.

Lemma demo_valid_samples : total_samples (sizes demo_valid) ≠ 0.
Proof. by vm_compute. Qed.

Lemma demo_test_samples : total_samples (sizes demo_test) ≠ 0.
Proof. by vm_compute. Qed.

(** The failing input of C1: three batches, a scheduler, granularity
    ["epoch"].  The scheduler is stepped three times in the epoch. *)
Example epoch_granularity_steps_every_batch :
  (train_one_epoch (world := calm) demo_train (demo_trainer 1 "epoch")).2 = Ok 2%float
  ∧ scheduler_steps
      (trace (train_one_epoch (world := calm) demo_train (demo_trainer 1 "epoch")).1)
    = 3%nat.
Proof. split; by vm_compute. Qed.

Lemma scheduler_steps_per_epoch_witness :
  is_Some (scheduler (demo_trainer 1 "epoch"))
  ∧ ∃ t' loss evs,
      train_one_epoch (world := calm) demo_train (demo_trainer 1 "epoch") = (t', Ok loss)
      ∧ trace t' = trace (demo_trainer 1 "epoch") ++ evs
      ∧ (step_scheduler_on_batch_or_epoch (cfg (demo_trainer 1 "epoch")) = "batch" →
         scheduler_steps evs = length (batches demo_train))
      ∧ (step_scheduler_on_batch_or_epoch (cfg (demo_trainer 1 "epoch")) = "epoch" →
         scheduler_steps evs = length (batches demo_train)).
Proof.
  assert (H : is_Some (scheduler (demo_trainer 1 "epoch"))) by (vm_compute; eauto).
  split; [exact H|].
  exact (scheduler_steps_per_epoch (world := calm) demo_train (demo_trainer 1 "epoch")
           calm_quiet (demo_cadence 1 "epoch") demo_train_samples H).
Defined.

Lemma empty_epoch_raises_witness :
  batches demo_empty = []
  ∧ (train_one_epoch (world := calm) demo_empty (demo_trainer 1 "batch")).2
    = Raise ZeroDivisionError
  ∧ (valid_one_epoch (world := calm) demo_empty (demo_trainer 1 "batch")).2
    = Raise ZeroDivisionError.
Proof.
  split; [reflexivity|].
  exact (empty_epoch_raises (world := calm) demo_empty (demo_trainer 1 "batch") eq_refl).
Defined.

(** When the epoch-start dispatch raises, that exception comes out. *)
Example empty_epoch_after_raising_callback :
  (train_one_epoch (world := stormy) demo_empty
     (add_callback "on_train_epoch_start" 7%nat (demo_trainer 1 "batch")).1).2
  = Raise (Exception 7).
Proof. by vm_compute. Qed.

Lemma fit_runs_epochs_in_order_witness :
  ∃ t' evs,
    fit (world := calm) demo_train (Some demo_valid) (Some demo_test) (demo_trainer 2 "batch")
    = (t', Ok (state t'))
    ∧ trace t' = trace (demo_trainer 2 "batch") ++ evs
    ∧ markers evs
      = [Dispatch TrainerEvent.ON_FIT_START]
        ++ concat (replicate (Z.to_nat (max_epochs (cfg (demo_trainer 2 "batch"))))
                     (epoch_markers demo_train demo_valid demo_test))
        ++ [Dispatch TrainerEvent.ON_FIT_END].
Proof.
  exact (fit_runs_epochs_in_order (world := calm) demo_train demo_valid demo_test
           (demo_trainer 2 "batch") calm_quiet (demo_cadence 2 "batch")
           demo_train_samples demo_valid_samples demo_test_samples).
Defined.

(** The course of that run, computed. *)
Example fit_two_epochs_markers :
  markers (trace (fit (world := calm) demo_train (Some demo_valid) (Some demo_test)
                    (demo_trainer 2 "batch")).1)
  = [Dispatch "on_fit_start";
     Dispatch "on_train_epoch_start"; ModelTrain; Iterate demo_train;
     Dispatch "on_train_epoch_end";
     Dispatch "on_valid_epoch_start"; ModelEval; Iterate demo_valid;
     Dispatch "on_valid_epoch_end";
     Dispatch "on_valid_epoch_start"; ModelEval; Iterate demo_test;
     Dispatch "on_valid_epoch_end";
     Dispatch "on_train_epoch_start"; ModelTrain; Iterate demo_train;
     Dispatch "on_train_epoch_end";
     Dispatch "on_valid_epoch_start"; ModelEval; Iterate demo_valid;
     Dispatch "on_valid_epoch_end";
     Dispatch "on_valid_epoch_start"; ModelEval; Iterate demo_test;
     Dispatch "on_valid_epoch_end";
     Dispatch "on_fit_end"].
Proof. by vm_compute. Qed.

(** A loader that is supplied but yields nothing is false in
    [if valid_loader:]: its evaluation epoch is skipped, not run. *)
Example fit_skips_an_empty_loader :
  markers (trace (fit (world := calm) demo_train (Some demo_empty) None
                    (demo_trainer 1 "batch")).1)
  = [Dispatch "on_fit_start";
     Dispatch "on_train_epoch_start"; ModelTrain; Iterate demo_train;
     Dispatch "on_train_epoch_end";
     Dispatch "on_fit_end"].
Proof. by vm_compute. Qed.

Lemma epoch_average_is_weighted_average_witness :
  0 < total_samples (sizes demo_train)
  ∧ ∃ t' losses evs,
      train_one_epoch (world := calm) demo_train (demo_trainer 1 "batch")
      = (t', Ok (weighted_average losses (sizes demo_train)))
      ∧ trace t' = trace (demo_trainer 1 "batch") ++ evs
      ∧ loss_items evs = losses
      ∧ length losses = length (batches demo_train).
Proof.
  assert (H : 0 < total_samples (sizes demo_train)) by (vm_compute; reflexivity).
  split; [exact H|].
  exact (proj1 (epoch_average_is_weighted_average (world := calm) demo_train
                  (demo_trainer 1 "batch") calm_quiet (demo_cadence 1 "batch") H)).
Defined.

(** The scenario of the spec: three batches of four samples with losses
    1.0, 2.0 and 3.0 average to 2.0, which is stored in the metrics; with
    unequal sizes the average is weighted. *)
Example train_epoch_scenario :
  (train_one_epoch (world := calm) demo_train (demo_trainer 2 "batch")).2 = Ok 2%float
  ∧ metrics_dict (train_one_epoch (world := calm) demo_train (demo_trainer 2 "batch")).1
    !! "train_this_epoch_average_loss" = Some 2%float
  ∧ weighted_average [1; 4]%float [1; 3] = 3.25%float.
Proof. repeat split; by vm_compute. Qed.

Lemma test_pass_takes_validation_path_witness :
  ∃ t1 t2 t3 valid_losses test_losses evs,
    let valid_average := weighted_average valid_losses (sizes demo_valid) in
    let test_average := weighted_average test_losses (sizes demo_test) in
    valid_one_epoch (world := calm) demo_valid t1 = (t2, Ok valid_average)
    ∧ metrics_dict t2 !! "valid_this_epoch_average_loss" = Some valid_average
    ∧ valid_one_epoch (world := calm) demo_test (set_valid_loss (Some valid_average) t2)
      = (t3, Ok test_average)
    ∧ trace t3 = trace t2 ++ evs
    ∧ outline evs = valid_epoch_outline demo_test
    ∧ loss_items evs = test_losses
    ∧ metrics_dict t3
      = <["valid_this_epoch_average_loss" := test_average]> (metrics_dict t2)
    ∧ fit_epoch (world := calm) demo_train (Some demo_valid) (Some demo_test)
        (demo_trainer 1 "batch")
      = (set_test_loss (Some test_average) t3, Ok tt)
    ∧ metrics_dict (set_test_loss (Some test_average) t3) !! "valid_this_epoch_average_loss"
      = Some test_average
    ∧ valid_loss (set_test_loss (Some test_average) t3) = Some valid_average
    ∧ test_loss (set_test_loss (Some test_average) t3) = Some test_average.
Proof.
  exact (test_pass_takes_validation_path (world := calm) demo_train demo_valid demo_test
           (demo_trainer 1 "batch") calm_quiet calm_keeps_metrics (demo_cadence 1 "batch")
           demo_train_samples demo_valid_samples demo_test_samples).
Defined.

(** After one iteration the key holds the test loss 7.0, not the
    validation loss 5.0. *)
Example test_loss_under_the_validation_key :
  metrics_dict (fit_epoch (world := calm) demo_train (Some demo_valid) (Some demo_test)
                  (demo_trainer 1 "batch")).1 !! "valid_this_epoch_average_loss"
  = Some 7%float
  ∧ valid_loss (fit_epoch (world := calm) demo_train (Some demo_valid) (Some demo_test)
                  (demo_trainer 1 "batch")).1 = Some 5%float
  ∧ test_loss (fit_epoch (world := calm) demo_train (Some demo_valid) (Some demo_test)
                 (demo_trainer 1 "batch")).1 = Some 7%float.
Proof. repeat split; by vm_compute. Qed.

Lemma counters_of_a_fit_witness :
  ∃ t',
    fit (world := calm) demo_train (Some demo_valid) (Some demo_test) (demo_trainer 2 "batch")
    = (t', Ok (state t'))
    ∧ epoch_index t'
      = epoch_index (demo_trainer 2 "batch")
        + Z.max 0 (max_epochs (cfg (demo_trainer 2 "batch")))
    ∧ batch_index t'
      = batch_index (demo_trainer 2 "batch")
        + Z.max 0 (max_epochs (cfg (demo_trainer 2 "batch"))) * len demo_train.
Proof.
  refine (proj2 (proj2 (proj2 (proj2 (proj2 (proj2
            (counters_of_a_fit (world := calm) demo_train (Some demo_valid) (Some demo_test)
               (demo_trainer 2 "batch"))))))
            calm_quiet (demo_cadence 2 "batch") demo_train_samples _ _)).
  - intros _. exact demo_valid_samples.
  - intros _. exact demo_test_samples.
Defined.

(** Two epochs of three training batches: the counters end at 2 and 6. *)
Example counters_after_two_epochs :
  epoch_index (fit (world := calm) demo_train (Some demo_valid) (Some demo_test)
                 (demo_trainer 2 "batch")).1 = 2
  ∧ batch_index (fit (world := calm) demo_train (Some demo_valid) (Some demo_test)
                   (demo_trainer 2 "batch")).1 = 6.
Proof. split; by vm_compute. Qed.

(** * More properties at concrete inputs *)

Lemma remove_callback_present_witness :
  (log_on_fit_start ∈ handlers_for "on_fit_start" (demo_trainer 1 "batch"))
  ∧ ∃ pre post t',
      handlers_for "on_fit_start" (demo_trainer 1 "batch") = pre ++ log_on_fit_start :: post
      ∧ (log_on_fit_start ∉ pre)
      ∧ remove_callback "on_fit_start" log_on_fit_start (demo_trainer 1 "batch") = (t', Ok tt)
      ∧ handlers_for "on_fit_start" t' = pre ++ post
      ∧ ∀ ev, ev ≠ "on_fit_start" →
              handlers_for ev t' = handlers_for ev (demo_trainer 1 "batch").
Proof.
  assert (H : log_on_fit_start ∈ handlers_for "on_fit_start" (demo_trainer 1 "batch")).
  { apply (bool_decide_unpack _). vm_compute. exact I. }
  split; [exact H|].
  exact (remove_callback_present "on_fit_start" log_on_fit_start (demo_trainer 1 "batch") H).
Defined.

Lemma demo_cadence_every : log_every_n_steps (cfg (demo_trainer_every 2)) ≠ 0.
Proof. by vm_compute. Qed.

Lemma train_epoch_call_counts_witness :
  ∃ t' loss evs,
    train_one_epoch (world := calm) demo_train (demo_trainer_every 2) = (t', Ok loss)
    ∧ trace t' = trace (demo_trainer_every 2) ++ evs
    ∧ count_calls is_optimizer_step evs = length (batches demo_train)
    ∧ count_calls is_clip_grad_norm evs
      = (if clip_truthy (clip_grad_norm (cfg (demo_trainer_every 2)))
         then length (batches demo_train) else 0%nat)
    ∧ (scheduler (demo_trainer_every 2) = None → scheduler_steps evs = 0%nat)
    ∧ (step_scheduler_on_batch_or_epoch (cfg (demo_trainer_every 2)) ≠ "batch" →
       step_scheduler_on_batch_or_epoch (cfg (demo_trainer_every 2)) ≠ "epoch" →
       scheduler_steps evs = 0%nat).
Proof.
  exact (train_epoch_call_counts (world := calm) demo_train (demo_trainer_every 2)
           calm_quiet demo_cadence_every demo_train_samples).
Defined.

(** The counts of that epoch, computed: three batches, each clipped and
    stepped. *)
Example train_epoch_counts_computed :
  count_calls is_optimizer_step
    (trace (train_one_epoch (world := calm) demo_train (demo_trainer_every 2)).1) = 3%nat
  ∧ count_calls is_clip_grad_norm
      (trace (train_one_epoch (world := calm) demo_train (demo_trainer_every 2)).1) = 3%nat
  ∧ count_calls is_clip_grad_norm
      (trace (train_one_epoch (world := calm) demo_train (demo_trainer 1 "batch")).1) = 0%nat.
Proof. repeat split; by vm_compute. Qed.

Lemma eval_epoch_trains_nothing_witness :
  ∃ t' loss evs,
    valid_one_epoch (world := calm) demo_valid (demo_trainer_every 0) = (t', Ok loss)
    ∧ trace t' = trace (demo_trainer_every 0) ++ evs
    ∧ count_calls is_training_call evs = 0%nat
    ∧ logged_epochs evs = []
    ∧ batch_index t' = batch_index (demo_trainer_every 0)
    ∧ epoch_index t' = epoch_index (demo_trainer_every 0).
Proof.
  exact (eval_epoch_trains_nothing (world := calm) demo_valid (demo_trainer_every 0)
           calm_quiet demo_valid_samples).
Defined.

Lemma train_epoch_logs_on_cadence_witness :
  ∃ t' loss evs,
    train_one_epoch (world := calm) demo_train (demo_trainer_every 2) = (t', Ok loss)
    ∧ trace t' = trace (demo_trainer_every 2) ++ evs
    ∧ logged_steps evs
      = List.filter (λ i, i `mod` log_every_n_steps (cfg (demo_trainer_every 2)) =? 0)
          (seqZ 1 (len demo_train))
    ∧ count_calls is_get_last_lr evs
      = (if bool_decide (is_Some (scheduler (demo_trainer_every 2)))
         then length (logged_steps evs) else 0%nat).
Proof.
  exact (train_epoch_logs_on_cadence (world := calm) demo_train (demo_trainer_every 2)
           calm_quiet demo_cadence_every demo_train_samples).
Defined.

(** Of three batches logged every second step, the second is logged. *)
Example second_step_is_logged :
  logged_steps (trace (train_one_epoch (world := calm) demo_train (demo_trainer_every 2)).1)
  = [2]
  ∧ count_calls is_get_last_lr
      (trace (train_one_epoch (world := calm) demo_train (demo_trainer_every 2)).1) = 1%nat.
Proof. split; by vm_compute. Qed.

Lemma epoch_records_its_average_witness :
  (∃ t' loss,
     train_one_epoch (world := calm) demo_train (demo_trainer 1 "batch") = (t', Ok loss)
     ∧ metrics_dict t' !! "train_this_epoch_average_loss" = Some loss
     ∧ ∀ key, key ≠ "train_this_epoch_average_loss" →
              metrics_dict t' !! key = metrics_dict (demo_trainer 1 "batch") !! key)
  ∧ (∃ t' loss,
       valid_one_epoch (world := calm) demo_train (demo_trainer 1 "batch") = (t', Ok loss)
       ∧ metrics_dict t' !! "valid_this_epoch_average_loss" = Some loss
       ∧ ∀ key, key ≠ "valid_this_epoch_average_loss" →
                metrics_dict t' !! key = metrics_dict (demo_trainer 1 "batch") !! key).
Proof.
  exact (epoch_records_its_average (world := calm) demo_train (demo_trainer 1 "batch")
           calm_quiet calm_keeps_metrics (demo_cadence 1 "batch") demo_train_samples).
Defined.

(** A validation loader that yields nothing and no test loader. *)
Lemma fit_skips_absent_and_empty_loaders_witness :
  evaluable (Some demo_empty)
  ∧ ∃ t' evs,
      fit (world := calm) demo_train (Some demo_empty) None (demo_trainer 2 "batch")
      = (t', Ok (state t'))
      ∧ trace t' = trace (demo_trainer 2 "batch") ++ evs
      ∧ markers evs
        = [Dispatch TrainerEvent.ON_FIT_START]
          ++ concat (replicate (Z.to_nat (max_epochs (cfg (demo_trainer 2 "batch"))))
                       ([Dispatch TrainerEvent.ON_TRAIN_EPOCH_START; ModelTrain;
                         Iterate demo_train; Dispatch TrainerEvent.ON_TRAIN_EPOCH_END]
                        ++ eval_markers (Some demo_empty) ++ eval_markers None))
          ++ [Dispatch TrainerEvent.ON_FIT_END].
Proof.
  assert (H : evaluable (Some demo_empty)) by (intros Hne; by destruct Hne).
  split; [exact H|].
  exact (fit_skips_absent_and_empty_loaders (world := calm) demo_train (Some demo_empty) None
           (demo_trainer 2 "batch") calm_quiet (demo_cadence 2 "batch") demo_train_samples
           H I).
Defined.

Lemma fit_without_epochs_witness :
  max_epochs (cfg (demo_trainer 0 "batch")) ≤ 0
  ∧ ∃ t',
      fit (world := calm) demo_empty (Some demo_empty) None (demo_trainer 0 "batch")
      = (t', Ok (state t'))
      ∧ trace t'
        = trace (demo_trainer 0 "batch")
          ++ dispatch_events (world := calm) TrainerEvent.ON_FIT_START [] [] (demo_trainer 0 "batch")
          ++ dispatch_events (world := calm) TrainerEvent.ON_FIT_END [] [] (demo_trainer 0 "batch")
      ∧ (train_dataloader t', valid_dataloader t', test_dataloader t')
        = (Some demo_empty, Some demo_empty, None)
      ∧ epoch_index t' = epoch_index (demo_trainer 0 "batch")
      ∧ batch_index t' = batch_index (demo_trainer 0 "batch")
      ∧ (train_loss t', valid_loss t', test_loss t')
        = (train_loss (demo_trainer 0 "batch"), valid_loss (demo_trainer 0 "batch"),
           test_loss (demo_trainer 0 "batch")).
Proof.
  assert (H : max_epochs (cfg (demo_trainer 0 "batch")) ≤ 0) by by vm_compute.
  split; [exact H|].
  exact (fit_without_epochs (world := calm) demo_empty (Some demo_empty) None
           (demo_trainer 0 "batch") calm_quiet H).
Defined.

Lemma fit_over_empty_training_loader_witness :
  0 < max_epochs (cfg (demo_trainer 2 "batch"))
  ∧ batches demo_empty = []
  ∧ ∃ t',
      fit (world := calm) demo_empty (Some demo_valid) None (demo_trainer 2 "batch")
      = (t', Raise ZeroDivisionError)
      ∧ trace t'
        = trace (demo_trainer 2 "batch")
          ++ dispatch_events (world := calm) TrainerEvent.ON_FIT_START [] [] (demo_trainer 2 "batch")
          ++ dispatch_events (world := calm) TrainerEvent.ON_TRAIN_EPOCH_START []
               [("phase", PyStr TrainerPhase.TRAIN)] (demo_trainer 2 "batch")
          ++ [ModelTrain; Iterate demo_empty]
      ∧ epoch_index t' = epoch_index (demo_trainer 2 "batch") + 1
      ∧ batch_index t' = batch_index (demo_trainer 2 "batch")
      ∧ (train_loss t', valid_loss t', test_loss t')
        = (train_loss (demo_trainer 2 "batch"), valid_loss (demo_trainer 2 "batch"),
           test_loss (demo_trainer 2 "batch")).
Proof.
  assert (H : 0 < max_epochs (cfg (demo_trainer 2 "batch"))) by by vm_compute.
  split; [exact H|]. split; [reflexivity|].
  exact (fit_over_empty_training_loader (world := calm) demo_empty (Some demo_valid) None
           (demo_trainer 2 "batch") calm_quiet H eq_refl).
Defined.

Lemma zero_cadence_raises_after_first_batch_witness :
  log_every_n_steps (cfg (demo_trainer_every 0)) = 0
  ∧ ∃ t' loss,
      train_one_epoch (world := calm) demo_train (demo_trainer_every 0)
      = (t', Raise ZeroDivisionError)
      ∧ trace t'
        = trace (demo_trainer_every 0)
          ++ dispatch_events (world := calm) TrainerEvent.ON_TRAIN_EPOCH_START []
               [("phase", PyStr TrainerPhase.TRAIN)] (demo_trainer_every 0)
          ++ [ModelTrain; Iterate demo_train]
          ++ train_batch_events (world := calm) (demo_trainer_every 0) {| tensors := 1; size0 := 4 |} loss
      ∧ batch_index t' = batch_index (demo_trainer_every 0) + 1.
Proof.
  split; [reflexivity|].
  exact (zero_cadence_raises_after_first_batch (world := calm) demo_train
           {| tensors := 1; size0 := 4 |}
           [{| tensors := 2; size0 := 4 |}; {| tensors := 3; size0 := 4 |}]
           (demo_trainer_every 0) calm_quiet eq_refl eq_refl).
Defined.

(** That epoch, computed: one optimizer step, then the error. *)
Example zero_cadence_computed :
  (train_one_epoch (world := calm) demo_train (demo_trainer_every 0)).2
  = Raise ZeroDivisionError
  ∧ count_calls is_optimizer_step
      (trace (train_one_epoch (world := calm) demo_train (demo_trainer_every 0)).1) = 1%nat.
Proof. split; by vm_compute. Qed.

Lemma batch_calls_in_order_witness :
  (∃ t' loss,
     _train_one_batch (world := calm) {| tensors := 1; size0 := 4 |} (demo_trainer_every 2)
     = (t', Ok (loss, fmul_int loss 4))
     ∧ trace t'
       = trace (demo_trainer_every 2)
         ++ Dispatch TrainerEvent.ON_TRAIN_BATCH_START
            :: map (λ callback, Invoke callback [] [])
                 (handlers_for TrainerEvent.ON_TRAIN_BATCH_START (demo_trainer_every 2))
         ++ [MoveToDevice {| tensors := 1; size0 := 4 |}; Forward; Criterion; ZeroGrad;
             Backward; LossItem loss]
         ++ (if clip_truthy (clip_grad_norm (cfg (demo_trainer_every 2)))
             then [ClipGradNorm] else [])
         ++ [OptimizerStep]
         ++ (if steps_scheduler_on "batch" (demo_trainer_every 2) then [SchedulerStep] else [])
         ++ Dispatch TrainerEvent.ON_TRAIN_BATCH_END
            :: map (λ callback, Invoke callback [] [])
                 (handlers_for TrainerEvent.ON_TRAIN_BATCH_END (demo_trainer_every 2)))
  ∧ (∃ t' loss,
       _valid_one_batch (world := calm) {| tensors := 1; size0 := 4 |} (demo_trainer_every 2)
       = (t', Ok (loss, fmul_int loss 4))
       ∧ trace t'
         = trace (demo_trainer_every 2)
           ++ [NoGradEnter]
           ++ Dispatch TrainerEvent.ON_VALID_BATCH_START
              :: map (λ callback, Invoke callback [] [])
                   (handlers_for TrainerEvent.ON_VALID_BATCH_START (demo_trainer_every 2))
           ++ [MoveToDevice {| tensors := 1; size0 := 4 |}; Forward; Criterion; LossItem loss]
           ++ Dispatch TrainerEvent.ON_VALID_BATCH_END
              :: map (λ callback, Invoke callback [] [])
                   (handlers_for TrainerEvent.ON_VALID_BATCH_END (demo_trainer_every 2))
           ++ [NoGradExit]).
Proof.
  exact (batch_calls_in_order (world := calm) {| tensors := 1; size0 := 4 |}
           (demo_trainer_every 2) calm_quiet).
Defined.

(** A training batch with clipping and a scheduler stepped per batch,
    computed. *)
Example train_batch_computed :
  trace (_train_one_batch (world := calm) {| tensors := 1; size0 := 4 |}
           (demo_trainer_every 2)).1
  = [ModelTo; Dispatch "on_train_batch_start"; MoveToDevice {| tensors := 1; size0 := 4 |};
     Forward; Criterion; ZeroGrad; Backward; LossItem 1%float; ClipGradNorm; OptimizerStep;
     SchedulerStep; Dispatch "on_train_batch_end"].
Proof. by vm_compute. Qed.

(** ** The vocabularies *)

Lemma encode_needs_unk_witness :
  token_to_index demo_digits !! AdderVocabulary.UNK = None
  ∧ (false = true ∨ literal "01" ≠ [] →
     AdderVocabulary.encode demo_digits (literal "01") false = KeyError "<UNK>")
  ∧ AdderVocabulary.encode demo_digits [] false = Value [].
Proof.
  assert (H : token_to_index demo_digits !! AdderVocabulary.UNK = None)
    by (vm_compute; reflexivity).
  split; [exact H|].
  exact (encode_needs_unk demo_digits (literal "01") false H).
Defined.

Lemma encode_decode_round_trip_witness :
  AdderVocabulary.UNK ∈ AdderVocabulary.TOKENS
  ∧ (literal "<" ∉ AdderVocabulary.TOKENS)
  ∧ ∃ codes,
      AdderVocabulary.encode demo_adder demo_sequence true = Value codes
      ∧ length codes = (length demo_sequence + 2)%nat
      ∧ AdderVocabulary.decode demo_adder codes false
        = join (map (piece AdderVocabulary.TOKENS)
                  (AdderVocabulary.tokenize demo_sequence true))
      ∧ AdderVocabulary.decode demo_adder codes true
        = join (filter (λ token, token ∈ AdderVocabulary.TOKENS) (chars demo_sequence))
      ∧ (Forall (λ token, token ∈ AdderVocabulary.TOKENS) (chars demo_sequence) →
         AdderVocabulary.decode demo_adder codes true = demo_sequence).
Proof.
  assert (H1 : AdderVocabulary.UNK ∈ AdderVocabulary.TOKENS).
  { apply (bool_decide_unpack _). vm_compute. exact I. }
  assert (H2 : literal "<" ∉ AdderVocabulary.TOKENS).
  { apply (bool_decide_unpack _). vm_compute. exact I. }
  split; [exact H1|]. split; [exact H2|].
  exact (encode_decode_round_trip AdderVocabulary.TOKENS 2 demo_sequence true H1 H2).
Defined.

(** The adder's vocabulary at work: each of the two unknown characters
    is one token, encoded as ["<UNK>"], index 17, and dropped by
    [decode]. *)
Example adder_vocabulary_computed :
  AdderVocabulary.encode demo_adder demo_sequence true
  = Value [14; 1; 17; 17; 10; 2; 13; 3; 15]
  ∧ AdderVocabulary.decode demo_adder [14; 1; 17; 17; 10; 2; 13; 3; 15] true
    = literal "1+2=3"
  ∧ AdderVocabulary.decode demo_adder [14; 1; 17; 17; 10; 2; 13; 3; 15] false
    = literal "<BOS>1<UNK><UNK>+2=3<EOS>"
  ∧ AdderVocabulary.decode demo_adder [99; 1; -1] true = literal "1"
  ∧ AdderVocabulary.vocab_size demo_adder = 18.
Proof. repeat split; by vm_compute. Qed.

(** A repeated token keeps its last position, and the earlier position is
    the index of no token. *)
Example repeated_token_computed :
  token_to_index (from_tokens [literal "a"; literal "b"; literal "a"] 2) !! literal "a"
  = Some 2
  ∧ index_to_token (from_tokens [literal "a"; literal "b"; literal "a"] 2) !! 0 = None
  ∧ AdderVocabulary.vocab_size (from_tokens [literal "a"; literal "b"; literal "a"] 2) = 2.
Proof. repeat split; by vm_compute. Qed.

(** The characters of a corpus, indexed by code point: the euro sign
    (8364) after [é] (233) after the letters. *)
Example from_corpus_computed :
  TextCharacterVocabulary.token_to_index
    (TextCharacterVocabulary.from_corpus ([8364%N; 233%N] ++ literal "hello"))
  = {[ literal "e" := 0; literal "h" := 1; literal "l" := 2; literal "o" := 3;
       [233%N] := 4; [8364%N] := 5 ]}
  ∧ TextCharacterVocabulary.vocab_size
      (TextCharacterVocabulary.from_corpus ([8364%N; 233%N] ++ literal "hello")) = 6.
Proof. split; by vm_compute. Qed.
